(** * Doc_Scraper: the crawl engine, embedded in Rocq

    A shallow embedding of the documentation crawler of
    [document_scraper] (files [utils.py], [crawler.py], [scraper.py])
    and the properties of its specification that were checked on it.

    Conventions.
    - Python [str] is [string]; the text handled is ASCII.
    - Python [int] is [Z]; [range(n)] runs [Z.to_nat n] times.
    - Python [set] of URLs is [gset string], [dict] from URL to message
      is [gmap string string]; a [dict] whose order matters (the result
      of [parse_qs], the per-category link lists) is an association list.
    - [collections.deque] is a [list], [popleft] takes the head and
      [append] adds at the end.
    - What the program obtains from outside (the HTTP session, the HTML
      parser, the stop event, the order in which futures complete, the
      regular-expression engine) is a parameter of the model. *)

From stdpp Require Import gmap strings list fin_maps pretty.
From Stdlib Require Import ZArith Ascii String Lia Permutation.

Open Scope string_scope.
Open Scope Z_scope.

(** ** Python string operations *)

Module PyStr.

(** [s.startswith(p)] *)
Definition startswith (s p : string) : bool := String.prefix p s.

(** [s.startswith((p1, p2, ...))] *)
Definition startswith_any (s : string) (ps : list string) : bool :=
  existsb (startswith s) ps.

(** [sub in s] *)
Fixpoint contains (s sub : string) : bool :=
  startswith s sub ||
  match s with
  | EmptyString => false
  | String _ s' => contains s' sub
  end.

(** [c in s] for a single character. *)
Fixpoint has_char (c : ascii) (s : string) : bool :=
  match s with
  | EmptyString => false
  | String d s' => Ascii.eqb c d || has_char c s'
  end.

Definition rev (s : string) : string :=
  string_of_list_ascii (List.rev (list_ascii_of_string s)).

(** [s.endswith(p)] *)
Definition endswith (s p : string) : bool := String.prefix (rev p) (rev s).

(** [s.split(c, 1)] as a pair: the text before the first [c] and the
    text after it; [None] when [c] does not occur. *)
Fixpoint partition (c : ascii) (s : string) : option (string * string) :=
  match s with
  | EmptyString => None
  | String d s' =>
      if Ascii.eqb c d then Some (EmptyString, s')
      else match partition c s' with
           | Some (a, b) => Some (String d a, b)
           | None => None
           end
  end.

(** [s.split(c)] for a one-character separator. *)
Fixpoint split (c : ascii) (s : string) : list string :=
  match s with
  | EmptyString => [EmptyString]
  | String d s' =>
      if Ascii.eqb c d then EmptyString :: split c s'
      else match split c s' with
           | w :: ws => String d w :: ws
           | [] => [String d EmptyString]
           end
  end.

(** [sep.join(l)] *)
Fixpoint join (sep : string) (l : list string) : string :=
  match l with
  | [] => EmptyString
  | [w] => w
  | w :: ws => w ++ sep ++ join sep ws
  end.

(** [s.lstrip(c)], [s.rstrip(c)], [s.strip(c)] for one character. *)
Fixpoint lstrip (c : ascii) (s : string) : string :=
  match s with
  | String d s' => if Ascii.eqb c d then lstrip c s' else s
  | EmptyString => EmptyString
  end.

Definition rstrip (c : ascii) (s : string) : string := rev (lstrip c (rev s)).

Definition strip (c : ascii) (s : string) : string := rstrip c (lstrip c s).

Arguments has_char c%_char s%_string.
Arguments partition c%_char s%_string.
Arguments split c%_char s%_string.
Arguments lstrip c%_char s%_string.
Arguments rstrip c%_char s%_string.
Arguments strip c%_char s%_string.

Definition is_upper (c : ascii) : bool :=
  let n := nat_of_ascii c in (65 <=? n)%nat && (n <=? 90)%nat.

Definition is_lower (c : ascii) : bool :=
  let n := nat_of_ascii c in (97 <=? n)%nat && (n <=? 122)%nat.

Definition is_digit (c : ascii) : bool :=
  let n := nat_of_ascii c in (48 <=? n)%nat && (n <=? 57)%nat.

Definition is_alpha (c : ascii) : bool := is_upper c || is_lower c.

Definition lower_char (c : ascii) : ascii :=
  if is_upper c then ascii_of_nat (nat_of_ascii c + 32) else c.

(** [s.lower()] *)
Fixpoint lower (s : string) : string :=
  match s with
  | EmptyString => EmptyString
  | String c s' => String (lower_char c) (lower s')
  end.

(** [x in l] for a list of strings. *)
Definition mem (x : string) (l : list string) : bool :=
  existsb (String.eqb x) l.

(** [l[-n:]] and [l[:-n]] *)
Definition last_n {A} (n : nat) (l : list A) : list A :=
  skipn (List.length l - n) l.

Definition drop_last_n {A} (n : nat) (l : list A) : list A :=
  firstn (List.length l - n) l.

(** [re.sub(r'/{2,}', '/', s)]: every run of slashes becomes one. *)
Fixpoint collapse_slashes (s : string) : string :=
  match s with
  | String "/" ((String "/" _) as s') => collapse_slashes s'
  | String c s' => String c (collapse_slashes s')
  | EmptyString => EmptyString
  end.

End PyStr.

(** ** The parts of [urllib.parse] and [os.path] the program calls

    These are library functions; they are modelled after CPython's
    [urllib/parse.py] and [posixpath.py].  Left out: the removal of
    control characters and of tab/newline bytes from the input and
    UTF-8 decoding of percent escapes above 127.  [urlparse] is total
    here; the [ValueError] it raises for a malformed host is a
    separate test ([unmatched_bracket] is the one of every version of
    the library), which the one function that catches it,
    [_normalize_url], takes as a parameter. *)

Module UrlLib.
Import PyStr.

Record ParseResult := mkParseResult {
  scheme : string;
  netloc : string;
  path : string;
  params : string;
  query : string;
  fragment : string
}.

Definition uses_params : list string :=
  [""; "ftp"; "hdl"; "prospero"; "http"; "imap"; "https"; "shttp";
   "rtsp"; "rtspu"; "sip"; "sips"; "mms"; "sftp"; "tel"].

Definition uses_netloc : list string :=
  [""; "ftp"; "http"; "gopher"; "nntp"; "telnet"; "imap"; "wais";
   "file"; "mms"; "https"; "shttp"; "snews"; "prospero"; "rtsp";
   "rtspu"; "rsync"; "svn"; "svn+ssh"; "sftp"; "nfs"; "git";
   "git+ssh"; "ws"; "wss"].

Definition is_scheme_char (c : ascii) : bool :=
  is_alpha c || is_digit c ||
  Ascii.eqb c "+" || Ascii.eqb c "-" || Ascii.eqb c ".".

Fixpoint all_chars (p : ascii -> bool) (s : string) : bool :=
  match s with
  | EmptyString => true
  | String c s' => p c && all_chars p s'
  end.

(** The scheme prefix of [urlsplit]: [url.find(':') > 0], the first
    character a letter, every character before the colon a scheme
    character. *)
Definition split_scheme (url : string) : string * string :=
  match partition ":" url with
  | Some (String c0 pre, rest) =>
      if is_alpha c0 && all_chars is_scheme_char (String c0 pre)
      then (lower (String c0 pre), rest)
      else (EmptyString, url)
  | _ => (EmptyString, url)
  end.

(** [_splitnetloc(url, 2)] on the text after the two slashes: the
    host part runs up to the first of [/], [?], [#]. *)
Fixpoint splitnetloc (s : string) : string * string :=
  match s with
  | EmptyString => (EmptyString, EmptyString)
  | String c s' =>
      if Ascii.eqb c "/" || Ascii.eqb c "?" || Ascii.eqb c "#"
      then (EmptyString, s)
      else let '(h, r) := splitnetloc s' in (String c h, r)
  end.

(** [_splitparams]: the parameters follow the first [;] of the last
    path segment. *)
Definition splitparams (url : string) : string * string :=
  let segs := split "/" url in
  let front := drop_last_n 1 segs in
  let lastseg := List.last segs EmptyString in
  match partition ";" lastseg with
  | Some (a, b) => (join "/" (front ++ [a])%list, b)
  | None => (url, EmptyString)
  end.

Definition urlparse (url : string) : ParseResult :=
  let '(sch, rest) := split_scheme url in
  let '(nl, rest) :=
    match rest with
    | String "/" (String "/" r) => splitnetloc r
    | _ => (EmptyString, rest)
    end in
  let '(rest, frag) :=
    match partition "#" rest with
    | Some (a, b) => (a, b)
    | None => (rest, EmptyString)
    end in
  let '(rest, q) :=
    match partition "?" rest with
    | Some (a, b) => (a, b)
    | None => (rest, EmptyString)
    end in
  let '(p, prm) :=
    if mem sch uses_params && has_char ";" rest then splitparams rest
    else (rest, EmptyString) in
  mkParseResult sch nl p prm q frag.

Definition nonempty (s : string) : bool :=
  match s with EmptyString => false | _ => true end.


Definition urlunsplit (sch nl url q frag : string) : string :=
  let url :=
    if nonempty nl ||
       (nonempty sch && mem sch uses_netloc && negb (startswith url "//"))
    then "//" ++ nl ++
         (if nonempty url && negb (startswith url "/")
          then "/" ++ url else url)
    else url in
  let url := if nonempty sch then sch ++ ":" ++ url else url in
  let url := if nonempty q then url ++ "?" ++ q else url in
  if nonempty frag then url ++ "#" ++ frag else url.

Definition urlunparse (r : ParseResult) : string :=
  let url := if nonempty (params r)
             then path r ++ ";" ++ params r else path r in
  urlunsplit (scheme r) (netloc r) url (query r) (fragment r).

(** [ParseResult.geturl()] *)
Definition geturl (r : ParseResult) : string := urlunparse r.

(** *** Percent encoding *)

Definition hex_digit (n : nat) : ascii :=
  if (n <? 10)%nat then ascii_of_nat (48 + n) else ascii_of_nat (55 + n).

Definition hex_value (c : ascii) : option nat :=
  let n := nat_of_ascii c in
  if is_digit c then Some (n - 48)%nat
  else if (65 <=? n)%nat && (n <=? 70)%nat then Some (n - 55)%nat
  else if (97 <=? n)%nat && (n <=? 102)%nat then Some (n - 87)%nat
  else None.

(** Characters [quote_plus] never escapes. *)
Definition is_unreserved (c : ascii) : bool :=
  is_alpha c || is_digit c || Ascii.eqb c "_" || Ascii.eqb c "." ||
  Ascii.eqb c "-" || Ascii.eqb c "~".

(** [quote_plus(s)] *)
Fixpoint quote_plus (s : string) : string :=
  match s with
  | EmptyString => EmptyString
  | String c s' =>
      if is_unreserved c then String c (quote_plus s')
      else if Ascii.eqb c " " then String "+" (quote_plus s')
      else let n := nat_of_ascii c in
           String "%" (String (hex_digit (n / 16))
                      (String (hex_digit (n mod 16)) (quote_plus s')))
  end.

(** [unquote(s.replace('+', ' '))] *)
Fixpoint unquote_plus (s : string) : string :=
  match s with
  | EmptyString => EmptyString
  | String "+" s' => String " " (unquote_plus s')
  | String "%" ((String a (String b s')) as t) =>
      match hex_value a, hex_value b with
      | Some x, Some y => String (ascii_of_nat (16 * x + y)) (unquote_plus s')
      | _, _ => String "%" (unquote_plus t)
      end
  | String c s' => String c (unquote_plus s')
  end.

(** [parse_qsl(qs)] with the defaults: fields are separated by [&],
    a field with no [=] or with an empty value is dropped. *)
Definition parse_qsl (qs : string) : list (string * string) :=
  flat_map
    (fun name_value =>
       match partition "=" name_value with
       | Some (n, v) =>
           if nonempty v then [(unquote_plus n, unquote_plus v)] else []
       | None => []
       end)
    (split "&" qs).


(** A [dict] from name to list of values, in insertion order. *)
Definition qdict := list (string * list string).

Fixpoint qdict_add (n v : string) (d : qdict) : qdict :=
  match d with
  | [] => [(n, [v])]
  | (k, vs) :: d' =>
      if String.eqb k n then (k, (vs ++ [v])%list) :: d'
      else (k, vs) :: qdict_add n v d'
  end.

(** [parse_qs(qs)] *)
Definition parse_qs (qs : string) : qdict :=
  fold_left (fun d nv => qdict_add (fst nv) (snd nv) d) (parse_qsl qs) [].

(** [urlencode(d, doseq=True)] *)
Definition urlencode (d : qdict) : string :=
  join "&"
    (flat_map
       (fun kv => map (fun v => quote_plus (fst kv) ++ "=" ++ quote_plus v)
                      (snd kv))
       d).

(** The (name, value) pairs a [parse_qs] dictionary stands for, and
    the field [urlencode] writes for one pair. *)
Definition pairs_of (d : qdict) : list (string * string) :=
  flat_map (fun kv => map (fun v => (fst kv, v)) (snd kv)) d.

Definition encode_pair (nv : string * string) : string :=
  quote_plus (fst nv) ++ "=" ++ quote_plus (snd nv).

(** *** [os.path] (POSIX flavour) *)

(** [os.path.basename(p)]: what follows the last slash. *)
Definition basename (p : string) : string :=
  List.last (split "/" p) EmptyString.

(** [os.path.splitext(name)[1]] for a name without slash: the text
    from the last dot on, unless only dots precede that dot. *)
Definition splitext_ext (name : string) : string :=
  match List.rev (split "." name) with
  | e :: (_ :: _) as before =>
      if forallb (fun w => negb (nonempty w)) before then EmptyString
      else "." ++ e
  | _ => EmptyString
  end.

End UrlLib.

(** ** [document_scraper/utils.py] *)

(** The category names the classifiers return: ['doc'], ['aux'],
    ['external'], ['asset'], ['invalid']. *)
Inductive Category := Doc | Aux | External | Asset | Invalid.

Definition category_name (c : Category) : string :=
  match c with
  | Doc => "doc" | Aux => "aux" | External => "external"
  | Asset => "asset" | Invalid => "invalid"
  end.

Module Utils.
Import PyStr UrlLib.

Definition is_valid_url (url : string) : bool :=
  if negb (nonempty url) then false
  else
    let result := urlparse url in
    if negb (nonempty (scheme result) && nonempty (netloc result)) then false
    else if negb (mem (scheme result) ["http"; "https"]) then false
    else if mem (scheme result) ["javascript"; "data"; "file"] then false
    else true.

Definition get_domain (url : string) : string :=
  let parsed_url := urlparse url in
  scheme parsed_url ++ "://" ++ netloc parsed_url.

Definition skip_prefixes : list string :=
  ["#"; "javascript:"; "mailto:"; "tel:"].

Section NormalizeUrl.
(** [urllib.parse.urljoin] *)
Variable urljoin : string -> string -> string.

Definition normalize_url (url base_url : string) : option string :=
  if negb (nonempty url) || startswith_any url skip_prefixes then None
  else
    let url :=
      if has_char "#" url && negb (has_char "?" url)
      then List.hd EmptyString (split "#" url)
      else url in
    if negb (nonempty (netloc (urlparse url)))
    then Some (urljoin base_url url)
    else Some url.
End NormalizeUrl.

Definition exclude_params : list string :=
  ["utm_source"; "utm_medium"; "utm_campaign"; "utm_term"; "utm_content";
   "fbclid"; "gclid"; "ref"; "source"; "mc_cid"; "mc_eid"; "tracking";
   "__hstc"; "__hssc"; "__hsfp"; "_ga"; "_gl"; "_hsenc"; "_hsmi"].

(** The six components [clean_url] hands to [urlunparse]. *)
Definition clean_parts (url : string) : ParseResult :=
  let parsed := urlparse url in
  let path0 := collapse_slashes (path parsed) in
  let path1 :=
    if negb (String.eqb path0 "/") && endswith path0 "/"
    then rstrip "/" path0 else path0 in
  let params0 := parse_qs (query parsed) in
  let filtered_params :=
    List.filter (fun kv => negb (mem (lower (fst kv)) exclude_params))
                params0 in
  mkParseResult (scheme parsed) (netloc parsed) path1 (params parsed)
                (urlencode filtered_params) EmptyString.

Definition clean_url (url : string) : string :=
  urlunparse (clean_parts url).

Definition main_domain (parts : list string) : string :=
  join "." (last_n 2 parts).

Definition is_same_domain (url1 url2 : string) : bool :=
  let netloc1 := lower (netloc (urlparse url1)) in
  let netloc2 := lower (netloc (urlparse url2)) in
  if String.eqb netloc1 netloc2 then true
  else
    let parts1 := split "." netloc1 in
    let parts2 := split "." netloc2 in
    if (2 <=? List.length parts1)%nat && (2 <=? List.length parts2)%nat
    then String.eqb (main_domain parts1) (main_domain parts2)
    else false.

Definition get_file_extension (url : string) : string :=
  let filename := basename (path (urlparse url)) in
  let ext := splitext_ext filename in
  match ext with
  | String _ e => lower e
  | EmptyString => EmptyString
  end.

Definition asset_extensions : list string :=
  ["jpg"; "jpeg"; "png"; "gif"; "svg"; "webp"; "ico"; "bmp";
   "css"; "scss"; "less";
   "js"; "mjs";
   "woff"; "woff2"; "ttf"; "eot"; "otf";
   "pdf"; "zip"; "xml"; "json"].

Definition asset_patterns : list string :=
  ["/assets/"; "/static/"; "/images/"; "/img/"; "/css/"; "/js/"; "/fonts/"].

Definition is_asset_url (url : string) : bool :=
  if mem (get_file_extension url) asset_extensions then true
  else existsb (fun pattern => contains (lower url) pattern) asset_patterns.

Definition doc_patterns : list string :=
  ["/docs/"; "/doc/"; "/documentation/"; "/guide/"; "/guides/";
   "/reference/"; "/api/"; "/manual/"; "/tutorial/"; "/get-started/";
   "/learn/"; "/howto/"; "/usage/"; "/examples/"; "/quickstart/";
   "/sdk/"; "/cli/"; "/faq/"; "/help/"].

Definition aux_patterns : list string :=
  ["/account/"; "/profile/"; "/settings/"; "/user/";
   "/pricing/"; "/billing/"; "/subscription/"; "/payment/"; "/plans/";
   "/about/"; "/company/"; "/team/"; "/contact/"; "/support/";
   "/legal/"; "/terms/"; "/privacy/"; "/blog/"; "/news/"].

(** [any(pattern in path for pattern in patterns)], as the two
    [for] loops of [categorize_url] compute it. *)
Definition matches_any (path : string) (patterns : list string) : bool :=
  existsb (fun pattern => contains path pattern) patterns.

Definition categorize_url (url base_url : string) : Category :=
  if negb (nonempty url) || negb (is_valid_url url) then Invalid
  else if is_asset_url url then Asset
  else if negb (is_same_domain url base_url) then External
  else
    let path := lower (path (urlparse url)) in
    if matches_any path doc_patterns then Doc
    else if matches_any path aux_patterns then Aux
    else Doc.

End Utils.

(** ** URL and content filters

    [Crawler] and [DocumentationScraper] carry the same two methods,
    [_matches_url_filters] and [_matches_content_filters], over lists of
    compiled regular expressions.  The regular-expression engine is a
    parameter: [search p s] stands for [p.search(s)] being a match. *)

Section Filters.
Variable Pattern : Type.
Variable search : Pattern -> string -> bool.

(** [if include and not any(...): return False;
     if any(... exclude ...): return False; return True] *)
Definition matches_filters (include_regex exclude_regex : list Pattern)
           (text : string) : bool :=
  if negb (Nat.eqb (List.length include_regex) 0) &&
     negb (existsb (fun pattern => search pattern text) include_regex)
  then false
  else if existsb (fun pattern => search pattern text) exclude_regex
  then false
  else true.

Definition _matches_url_filters := matches_filters.
Definition _matches_content_filters := matches_filters.
End Filters.

(** ** [document_scraper/crawler.py]: classification *)

Module Classifier.
Import PyStr UrlLib.

Definition DOC_PATTERNS : list string := Utils.doc_patterns.
Definition AUX_PATTERNS : list string := Utils.aux_patterns.

Definition doc_subdomains : list string :=
  ["docs"; "documentation"; "developer"; "api"; "guide"; "help";
   "support"; "manual"; "learn"].

Definition newline : string := String (ascii_of_nat 10) EmptyString.

(** [re.search(r'\.(html|htm|md|pdf|txt)$', path)]: [$] matches at
    the end of the text and before a final newline. *)
Definition doc_like_suffix (path : string) : bool :=
  existsb (fun e => endswith path e || endswith path (e ++ newline))
          [".html"; ".htm"; ".md"; ".pdf"; ".txt"].

(** What [Crawler.__init__] derives from the [base_url] argument. *)
Record Site := mkSite {
  base_url : string;
  domain : string;
  base_path : string;
  base_path_segments : list string
}.

Definition site_of (base_url_arg : string) : Site :=
  let bp := strip "/" (path (urlparse base_url_arg)) in
  mkSite (rstrip "/" base_url_arg)
         (Utils.get_domain base_url_arg)
         bp
         (if nonempty bp then split "/" bp else []).

Definition list_eqb (a b : list string) : bool :=
  bool_decide (a = b).

(** The test that sends a URL to the external / related-subdomain
    branch. *)
Definition off_site (self : Site) (url : string) : bool :=
  let nl := netloc (urlparse url) in
  nonempty nl && negb (String.eqb nl (netloc (urlparse (domain self)))).

(** The two "continuation of the base path" tests. *)
Definition under_base_path (self : Site) (url : string) : bool :=
  let parsed_url := urlparse url in
  let path := lower (path parsed_url) in
  (nonempty (base_path self) &&
   startswith path ("/" ++ base_path self ++ "/")) ||
  (negb (Nat.eqb (List.length (base_path_segments self)) 0) &&
   let url_path_segments := split "/" (strip "/" (UrlLib.path parsed_url)) in
   (List.length (base_path_segments self) <=? List.length url_path_segments)%nat &&
   list_eqb (firstn (List.length (base_path_segments self)) url_path_segments)
            (base_path_segments self)).

Definition categorize_url (self : Site) (url : string) : Category :=
  if negb (nonempty url) then Invalid
  else if Utils.is_asset_url url then Asset
  else
    let parsed_url := urlparse url in
    if off_site self url then
      let base_domain_parts := split "." (netloc (urlparse (domain self))) in
      let url_domain_parts := split "." (netloc parsed_url) in
      if (2 <=? List.length base_domain_parts)%nat &&
         (2 <=? List.length url_domain_parts)%nat &&
         String.eqb (Utils.main_domain base_domain_parts)
                    (Utils.main_domain url_domain_parts) &&
         existsb (fun subdomain => mem subdomain doc_subdomains)
                 (drop_last_n 2 url_domain_parts)
      then Doc
      else External
    else
      let path := lower (path parsed_url) in
      if Utils.matches_any path DOC_PATTERNS then Doc
      else if under_base_path self url then Doc
      else if Utils.matches_any path AUX_PATTERNS then Aux
      else if doc_like_suffix path then Doc
      else Aux.

End Classifier.

(** ** [crawler.py]: downloading one URL *)

(** The four per-category link lists [extract_links] returns. *)
Record Links := mkLinks {
  l_doc : list string;
  l_aux : list string;
  l_external : list string;
  l_asset : list string
}.

Module Fetch.
Import PyStr.

Record Response := mkResponse {
  status_code : Z;
  text : string
}.

(** The exceptions the download path distinguishes; each carries its
    [str(e)]. *)
Inductive Exc :=
| HTTPError (msg : string) (response : option Response)
| RequestException (msg : string)
| OtherException (msg : string).

Definition exc_str (e : Exc) : string :=
  match e with
  | HTTPError m _ | RequestException m | OtherException m => m
  end.

(** A [requests.exceptions.RequestException] (which [HTTPError] is). *)
Definition is_request_exception (e : Exc) : bool :=
  match e with
  | OtherException _ => false
  | _ => true
  end.

(** What a download hands to the crawl loop: the returned pair, the
    entry it wrote to [failed_urls] (if any), and how many times
    [session.get] was called. *)
Record Download := mkDownload {
  dl_html : option string;
  dl_links : option Links;
  dl_failed : option string;
  dl_requests : nat
}.

Section Downloader.
(** [self.retries] *)
Variable retries : Z.

(** [self.session.get(url, ...)] on the attempt with the given
    index: a response, or the exception it raised. *)
Variable session_get : string -> nat -> Response + Exc.

(** The text of the [HTTPError] of [raise_for_status]. *)
Variable http_error_msg : string -> Response -> string.

(** [bool(response)], as the HTTP library defines it. *)
Variable response_bool : Response -> bool.

(** [response.raise_for_status()] raises for 4xx and 5xx. *)
Definition raises_for_status (r : Response) : bool :=
  (400 <=? status_code r) && (status_code r <? 600).

Definition failed_after_msg (url : string) : string :=
  "Failed to download " ++ url ++ " after " ++ pretty retries ++ " attempts".

(** The [for attempt in range(self.retries)] loop, over the attempt
    indices still to run.  The result is the number of calls of
    [session.get] and what the method returns or raises. *)
Fixpoint attempt_loop (url : string) (attempts : list nat)
  : nat * (Response + Exc) :=
  match attempts with
  | [] => (0%nat, inr (RequestException (failed_after_msg url)))
  | attempt :: rest =>
      let again := let '(n, r) := attempt_loop url rest in (S n, r) in
      let caught (e : Exc) :=
        if Z.of_nat attempt =? retries - 1 then (1%nat, inr e) else again in
      match session_get url attempt with
      | inl response =>
          if status_code response =? 429 then again
          else if raises_for_status response
               then caught (HTTPError (http_error_msg url response)
                                      (Some response))
               else (1%nat, inl response)
      | inr e =>
          if is_request_exception e then caught e else (1%nat, inr e)
      end
  end.

Definition _download_with_retries (url : string) : nat * (Response + Exc) :=
  attempt_loop url (seq 0 (Z.to_nat retries)).

(** [self.stop_event.is_set()] at the three checks of
    [download_url]. *)
Variable stop_check : string -> nat -> bool.

(** [self.browser_mode and SELENIUM_AVAILABLE], and
    [_download_with_browser]. *)
Variable browser_mode : bool.
Variable _download_with_browser : string -> option string * option Links.

Variable content_ok : string -> bool.

(** [BeautifulSoup(html, ...)] followed by [extract_links]; [None]
    when both parsers raise. *)
Variable parse_and_extract : string -> string -> option Links.

Definition nothing (n : nat) : Download := mkDownload None None None n.

(** The two [except] clauses of [download_url]. *)
Definition failure_text (e : Exc) : string :=
  match e with
  | HTTPError m response =>
      if match response with
         | Some r => response_bool r && (status_code r =? 404)
         | None => false
         end
      then "404 Not Found"
      else "HTTP Error: " ++ m
  | _ => exc_str e
  end.

Definition download_regular (url : string) : Download :=
  match _download_with_retries url with
  | (n, inr e) => mkDownload None None (Some (failure_text e)) n
  | (n, inl response) =>
      let html_content := text response in
      if stop_check url 1 then nothing n
      else if negb (content_ok html_content) then nothing n
      else match parse_and_extract html_content url with
           | None => mkDownload (Some html_content) None None n
           | Some links =>
               if stop_check url 2 then nothing n
               else mkDownload (Some html_content) (Some links) None n
           end
  end.

Definition download_url (url : string) : Download :=
  if stop_check url 0 then nothing 0
  else if browser_mode then
    match _download_with_browser url with
    | (Some html_content, links) => mkDownload (Some html_content) links None 0
    | (None, _) => download_regular url
    end
  else download_regular url.

End Downloader.

(** Every request for [url] is answered with status 404. *)
Definition answers_404 (session_get : string -> nat -> Response + Exc)
           (url : string) : Prop :=
  forall attempt, exists body,
    session_get url attempt = inl (mkResponse 404 body).
End Fetch.

(** ** [crawler.py]: [Crawler.crawl] *)

(** A frontier entry [(url, depth)]. *)
Definition Entry : Type := string * Z.

(** [any(item[0] == link for item in queue)] *)
Definition in_queue (link : string) (queue : list Entry) : bool :=
  existsb (fun item => String.eqb (fst item) link) queue.

(** [for _ in range(min(n, len(queue))): batch.append(queue.popleft())]:
    the batch and what stays in the queue. *)
Definition take_batch (n : Z) (queue : list Entry) : list Entry * list Entry :=
  let k := Z.to_nat (Z.min n (Z.of_nat (List.length queue))) in
  (firstn k queue, skipn k queue).

(** [max_pages is None or pages_downloaded < max_pages] *)
Definition under_cap (max_pages : option Z) (pages_downloaded : Z) : bool :=
  match max_pages with
  | None => true
  | Some n => pages_downloaded <? n
  end.

Module Crawler.
Import Fetch.

(** The constructor arguments [crawl] uses; [base_url] is stored with
    its trailing slashes removed. *)
Record Config := mkConfig {
  base_url : string;
  max_depth : Z;
  max_pages : option Z;
  concurrent_requests : Z
}.

(** The instance fields [crawl] reads and writes. *)
Record State := mkState {
  visited : gset string;
  queued : gset string;
  pages_downloaded : Z;
  failed_urls : gmap string string;
  doc_links : gset string;
  aux_links : gset string;
  external_links : gset string;
  asset_links : gset string
}.

(** The fields together with the local variables of [crawl].
    [batches] counts the iterations of the [while] loop so far and
    [fetched] lists every entry handed to [download_url], in the
    order of submission; neither exists in the program, they index
    the outside world and record the run. *)
Record Loop := mkLoop {
  self : State;
  doc_queue : list Entry;
  stopping : bool;
  batches : nat;
  fetched : list Entry
}.

Definition with_self (s : State) (lp : Loop) : Loop :=
  mkLoop s (doc_queue lp) (stopping lp) (batches lp) (fetched lp).

(** The "Reset counters" block of [crawl]: the counter is set to 0
    and [clear()] is called on each of the seven collections. *)
Definition reset (s : State) : State :=
  mkState ∅ ∅ 0 ∅ ∅ ∅ ∅ ∅.

Definition add_queued (url : string) (s : State) : State :=
  mkState (visited s) ({[url]} ∪ queued s) (pages_downloaded s)
          (failed_urls s) (doc_links s) (aux_links s) (external_links s)
          (asset_links s).

Definition add_visited (url : string) (s : State) : State :=
  mkState ({[url]} ∪ visited s) (queued s) (pages_downloaded s)
          (failed_urls s) (doc_links s) (aux_links s) (external_links s)
          (asset_links s).

Definition count_page (s : State) : State :=
  mkState (visited s) (queued s) (pages_downloaded s + 1)
          (failed_urls s) (doc_links s) (aux_links s) (external_links s)
          (asset_links s).

(** The write to [failed_urls] made inside [download_url]. *)
Definition record_failure (url : string) (d : Download) (s : State) : State :=
  match dl_failed d with
  | Some msg =>
      mkState (visited s) (queued s) (pages_downloaded s)
              (<[url := msg]> (failed_urls s)) (doc_links s) (aux_links s)
              (external_links s) (asset_links s)
  | None => s
  end.

(** "Update categorized link sets". *)
Definition update_categories (links : Links) (s : State) : State :=
  mkState (visited s) (queued s) (pages_downloaded s) (failed_urls s)
          (doc_links s ∪ list_to_set (l_doc links))
          (aux_links s ∪ list_to_set (l_aux links))
          (external_links s ∪ list_to_set (l_external links))
          (asset_links s ∪ list_to_set (l_asset links)).

(** How an evaluation of the loop test ends: the body ran and the
    loop goes on, or the loop has ended. *)
Inductive Step := Next (lp : Loop) | Exit (lp : Loop).

Definition loop_of (s : Step) : Loop :=
  match s with Next lp | Exit lp => lp end.

Section Crawl.
Variable cfg : Config.

(** The call of [self.download_url] submitted as the [k]-th of the
    run. *)
Variable download : nat -> string -> Download.

(** [self.stop_event.is_set()] at the top of the [i]-th iteration
    ([false] throughout when there is no stop event). *)
Variable stop_event : nat -> bool.

(** The order in which [as_completed] yields the futures of the
    [i]-th batch. *)
Variable as_completed :
  nat -> list (Entry * Download) -> list (Entry * Download).

(** Whether [callback] and [self.progress_callback] raise on a
    page ([false] when the callback is absent). *)
Variable callback_raises : string -> bool.
Variable progress_raises : string -> bool.

(** The entry of [crawl] up to the first loop test. *)
Definition start (s : State) : Loop :=
  mkLoop (add_queued (base_url cfg) (reset s))
         [(base_url cfg, 0)] false 0 [].

(** One [doc_link] of the "Add new documentation links" loop. *)
Definition enqueue_doc_link (depth : Z) (lp : Loop) (doc_link : string)
  : Loop :=
  if bool_decide (doc_link ∈ visited (self lp))
     || bool_decide (doc_link ∈ queued (self lp))
     || in_queue doc_link (doc_queue lp)
  then lp
  else mkLoop (add_queued doc_link (self lp))
              (doc_queue lp ++ [(doc_link, depth + 1)])
              (stopping lp) (batches lp) (fetched lp).

(** [if depth < self.max_depth: for doc_link in links.get('doc', [])] *)
Definition enqueue_doc_links (depth : Z) (links : list string) (lp : Loop)
  : Loop :=
  if depth <? max_depth cfg
  then fold_left (enqueue_doc_link depth) links lp
  else lp.

(** The body of [for future in concurrent.futures.as_completed].  The
    entry [download_url] wrote to [failed_urls] in its worker thread is
    placed at the moment the future is taken up. *)
Definition process (lp : Loop) (job : Entry * Download) : Loop :=
  let '((url, depth), d) := job in
  let lp := with_self (add_visited url (record_failure url d (self lp))) lp in
  match dl_html d, dl_links d with
  | Some html_content, Some links =>
      if UrlLib.nonempty html_content then
        if callback_raises url then lp
        else
          let lp := with_self (count_page (self lp)) lp in
          if progress_raises url then lp
          else
            let lp := with_self (update_categories links (self lp)) lp in
            enqueue_doc_links depth (l_doc links) lp
      else lp
  | _, _ => lp
  end.

(** The downloads of a batch, numbered on from [k]. *)
Fixpoint submit (k : nat) (batch : list Entry) : list (Entry * Download) :=
  match batch with
  | [] => []
  | e :: batch' => (e, download k (fst e)) :: submit (S k) batch'
  end.

(** One evaluation of the [while] test and, when it holds, of the
    loop body. *)
Definition iteration (lp : Loop) : Step :=
  if negb (Nat.eqb (List.length (doc_queue lp)) 0)
     && under_cap (max_pages cfg) (pages_downloaded (self lp))
     && negb (stopping lp)
  then
    if stop_event (batches lp)
    then Exit (mkLoop (self lp) (doc_queue lp) true (batches lp) (fetched lp))
    else
      let '(batch, rest) := take_batch (concurrent_requests cfg) (doc_queue lp) in
      match batch with
      | [] => Exit lp
      | _ :: _ =>
          let jobs := submit (List.length (fetched lp)) batch in
          let completed := as_completed (batches lp) jobs in
          Next (fold_left process completed
                  (mkLoop (self lp) rest (stopping lp) (S (batches lp))
                          (fetched lp ++ batch)))
      end
  else Exit lp.

(** The [while] loop, cut off after [fuel] iterations; the flag
    tells whether the loop has ended. *)
Fixpoint while_loop (fuel : nat) (lp : Loop) : Loop * bool :=
  match fuel with
  | O => (lp, false)
  | S fuel' =>
      match iteration lp with
      | Exit lp' => (lp', true)
      | Next lp' => while_loop fuel' lp'
      end
  end.

(** [crawl]: the second phase changes no field ([process_aux] is
    [False]), so the result is the state the loop leaves. *)
Definition crawl (fuel : nat) (s : State) : Loop * bool :=
  while_loop fuel (start s).

End Crawl.
End Crawler.

(** ** [scraper.py]: [DocumentationScraper] *)

Module Scraper.
Import PyStr UrlLib.

Definition content_params : list string := ["lang"; "version"; "v"; "platform"].

(** The value of [parsed] when [_normalize_url] reaches
    [parsed.geturl()]; [full_url] is [urljoin(base_url, url)]. *)
Definition normalize_parts (full_url : string) : ParseResult :=
  let parsed := urlparse full_url in
  let query_params := parse_qs (query parsed) in
  let filtered_params :=
    List.filter (fun kv => mem (lower (fst kv)) content_params) query_params in
  let parsed :=
    match filtered_params with
    | _ :: _ =>
        mkParseResult (scheme parsed) (netloc parsed) (path parsed)
                      (params parsed) (urlencode filtered_params)
                      (fragment parsed)
    | [] =>
        mkParseResult (scheme parsed) (netloc parsed) (path parsed)
                      (params parsed) EmptyString (fragment parsed)
    end in
  mkParseResult (scheme parsed) (netloc parsed) (path parsed)
                (params parsed) (query parsed) EmptyString.

Definition normalize_joined (full_url : string) : string :=
  geturl (normalize_parts full_url).


Definition skip_urls : list string :=
  ["https://ai.google.dev/gemini-api/docs/gemini-api/docs/models";
   "https://ai.google.dev/gemini-api/docs/experimental-models"].

Definition doc_prefixes : list string :=
  ["docs"; "guide"; "documentation"; "help"; "reference"; "api";
   "get-started"; "guides"].

Definition exclusion_patterns : list string :=
  ["/auth/"; "/login/"; "/logout/"; "/signup/";
   "/admin/"; "/account/"; "/billing/"; "/pricing/"].

(** The instance fields [crawl] reads and writes. *)
Record State := mkState {
  visited : gset string;
  queued : gset string;
  pages_downloaded : Z;
  assets_downloaded : Z;
  failed_urls : gmap string string
}.

(** What [download_page] gives back through [future.result()]: a
    triple of title, content and links (the triple of empty values
    included), the triple of [None] it returns on a 404, or the
    exception it re-raises. *)
Inductive PageResult :=
| Page (title html_content : string) (links : list string)
| NotFound
| Raised.

(** A finished [download_page]: its result, the asset URLs
    [extract_assets] added to [self.queued], and the number of assets
    [download_assets] saved. *)
Record PageDownload := mkPageDownload {
  pd_result : PageResult;
  pd_assets : list string;
  pd_saved : Z
}.

(** The local variable [links] of [crawl]: not yet assigned, [None],
    or a list. *)
Inductive LinksVar := Unbound | BoundNone | Bound (links : list string).

(** The fields and the local variables of [crawl]; [clock] counts the
    calls of [stop_event.is_set()] and [fetched] lists the entries
    handed to [download_page] (both only record the run). *)
Record Loop := mkLoop {
  self : State;
  queue : list Entry;
  stopping : bool;
  links_var : LinksVar;
  clock : nat;
  fetched : list Entry
}.

Definition with_self (s : State) (lp : Loop) : Loop :=
  mkLoop s (queue lp) (stopping lp) (links_var lp) (clock lp) (fetched lp).

Definition with_links (v : LinksVar) (lp : Loop) : Loop :=
  mkLoop (self lp) (queue lp) (stopping lp) v (clock lp) (fetched lp).

Definition tick (lp : Loop) : Loop :=
  mkLoop (self lp) (queue lp) (stopping lp) (links_var lp) (S (clock lp))
         (fetched lp).

(** [stopping = True; queue.clear()] *)
Definition halt (lp : Loop) : Loop :=
  mkLoop (self lp) [] true (links_var lp) (clock lp) (fetched lp).

Definition add_visited (url : string) (s : State) : State :=
  mkState ({[url]} ∪ visited s) (queued s) (pages_downloaded s)
          (assets_downloaded s) (failed_urls s).

Definition add_queued (urls : list string) (s : State) : State :=
  mkState (visited s) (queued s ∪ list_to_set urls) (pages_downloaded s)
          (assets_downloaded s) (failed_urls s).

Definition count_page (s : State) : State :=
  mkState (visited s) (queued s) (pages_downloaded s + 1)
          (assets_downloaded s) (failed_urls s).

(** What the worker thread of a download did to the fields. *)
Definition worker_effects (d : PageDownload) (s : State) : State :=
  mkState (visited s) (queued s ∪ list_to_set (pd_assets d))
          (pages_downloaded s) (assets_downloaded s + pd_saved d)
          (failed_urls s).

(** "Reset counters for this crawl session": the two counters,
    [visited] and [failed_urls]. *)
Definition reset (s : State) : State :=
  mkState ∅ (queued s) 0 0 ∅.

(** How a step of [crawl] ends: the loop goes on, the loop has ended,
    or an exception leaves [crawl]. *)
Inductive Step := Next (lp : Loop) | Exit (lp : Loop) | Crash (lp : Loop).

Definition loop_of (s : Step) : Loop :=
  match s with Next lp | Exit lp | Crash lp => lp end.

(** The loop has ended and [crawl] returns. *)
Definition returned (s : Step) : bool :=
  match s with Exit _ => true | _ => false end.

Section Crawl.
Variable Pattern : Type.
Variable search : Pattern -> string -> bool.

(** Constructor arguments; [base_url] is stored without trailing
    slashes. *)
Variable base_url : string.
Variable include_assets : bool.
Variable max_depth : Z.
Variable max_pages : option Z.
Variable concurrent_requests : Z.
Variable url_include_regex url_exclude_regex : list Pattern.

Definition is_valid_doc_url (url : string) : bool :=
  if negb (nonempty url) then false
  else
    let parsed := urlparse url in
    if negb (nonempty (scheme parsed)) && negb (nonempty (netloc parsed))
    then false
    else
      let base_domain := netloc (urlparse base_url) in
      let url_domain := netloc parsed in
      let base_path := strip "/" (path (urlparse base_url)) in
      let url_path := strip "/" (path parsed) in
      let base_path_parts :=
        if nonempty base_path then split "/" base_path else [] in
      let url_path_parts :=
        if nonempty url_path then split "/" url_path else [] in
      let domain_match :=
        String.eqb url_domain base_domain
        || (endswith url_domain ("." ++ base_domain) && contains url_domain "docs")
        || (endswith base_domain ("." ++ url_domain) && contains base_domain "docs") in
      if negb domain_match then false
      else if negb include_assets && Utils.is_asset_url url then false
      else if
        match base_path_parts with
        | b0 :: _ =>
            String.eqb url_domain base_domain &&
            negb
              (match url_path_parts with
               | u0 :: _ => String.eqb u0 b0 || mem (lower u0) doc_prefixes
               | [] => false
               end
               || existsb (fun prefix =>
                             contains (lower url) ("/" ++ prefix ++ "/"))
                          doc_prefixes)
        | [] => false
        end
      then false
      else if existsb (fun pattern => contains (lower url) pattern)
                      exclusion_patterns
      then false
      else if negb (_matches_url_filters Pattern search url_include_regex
                                         url_exclude_regex url)
      then false
      else if mem url skip_urls then false
      else true.

(** The call of [self.download_page] submitted as the [k]-th. *)
Variable download : nat -> string -> PageDownload.

(** [stop_event.is_set()] at its [n]-th call in [crawl] ([false]
    throughout when there is no stop event). *)
Variable stop_event : nat -> bool.

(** The order in which [as_completed] yields the futures of a
    batch; the index is the number of downloads submitted before
    it. *)
Variable as_completed :
  nat -> list (Entry * PageDownload) -> list (Entry * PageDownload).

(** [self.save_content(url, title, html_content)] *)
Variable save_content : string -> string -> string -> bool.

(** [crawl] up to the first loop test.  [start_urls] is the
    argument, [[]] standing for [None] as well. *)
Definition start (s : State) (start_urls : list string) : Loop :=
  let initial_urls :=
    match start_urls with [] => [base_url] | _ :: _ => start_urls end in
  let valid_initial_urls := List.filter is_valid_doc_url initial_urls in
  mkLoop (reset (add_queued valid_initial_urls s))
         (map (fun url => (url, 0)) valid_initial_urls)
         false Unbound 0 [].

(** One [link] of the [for link in links] loop. *)
Definition enqueue_link (depth : Z) (lp : Loop) (link : string) : Loop :=
  if negb (bool_decide (link ∈ visited (self lp)))
     && negb (bool_decide (link ∈ queued (self lp)))
     && is_valid_doc_url link
     && negb (in_queue link (queue lp))
  then mkLoop (add_queued [link] (self lp))
              (queue lp ++ [(link, depth + 1)])
              (stopping lp) (links_var lp) (clock lp) (fetched lp)
  else lp.

(** [if depth < self.max_depth and not stopping: for link in links];
    [stopping] is [False] wherever this line is reached.  Iterating
    over [links] raises when it is [None] or unassigned. *)
Definition enqueue_links (depth : Z) (lp : Loop) : Step :=
  if depth <? max_depth then
    match links_var lp with
    | Bound links => Next (fold_left (enqueue_link depth) links lp)
    | BoundNone | Unbound => Crash lp
    end
  else Next lp.

(** The body of [for future in as_completed(future_to_url)] for one
    future.  What the worker thread wrote to the fields is placed at
    the moment its future is taken up.  [Exit] is the [break] on the
    stop event, [Crash] the [TypeError] or [UnboundLocalError] of
    [for link in links] when [links] is [None] or was never
    assigned. *)
Definition process (lp : Loop) (job : Entry * PageDownload) : Step :=
  let '((url, depth), d) := job in
  let lp := with_self (worker_effects d (self lp)) lp in
  if stop_event (clock lp) then Exit (halt (tick lp))
  else
    let lp := tick lp in
    let lp := with_self (add_visited url (self lp)) lp in
    let lp :=
      match pd_result d with
      | Page title html_content links =>
          let lp := with_links (Bound links) lp in
          if nonempty title && nonempty html_content
             && save_content url title html_content
          then with_self (count_page (self lp)) lp
          else lp
      | NotFound => with_links BoundNone lp
      | Raised => lp
      end in
    enqueue_links depth lp.

(** The futures not reached by the [for] loop still run to their
    end when the executor shuts down. *)
Definition drain (jobs : list (Entry * PageDownload)) (lp : Loop) : Loop :=
  fold_left (fun lp job => with_self (worker_effects (snd job) (self lp)) lp)
            jobs lp.

Fixpoint process_all (lp : Loop) (jobs : list (Entry * PageDownload)) : Step :=
  match jobs with
  | [] => Next lp
  | job :: jobs' =>
      match process lp job with
      | Next lp' => process_all lp' jobs'
      | Exit lp' => Exit (drain jobs' lp')
      | Crash lp' => Crash (drain jobs' lp')
      end
  end.

Fixpoint submit (k : nat) (batch : list Entry)
  : list (Entry * PageDownload) :=
  match batch with
  | [] => []
  | e :: batch' => (e, download k (fst e)) :: submit (S k) batch'
  end.

(** One evaluation of the [while] test and, when it holds, of the
    loop body.  The notification of auxiliary links in interactive
    mode and the delay between batches touch none of the fields and
    are left out. *)
Definition iteration (lp : Loop) : Step :=
  if negb (Nat.eqb (List.length (queue lp)) 0)
     && under_cap max_pages (pages_downloaded (self lp))
     && negb (stopping lp)
  then
    if stop_event (clock lp) then Exit (halt (tick lp))
    else
      let lp := tick lp in
      let '(batch, rest) := take_batch concurrent_requests (queue lp) in
      match batch with
      | [] => Exit lp
      | _ :: _ =>
          let k := List.length (fetched lp) in
          let completed := as_completed k (submit k batch) in
          match process_all
                  (mkLoop (self lp) rest (stopping lp) (links_var lp)
                          (clock lp) (fetched lp ++ batch))
                  completed with
          | Next lp' =>
              if stop_event (clock lp') then Exit (halt (tick lp'))
              else Next (tick lp')
          | Exit lp' =>
              (* "before delay" check, then the loop test fails on
                 [stopping] *)
              Exit (halt (tick lp'))
          | Crash lp' => Crash lp'
          end
      end
  else Exit lp.

Fixpoint while_loop (fuel : nat) (lp : Loop) : Step :=
  match fuel with
  | O => Next lp
  | S fuel' =>
      match iteration lp with
      | Next lp' => while_loop fuel' lp'
      | s => s
      end
  end.

(** [crawl(start_urls)]: [Exit] when the loop has ended, [Crash]
    when an exception left [crawl], [Next] when the fuel ran out
    first. *)
Definition crawl (fuel : nat) (s : State) (start_urls : list string) : Step :=
  while_loop fuel (start s start_urls).

End Crawl.
End Scraper.

(** ** Concrete sites and runs

    Small worlds on which the crawl functions are evaluated below. *)

Module Scenario.
Import Fetch.

Definition root : string := "https://docs.example.com".
Definition intro : string := "https://docs.example.com/docs/intro".

Definition chapters : list string :=
  ["https://docs.example.com/docs/a"; "https://docs.example.com/docs/b";
   "https://docs.example.com/docs/c"; "https://docs.example.com/docs/d";
   "https://docs.example.com/docs/e"].

(** A regular-expression engine for patterns without
    metacharacters: [p.search(s)] finds [p] as a substring. *)
Definition literal_search (pattern text : string) : bool :=
  PyStr.contains text pattern.

(** No stop event; futures complete in the order of submission; no
    callback raises. *)
Definition never {A} (_ : A) : bool := false.
Definition in_order {A} (_ : nat) (jobs : list A) : list A := jobs.

(** A site whose root page links to five chapters, every page being
    served at the first request. *)
Definition six_pages (_ : nat) (url : string) : Download :=
  if String.eqb url root
  then mkDownload (Some "<a href=...>") (Some (mkLinks chapters [] [] [])) None 1
  else mkDownload (Some "<p>text</p>") (Some (mkLinks [] [] [] [])) None 1.

(** [Crawler(root, max_depth=3, max_pages=2, concurrent_requests=5)] *)
Definition capped : Crawler.Config := Crawler.mkConfig root 3 (Some 2) 5.

Definition fresh_crawler : Crawler.State :=
  Crawler.mkState ∅ ∅ 0 ∅ ∅ ∅ ∅ ∅.

Definition capped_run : Crawler.Loop * bool :=
  Crawler.crawl capped six_pages never in_order never never 10 fresh_crawler.

(** A server that answers 404 to every request. *)
Definition always_404 (_ : string) (_ : nat) : Response + Exc :=
  inl (mkResponse 404 "Not Found").

Definition error_text (url : string) (r : Response) : string :=
  pretty (status_code r) ++ " Client Error for url: " ++ url.

(** [download_url] of a crawler with [retries=3], no stop event, no
    browser mode, no content filter. *)
Definition download_404 (url : string) : Download :=
  download_url 3 always_404 error_text
               (fun r => negb (raises_for_status r))
               (fun _ _ => false) false (fun _ => (None, None))
               (fun _ => true) (fun _ _ => Some (mkLinks [] [] [] []))
               url.

(** [save_content] as the program has it: every path through it ends
    in [return False] (its last statements refer to a name,
    [yaml_frontmatter], that is defined nowhere). *)
Definition save_fails (_ _ _ : string) : bool := false.

(** [DocumentationScraper(root, out, max_depth=3,
    concurrent_requests=c)] with no filter patterns, crawling from
    [start_urls]. *)
Definition fresh_scraper : Scraper.State := Scraper.mkState ∅ ∅ 0 0 ∅.

Definition scrape (c : Z) (download : nat -> string -> Scraper.PageDownload)
           (stop_event : nat -> bool) (fuel : nat) (s : Scraper.State)
           (start_urls : list string) : Scraper.Step :=
  Scraper.crawl string literal_search root false 3 None c [] []
                download stop_event in_order save_fails
                fuel s start_urls.

(** Every page is served, without links. *)
Definition leaf_pages (_ : nat) (_ : string) : Scraper.PageDownload :=
  Scraper.mkPageDownload (Scraper.Page "Title" "<p>text</p>" []) [] 0.

Definition twice_seeded : Scraper.Step :=
  scrape 1 leaf_pages never 10 fresh_scraper [intro; intro].

(** The root page links to [intro]. *)
Definition two_pages (_ : nat) (url : string) : Scraper.PageDownload :=
  Scraper.mkPageDownload
    (Scraper.Page "Title" "<p>text</p>"
                  (if String.eqb url root then [intro] else []))
    [] 0.

Definition first_crawl : Scraper.Step :=
  scrape 5 two_pages never 10 fresh_scraper [].

Definition second_crawl : Scraper.Step :=
  scrape 5 two_pages never 10
         (Scraper.self (Scraper.loop_of first_crawl)) [].

(** The stop event is set after the first batch has been submitted and
    before its first future is taken up: the first call of [is_set()]
    answers [False], every later one [True]. *)
Definition stop_in_batch (n : nat) : bool := Nat.leb 1 n.

Definition cancelled : Scraper.Step :=
  scrape 5 leaf_pages stop_in_batch 10 fresh_scraper [].

End Scenario.

(** ** Invariants of the crawl loops *)

(** The URLs of a list of frontier entries. *)
Definition urls (l : list Entry) : list string := map fst l.

Module CrawlerInv.
Import Crawler.

(** Every entry waiting in the queue or already handed to
    [download_url] is within the depth bound, or is as shallow as the
    start URL, which is enqueued at depth 0 whatever [max_depth] is. *)
Definition depth_inv (cfg : Config) (lp : Loop) : Prop :=
  Forall (fun e : Entry => snd e <= Z.max 0 (max_depth cfg)) (doc_queue lp) /\
  Forall (fun e : Entry => snd e <= Z.max 0 (max_depth cfg)) (fetched lp).

(** No URL occurs twice among the entries fetched and the entries
    waiting, and all of them are in [queued]. *)
Definition once_inv (lp : Loop) : Prop :=
  NoDup (urls (fetched lp ++ doc_queue lp)) /\
  forall url, In url (urls (fetched lp ++ doc_queue lp)) ->
              url ∈ queued (self lp).

(** Every URL handed to [download_url] is in [visited]. *)
Definition visited_inv (lp : Loop) : Prop :=
  forall url, In url (urls (fetched lp)) -> url ∈ visited (self lp).

End CrawlerInv.

Module ScraperInv.
Import Scraper.

Definition depth_inv (max_depth : Z) (lp : Loop) : Prop :=
  Forall (fun e : Entry => snd e <= Z.max 0 max_depth) (queue lp) /\
  Forall (fun e : Entry => snd e <= Z.max 0 max_depth) (fetched lp).

(** No URL occurs twice among the entries fetched and the entries
    waiting, and all of them are in [queued]. *)
Definition once_inv (lp : Loop) : Prop :=
  NoDup (urls (fetched lp ++ queue lp)) /\
  forall url, In url (urls (fetched lp ++ queue lp)) ->
              url ∈ queued (self lp).

End ScraperInv.

(** ** The retry loop, attempt by attempt *)

Module Attempt.
Import Fetch.

(** An outcome of [session.get] after which the retry loop goes on to
    the next attempt (when one is left): the answer 429, an answer for
    which [raise_for_status] raises, or a [RequestException]. *)
Definition retried (outcome : Response + Exc) : bool :=
  match outcome with
  | inl response =>
      (status_code response =? 429) || raises_for_status response
  | inr e => is_request_exception e
  end.

(** What the loop raises when [outcome] is that of the last attempt:
    the exception caught by the handler, or, after a 429 (whose
    [continue] leaves the loop), the one of the statement that follows
    the loop. *)
Definition final_error (retries : Z)
           (http_error_msg : string -> Response -> string)
           (url : string) (outcome : Response + Exc) : Exc :=
  match outcome with
  | inl response =>
      if status_code response =? 429
      then RequestException (failed_after_msg retries url)
      else HTTPError (http_error_msg url response) (Some response)
  | inr e => e
  end.

End Attempt.

(** ** [scraper.py]: [download_page] *)

Module PageFetch.
Import PyStr Fetch Scraper.

(** How the browser block of [download_page] ends: with a [return]
    (the triple of empty values included) after the worker queued
    [assets] and saved [saved] of them, or with a [TimeoutException]
    or [WebDriverException], after which the method goes on with a
    regular request. *)
Inductive Browsed :=
| Returned (title html_content : string) (links assets : list string)
           (saved : Z)
| FellBack.

(** What the method reads off the parsed page: the text of the
    [title] tag, if there is one, and the result of [extract_links]. *)
Record Soup := mkSoup {
  title_tag : option string;
  soup_links : list string
}.

Section DownloadPage.
(** [self.max_retries] *)
Variable max_retries : Z.
Variable session_get : string -> nat -> Response + Exc.
Variable http_error_msg : string -> Response -> string.

(** [stop_event.is_set()] at the checks of the regular path, numbered
    from the one at the entry of the method. *)
Variable stop_check : string -> nat -> bool.

Variable browser_mode : bool.
Variable browse : string -> Browsed.

(** [self._matches_content_filters] *)
Variable content_ok : string -> bool.

(** [BeautifulSoup(html_content, ...)], with the second parser tried
    when the first raises; [None] when both raise. *)
Variable parse : string -> string -> option Soup.

Variable include_assets : bool.

(** [extract_assets] followed by [download_assets]: the URLs added to
    [self.queued] and the number of assets saved. *)
Variable fetch_assets : string -> string -> list string * Z.

(** The triple of two empty strings and an empty list. *)
Definition empty_page : PageDownload := mkPageDownload (Page EmptyString EmptyString []) [] 0.

(** The two [except] clauses at the end of the method. *)
Definition on_exception (e : Exc) : PageDownload :=
  match e with
  | HTTPError _ (Some response) =>
      if status_code response =? 404
      then mkPageDownload NotFound [] 0
      else mkPageDownload Raised [] 0
  | HTTPError _ None =>
      (* [e.response.status_code] raises inside the handler *)
      mkPageDownload Raised [] 0
  | _ => empty_page
  end.

Definition download_regular (url : string) : PageDownload :=
  if stop_check url 1 then empty_page
  else
    match _download_with_retries max_retries session_get http_error_msg url with
    | (_, inr e) => on_exception e
    | (_, inl response) =>
        let html_content := text response in
        if stop_check url 2 then empty_page
        else if negb (content_ok html_content) then empty_page
        else
          match parse html_content url with
          | None => empty_page
          | Some soup =>
              if stop_check url 3 then empty_page
              else
                let title :=
                  match title_tag soup with
                  | Some t => t
                  | None => List.last (split "/" url) EmptyString
                  end in
                let links := soup_links soup in
                let '(assets, saved) :=
                  if include_assets && negb (stop_check url 4)
                  then fetch_assets html_content url
                  else ([], 0) in
                mkPageDownload (Page title html_content links) assets saved
          end
    end.

Definition download_page (url : string) : PageDownload :=
  if stop_check url 0 then empty_page
  else
    match (if browser_mode then browse url else FellBack) with
    | Returned title html_content links assets saved =>
        mkPageDownload (Page title html_content links) assets saved
    | FellBack => download_regular url
    end.

End DownloadPage.
End PageFetch.

(** ** [crawler.py]: [extract_links] *)

Module Extractor.
Import PyStr UrlLib Classifier.

(** What the three passes of [extract_links] read off the parsed
    page, in document order: for each element of the first selector
    list the value of the first of its attributes [href], [data-href],
    [data-url], [to] (none when it has none of them); for each
    clickable element of a menu item the value of the first of
    [data-path], [data-target], [href], [to]; for each element of the
    last selector the values of [data-href], [data-url], [data-path],
    [href], [to], in this order, with none for an absent attribute. *)
Record Anchors := mkAnchors {
  link_hrefs : list (option string);
  menu_paths : list (option string);
  data_values : list (option string)
}.

(** The local variables [links] and [seen_urls]. *)
Record Found := mkFound {
  links : Links;
  seen_urls : gset string
}.

(** [if category in links: links[category].append(cleaned_url)] *)
Definition append_to (category : Category) (cleaned_url : string)
           (l : Links) : Links :=
  match category with
  | Doc => mkLinks (l_doc l ++ [cleaned_url]) (l_aux l) (l_external l) (l_asset l)
  | Aux => mkLinks (l_doc l) (l_aux l ++ [cleaned_url]) (l_external l) (l_asset l)
  | External =>
      mkLinks (l_doc l) (l_aux l) (l_external l ++ [cleaned_url]) (l_asset l)
  | Asset => mkLinks (l_doc l) (l_aux l) (l_external l) (l_asset l ++ [cleaned_url])
  | Invalid => l
  end.

(** The four lists of a result, one after the other. *)
Definition all_links (l : Links) : list string :=
  (l_doc l ++ l_aux l ++ l_external l ++ l_asset l)%list.

Section ExtractLinks.
Variable Pattern : Type.
Variable search : Pattern -> string -> bool.
Variable urljoin : string -> string -> string.
Variable self : Site.
Variable url_include_regex url_exclude_regex : list Pattern.

(** [seen_urls.add(cleaned_url)] *)
Definition see (cleaned_url : string) (f : Found) : Found :=
  mkFound (links f) ({[cleaned_url]} ∪ seen_urls f).

(** "Apply URL filtering" and "Categorize the URL", the common end of
    the three loops. *)
Definition file_link (cleaned_url : string) (f : Found) : Found :=
  if negb (_matches_url_filters Pattern search url_include_regex
                                url_exclude_regex cleaned_url)
  then f
  else mkFound (append_to (categorize_url self cleaned_url) cleaned_url
                          (links f))
               (seen_urls f).

(** The test of the first loop that reports a URL as external before
    the filters are applied. *)
Definition foreign (cleaned_url : string) : bool :=
  negb (startswith cleaned_url (domain self)) &&
  (let domain_parts := split "." (netloc (urlparse (domain self))) in
   let url_domain_parts := split "." (netloc (urlparse cleaned_url)) in
   if (2 <=? List.length domain_parts)%nat &&
      (2 <=? List.length url_domain_parts)%nat
   then negb (String.eqb (Utils.main_domain domain_parts)
                         (Utils.main_domain url_domain_parts))
   else true).

(** The body of [for link in link_elements]. *)
Definition add_link (current_url : string) (f : Found)
           (href : option string) : Found :=
  match href with
  | None => f
  | Some href =>
      if negb (nonempty href) then f
      else if startswith_any href Utils.skip_prefixes then f
      else
        let cleaned_url := Utils.clean_url (urljoin current_url href) in
        if bool_decide (cleaned_url ∈ seen_urls f) then f
        else
          let f := see cleaned_url f in
          if foreign cleaned_url
          then mkFound (append_to External cleaned_url (links f)) (seen_urls f)
          else file_link cleaned_url f
  end.

(** The body of the two loops of [_extract_special_doc_links]. *)
Definition add_special_link (current_url : string) (f : Found)
           (path : option string) : Found :=
  match path with
  | None => f
  | Some path =>
      if nonempty path && negb (startswith_any path ["#"; "javascript:"])
      then
        let cleaned_url := Utils.clean_url (urljoin current_url path) in
        if bool_decide (cleaned_url ∈ seen_urls f) then f
        else file_link cleaned_url (see cleaned_url f)
      else f
  end.

Definition _extract_special_doc_links (soup : Anchors) (current_url : string)
           (f : Found) : Found :=
  let f := fold_left (add_special_link current_url) (menu_paths soup) f in
  fold_left (add_special_link current_url) (data_values soup) f.

Definition extract_links (soup : Anchors) (current_url : string) : Links :=
  let f := fold_left (add_link current_url) (link_hrefs soup)
                     (mkFound (mkLinks [] [] [] []) ∅) in
  links (_extract_special_doc_links soup current_url f).

(** A URL is filed under the category [categorize_url] gives it, having
    passed the URL filters, or was reported as external by the first
    loop. *)
Definition filed (category : Category) (url : string) : Prop :=
  (categorize_url self url = category /\
   _matches_url_filters Pattern search url_include_regex url_exclude_regex url
   = true) \/
  (category = External /\ foreign url = true).

Definition sorted_inv (f : Found) : Prop :=
  Forall (filed Doc) (l_doc (links f)) /\
  Forall (filed Aux) (l_aux (links f)) /\
  Forall (filed External) (l_external (links f)) /\
  Forall (filed Asset) (l_asset (links f)).

(** No URL is listed twice, and every listed URL is in [seen_urls]. *)
Definition distinct_inv (f : Found) : Prop :=
  NoDup (all_links (links f)) /\
  forall url, In url (all_links (links f)) -> url ∈ seen_urls f.

End ExtractLinks.
End Extractor.

(** ** [utils.py]: the command-line callback, paths and structure *)

Module Cli.
Import PyStr UrlLib.

(** What the Click callback [validate_url] does with a value: it
    returns [None] or the normalized URL, or raises
    [click.BadParameter]. *)
Inductive Validated :=
| Accepted (url : option string)
| BadParameter (msg : string).

Definition validate_url (value : string) : Validated :=
  if negb (nonempty value) then Accepted None
  else if negb (Utils.is_valid_url value)
  then BadParameter ("Invalid URL format: " ++ value)
  else
    let parsed := urlparse value in
    let normalized :=
      mkParseResult (scheme parsed) (netloc parsed) (rstrip "/" (path parsed))
                    (params parsed) (query parsed) (fragment parsed) in
    Accepted (Some (geturl normalized)).

End Cli.

Module Paths.
Import PyStr UrlLib.

(** [s[n:]] *)
Fixpoint drop (n : nat) (s : string) : string :=
  match n, s with
  | O, _ => s
  | S n', String _ s' => drop n' s'
  | S _, EmptyString => EmptyString
  end.

Definition extract_path_segments (url base_url : string) : list string :=
  let path := path (urlparse url) in
  let base_path := rstrip "/" (UrlLib.path (urlparse base_url)) in
  let path :=
    if nonempty base_path && startswith path base_path
    then drop (String.length base_path) path
    else path in
  let path :=
    List.hd EmptyString (split "#" (List.hd EmptyString (split "?" path))) in
  List.filter nonempty (split "/" (strip "/" path)).

(** The keys of [analysis['depth']]: ['root'] or a number of path
    segments. *)
Inductive DepthKey := Root | Level (n : nat).

#[global] Instance DepthKey_eq_dec : EqDecision DepthKey.
Proof. solve_decision. Defined.

(** A [dict] of counters, in insertion order, and
    [d[k] = d.get(k, 0) + 1]. *)
Fixpoint bump {K} `{EqDecision K} (k : K) (d : list (K * Z)) : list (K * Z) :=
  match d with
  | [] => [(k, 1)]
  | (k', n) :: d' =>
      if bool_decide (k' = k) then (k', n + 1) :: d'
      else (k', n) :: bump k d'
  end.

(** [d.get(k, 0)] *)
Fixpoint count {K} `{EqDecision K} (k : K) (d : list (K * Z)) : Z :=
  match d with
  | [] => 0
  | (k', n) :: d' => if bool_decide (k' = k) then n else count k d'
  end.

(** The sum of the counters of a [dict]. *)
Definition total {K} (d : list (K * Z)) : Z :=
  fold_right Z.add 0 (map snd d).

(** The result of [analyze_documentation_structure];
    [common_patterns] is a list made from a set, whose elements are
    kept here. *)
Record Analysis := mkAnalysis {
  total_urls : Z;
  sections : list (string * Z);
  depth : list (DepthKey * Z);
  common_patterns : gset string
}.

(** The body of the first loop. *)
Definition record_url (a : list (string * Z) * list (DepthKey * Z))
           (url : string) : list (string * Z) * list (DepthKey * Z) :=
  let path := strip "/" (path (urlparse url)) in
  if negb (nonempty path) then (fst a, bump Root (snd a))
  else
    let segments := split "/" path in
    let depth := bump (Level (List.length segments)) (snd a) in
    match segments with
    | section :: _ => (bump section (fst a), depth)
    | [] => (fst a, depth)
    end.

(** The body of the second loop. *)
Definition record_prefix (common_prefixes : gset string) (url : string)
  : gset string :=
  let segments := split "/" (strip "/" (path (urlparse url))) in
  match segments with
  | first :: _ => {[first]} ∪ common_prefixes
  | [] => common_prefixes
  end.

Definition analyze_documentation_structure (urls : list string) : Analysis :=
  let counted := fold_left record_url urls ([], []) in
  mkAnalysis (Z.of_nat (List.length urls)) (fst counted) (snd counted)
             (fold_left record_prefix urls ∅).

(** What the first loop keeps true of its two dictionaries after [n]
    URLs. *)
Definition counted (n : Z) (a : list (string * Z) * list (DepthKey * Z))
  : Prop :=
  total (snd a) = n /\ total (fst a) + count Root (snd a) = n /\
  List.NoDup (map fst (fst a)) /\ List.NoDup (map fst (snd a)).

End Paths.

(** ** The shape of parsed URLs *)

Module UrlShape.
Import PyStr UrlLib.

(** The characters that end the host part of a URL. *)
Definition is_delimiter (c : ascii) : bool :=
  Ascii.eqb c "/" || Ascii.eqb c "?" || Ascii.eqb c "#".

(** The host part and what follows it, as [urlsplit] reads them off
    the text after the scheme. *)
Definition after_scheme (rest : string) : string * string :=
  match rest with
  | String "/" (String "/" r) => splitnetloc r
  | _ => (EmptyString, rest)
  end.

(** A scheme as [urlsplit] returns it: empty, or a letter followed by
    scheme characters, in lower case. *)
Definition scheme_wf (s : string) : bool :=
  all_chars is_scheme_char s && String.eqb (lower s) s &&
  match s with
  | EmptyString => true
  | String c0 _ => is_alpha c0
  end.

(** A host part holds none of [/], [?], [#]. *)
Definition host_wf (h : string) : bool :=
  all_chars (fun c => negb (is_delimiter c)) h.

(** What follows a host part is empty or starts with one of [/], [?],
    [#]. *)
Definition tail_wf (t : string) : bool :=
  match t with
  | EmptyString => true
  | String c _ => is_delimiter c
  end.

End UrlShape.

(** ** More concrete servers and sites *)

Module Cases.
Import Fetch.

(** A server that answers 429 to every request. *)
Definition always_429 (_ : string) (_ : nat) : Response + Exc :=
  inl (mkResponse 429 "Too Many Requests").

(** The first request times out, the second is answered 503, the
    third is served. *)
Definition flaky (_ : string) (attempt : nat) : Response + Exc :=
  match attempt with
  | 0%nat => inr (RequestException "Read timed out.")
  | 1%nat => inl (mkResponse 503 "Service Unavailable")
  | _ => inl (mkResponse 200 "<p>text</p>")
  end.

(** [download_page] of a scraper with [max_retries=3], no stop event,
    no browser mode, no content filter and no assets. *)
Definition page_of (session_get : string -> nat -> Response + Exc)
           (_ : nat) (url : string) : Scraper.PageDownload :=
  PageFetch.download_page 3 session_get Scenario.error_text
    (fun _ _ => false) false (fun _ => PageFetch.FellBack) (fun _ => true)
    (fun _ _ => Some (PageFetch.mkSoup (Some "Title") []))
    false (fun _ _ => ([], 0)) url.

(** The six-page site, as a list of its URLs. *)
Definition six_urls : list string := Scenario.root :: Scenario.chapters.

(** [Crawler(root, max_depth=3, concurrent_requests=2)], no page
    cap. *)
Definition uncapped : Crawler.Config := Crawler.mkConfig Scenario.root 3 None 2.

(** [save_content] succeeding on every page. *)
Definition save_succeeds (_ _ _ : string) : bool := true.



End Cases.

(** ** Further invariants of the crawl loops *)

Module CrawlerLog.
Import Crawler.

(** Every URL fetched or waiting is the start URL or was reported as
    a documentation link by a page taken up before. *)
Definition docs_inv (cfg : Config) (lp : Loop) : Prop :=
  forall url, In url (urls (fetched lp ++ doc_queue lp)) ->
              url = base_url cfg \/ url ∈ doc_links (self lp).

(** [queued] holds exactly the URLs fetched or waiting, [visited] and
    the keys of [failed_urls] only URLs that were fetched. *)
Definition books_inv (lp : Loop) : Prop :=
  queued (self lp) = list_to_set (urls (fetched lp ++ doc_queue lp)) /\
  visited (self lp) ⊆ list_to_set (urls (fetched lp)) /\
  dom (failed_urls (self lp)) ⊆ visited (self lp).

(** Every URL fetched or waiting belongs to [site]. *)
Definition site_inv (site : list string) (lp : Loop) : Prop :=
  forall url, In url (urls (fetched lp ++ doc_queue lp)) -> In url site.

(** Every documentation link a download reports belongs to [site]. *)
Definition links_within (site : list string)
           (download : nat -> string -> Fetch.Download) : Prop :=
  forall k url links,
    Fetch.dl_links (download k url) = Some links ->
    forall link, In link (l_doc links) -> In link site.

End CrawlerLog.

Module ScraperLog.
Import Scraper.

(** Every URL fetched or waiting passed [is_valid_doc_url]. *)
Definition valid_inv (valid : string -> bool) (lp : Loop) : Prop :=
  Forall (fun e : Entry => valid (fst e) = true) (fetched lp ++ queue lp).

(** Every URL fetched or waiting belongs to [site], and so does every
    link of the list [links] is bound to that passes [valid]. *)
Definition site_inv (valid : string -> bool) (site : list string)
           (lp : Loop) : Prop :=
  (forall url, In url (urls (fetched lp ++ queue lp)) -> In url site) /\
  (forall links, links_var lp = Bound links ->
                 forall link, In link links -> valid link = true ->
                              In link site).

(** Every link a download reports that passes [valid] belongs to
    [site]. *)
Definition links_within (valid : string -> bool) (site : list string)
           (download : nat -> string -> PageDownload) : Prop :=
  forall k url title html_content links,
    pd_result (download k url) = Page title html_content links ->
    forall link, In link links -> valid link = true -> In link site.

End ScraperLog.

(** * Properties *)

Open Scope list_scope.

(** ** Filters *)

Section FilterFacts.
Context {Pattern : Type} (search : Pattern -> string -> bool).

Lemma existsb_search_true (l : list Pattern) (text : string) :
  existsb (fun pattern => search pattern text) l = true <->
  exists p, In p l /\ search p text = true.
Proof. apply existsb_exists. Qed.

Lemma matches_filters_true (inc exc : list Pattern) (text : string) :
  matches_filters Pattern search inc exc text = true <->
  (inc = [] \/ exists p, In p inc /\ search p text = true) /\
  (forall p, In p exc -> search p text = false).
Proof.
  unfold matches_filters.
  destruct (existsb (fun pattern => search pattern text) exc) eqn:Hexc.
  - apply existsb_search_true in Hexc as (p & Hp & Hs).
    rewrite Tauto.if_same. split; [discriminate|].
    intros [_ Hall]. rewrite (Hall p Hp) in Hs. discriminate.
  - assert (Hall : forall p, In p exc -> search p text = false).
    { intros p Hp. destruct (search p text) eqn:Hs; [|reflexivity].
      assert (existsb (fun pattern => search pattern text) exc = true)
        by (apply existsb_search_true; eauto).
      congruence. }
    destruct inc as [|p0 inc']; simpl.
    + split; auto.
    + destruct (search p0 text || existsb (fun pattern => search pattern text) inc')
        eqn:Hinc; simpl.
      * split; [|reflexivity]. intros _. split; [right|exact Hall].
        apply (existsb_search_true (p0 :: inc')). exact Hinc.
      * split; [discriminate|]. intros [[Hnil | Hex] _]; [discriminate|].
        apply (existsb_search_true (p0 :: inc')) in Hex.
        simpl in Hex. congruence.
Qed.
End FilterFacts.

(** C9: with at least one include pattern configured, a URL is allowed
    only if it matches one of them; a URL that matches an exclude
    pattern is rejected whatever the include patterns say; with no
    include pattern, the answer depends on the exclude patterns alone.
    ([Crawler._matches_url_filters] and
    [DocumentationScraper._matches_url_filters] are the same
    function.) *)
Theorem url_filter_rules (Pattern : Type) (search : Pattern -> string -> bool)
        (inc exc : list Pattern) (url : string) :
  (inc <> [] ->
   _matches_url_filters Pattern search inc exc url = true ->
   exists p, In p inc /\ search p url = true) /\
  ((exists p, In p exc /\ search p url = true) ->
   _matches_url_filters Pattern search inc exc url = false) /\
  (inc = [] ->
   _matches_url_filters Pattern search inc exc url =
   negb (existsb (fun p => search p url) exc)).
Proof.
  unfold _matches_url_filters. repeat split.
  - intros Hne Hok. apply matches_filters_true in Hok as [[Hnil | Hex] _];
      [contradiction | exact Hex].
  - intros (p & Hp & Hs).
    destruct (matches_filters Pattern search inc exc url) eqn:Hm; [|reflexivity].
    apply matches_filters_true in Hm as [_ Hall].
    rewrite (Hall p Hp) in Hs. discriminate.
  - intros ->. unfold matches_filters. simpl.
    destruct (existsb (fun p => search p url) exc); reflexivity.
Qed.

(** The rules of [url_filter_rules] on a crawler configured with the
    include pattern [/docs/] and the exclude pattern [/private/]. *)
Lemma url_filter_rules_witness :
  (exists p, In p ["/docs/"] /\ Scenario.literal_search p "https://x.com/docs/a" = true) /\
  _matches_url_filters string Scenario.literal_search ["/docs/"] ["/private/"]
                       "https://x.com/docs/private/a" = false /\
  _matches_url_filters string Scenario.literal_search [] ["/private/"]
                       "https://x.com/blog" = true.
Proof.
  split; [|split].
  - apply (proj1 (url_filter_rules string Scenario.literal_search ["/docs/"] ["/private/"]
                                   "https://x.com/docs/a")).
    + discriminate.
    + reflexivity.
  - apply (proj1 (proj2 (url_filter_rules string Scenario.literal_search ["/docs/"]
                                          ["/private/"]
                                          "https://x.com/docs/private/a"))).
    exists "/private/". split; [left; reflexivity | reflexivity].
  - rewrite (proj2 (proj2 (url_filter_rules string Scenario.literal_search []
                                            ["/private/"] "https://x.com/blog")));
      reflexivity.
Defined.

(** ** Normalization *)

(** [normalize_url] answers [None] for the empty string and for the
    four skipped prefixes. *)
Lemma normalize_url_skips (urljoin : string -> string -> string)
      (url base_url : string) :
  PyStr.startswith_any url Utils.skip_prefixes = true ->
  Utils.normalize_url urljoin url base_url = None.
Proof.
  intros H. unfold Utils.normalize_url. rewrite H.
  rewrite orb_true_r. reflexivity.
Qed.

(** A URL that contains [?] goes through [normalize_url] unchanged,
    whatever follows a [#] in it. *)
Lemma normalize_url_with_query (urljoin : string -> string -> string)
      (url base_url : string) :
  UrlLib.nonempty url = true ->
  PyStr.startswith_any url Utils.skip_prefixes = false ->
  PyStr.has_char "?" url = true ->
  Utils.normalize_url urljoin url base_url =
  Some (if UrlLib.nonempty (UrlLib.netloc (UrlLib.urlparse url))
        then url else urljoin base_url url).
Proof.
  intros Hne Hskip Hq. unfold Utils.normalize_url.
  rewrite Hne, Hskip, Hq, andb_false_r. simpl.
  destruct (UrlLib.nonempty (UrlLib.netloc (UrlLib.urlparse url)));
    reflexivity.
Qed.

(** C6: the code keeps the fragment of a URL that has a query string.
    [normalize_url] returns an absolute URL with query and fragment
    unchanged, fragment included, and passes a relative one to
    [urljoin] with its fragment still attached; only without [?] is the
    fragment cut off. *)
Theorem normalize_url_keeps_fragment_after_query
        (urljoin : string -> string -> string) (base_url : string) :
  Utils.normalize_url urljoin "https://x.com/page?x=1#frag" base_url
  = Some "https://x.com/page?x=1#frag" /\
  UrlLib.fragment (UrlLib.urlparse "https://x.com/page?x=1#frag") = "frag" /\
  Utils.normalize_url urljoin "page?x=1#frag" base_url
  = Some (urljoin base_url "page?x=1#frag") /\
  Utils.normalize_url urljoin "https://x.com/page#frag" base_url
  = Some "https://x.com/page".
Proof. repeat split. Qed.

(** *** Query strings *)

Section QueryFacts.
Import PyStr UrlLib.






Lemma partition_app (c : ascii) (a b : string) :
  has_char c a = false ->
  partition c (a ++ String c b)%string = Some (a, b).
Proof.
  induction a as [|d a IH]; simpl.
  - rewrite Ascii.eqb_refl. reflexivity.
  - intros H. apply orb_false_iff in H as [Hd Ha].
    rewrite Hd, (IH Ha). reflexivity.
Qed.




Lemma has_char_app (c : ascii) (a b : string) :
  has_char c (a ++ b)%string = has_char c a || has_char c b.
Proof.
  induction a as [|d a IH]; simpl; [reflexivity|].
  rewrite IH, orb_assoc. reflexivity.
Qed.

Lemma urlencode_pairs (d : qdict) :
  urlencode d = join "&" (map encode_pair (pairs_of d)).
Proof.
  unfold urlencode, pairs_of. f_equal.
  induction d as [|[k vs] d IH]; simpl; [reflexivity|].
  rewrite map_app, map_map, IH. reflexivity.
Qed.











End QueryFacts.




(** ** Classification *)

(** C7, as stated, fails: a same-site page that is no asset, matches no
    documentation marker, no auxiliary marker and no base-path prefix
    is classified as documentation when its path ends in [.html]. *)
Lemma html_page_is_documentation :
  UrlLib.nonempty "https://docs.example.com/page.html" = true /\
  Utils.is_asset_url "https://docs.example.com/page.html" = false /\
  Classifier.off_site (Classifier.site_of Scenario.root)
                      "https://docs.example.com/page.html" = false /\
  Utils.matches_any "/page.html" Classifier.DOC_PATTERNS = false /\
  Utils.matches_any "/page.html" Classifier.AUX_PATTERNS = false /\
  Classifier.under_base_path (Classifier.site_of Scenario.root)
                             "https://docs.example.com/page.html" = false /\
  Classifier.categorize_url (Classifier.site_of Scenario.root)
                            "https://docs.example.com/page.html" = Doc.
Proof. vm_compute. repeat split. Qed.

(** C7, amended: take a URL that is not empty, is no asset and
    matches no documentation marker and no auxiliary marker.
    [Crawler.categorize_url] counts it as same-site when it has no host
    or its host is, character for character, the host of
    [self.domain]; if its path does not continue the base path either,
    the method returns [aux] unless the path ends in [.html], [.htm],
    [.md], [.pdf] or [.txt], in which case it returns [doc].  A URL
    with any other host (a [www.] variant or another letter case
    included) is [doc] or [external], never [aux].  The module-level
    [utils.categorize_url] counts a URL as same-site when
    [is_valid_url] and [is_same_domain] accept it, and returns [doc]
    for it; it returns [invalid] for a URL [is_valid_url] refuses (a
    relative one included) and [external] for another domain. *)
Theorem default_category (self : Classifier.Site) (url base_url : string) :
  UrlLib.nonempty url = true ->
  Utils.is_asset_url url = false ->
  Utils.matches_any (PyStr.lower (UrlLib.path (UrlLib.urlparse url)))
                    Classifier.DOC_PATTERNS = false ->
  Utils.matches_any (PyStr.lower (UrlLib.path (UrlLib.urlparse url)))
                    Classifier.AUX_PATTERNS = false ->
  (Classifier.off_site self url = false ->
   Classifier.under_base_path self url = false ->
   Classifier.categorize_url self url =
   if Classifier.doc_like_suffix (PyStr.lower (UrlLib.path (UrlLib.urlparse url)))
   then Doc else Aux) /\
  (Classifier.off_site self url = true ->
   Classifier.categorize_url self url = Doc \/
   Classifier.categorize_url self url = External) /\
  (Utils.is_valid_url url = true ->
   Utils.is_same_domain url base_url = true ->
   Utils.categorize_url url base_url = Doc) /\
  (Utils.is_valid_url url = false ->
   Utils.categorize_url url base_url = Invalid) /\
  (Utils.is_valid_url url = true ->
   Utils.is_same_domain url base_url = false ->
   Utils.categorize_url url base_url = External).
Proof.
  intros Hne Hasset Hdoc Haux. split; [|split; [|split; [|split]]].
  - intros Hsite Hbase. unfold Classifier.categorize_url.
    rewrite Hne, Hasset, Hsite, Hdoc, Hbase, Haux. reflexivity.
  - intros Hsite. unfold Classifier.categorize_url.
    rewrite Hne, Hasset, Hsite. cbn [negb].
    destruct (_ && _ && _ && _); [left | right]; reflexivity.
  - intros Hvalid Hsame. unfold Utils.categorize_url.
    unfold Classifier.DOC_PATTERNS, Classifier.AUX_PATTERNS in *.
    rewrite Hne, Hvalid, Hasset, Hsame, Hdoc, Haux. reflexivity.
  - intros Hvalid. unfold Utils.categorize_url.
    rewrite Hne, Hvalid. reflexivity.
  - intros Hvalid Hsame. unfold Utils.categorize_url.
    rewrite Hne, Hvalid, Hasset, Hsame. reflexivity.
Qed.

(** [default_category] at [https://docs.example.com/changelog], at
    the same page under the host [www.example.com], and at the
    relative URL [/changelog]. *)
Lemma default_category_witness :
  Classifier.categorize_url (Classifier.site_of Scenario.root)
                            "https://docs.example.com/changelog" = Aux /\
  Utils.categorize_url "https://docs.example.com/changelog" Scenario.root = Doc /\
  Utils.is_same_domain "https://www.example.com/changelog" Scenario.root = true /\
  Classifier.categorize_url (Classifier.site_of Scenario.root)
                            "https://www.example.com/changelog" = External /\
  Classifier.categorize_url (Classifier.site_of Scenario.root) "/changelog"
  = Aux /\
  Utils.categorize_url "/changelog" Scenario.root = Invalid.
Proof.
  destruct (default_category (Classifier.site_of Scenario.root)
                             "https://docs.example.com/changelog" Scenario.root)
    as (Hc & _ & Hu & _); try reflexivity.
  destruct (default_category (Classifier.site_of Scenario.root)
                             "/changelog" Scenario.root)
    as (Hr & _ & _ & Hi & _); try reflexivity.
  split; [rewrite Hc; reflexivity|].
  split; [apply Hu; reflexivity|].
  split; [reflexivity|]. split; [reflexivity|].
  split; [rewrite Hr; reflexivity | apply Hi; reflexivity].
Defined.

(** ** Retries *)

Section RetryFacts.
Import Fetch.
Variable retries : Z.
Variable session_get : string -> nat -> Response + Exc.
Variable http_error_msg : string -> Response -> string.
Variable url : string.

Lemma attempt_loop_404 (n a : nat) :
  answers_404 session_get url ->
  Z.of_nat a + Z.of_nat (S n) = retries ->
  exists m r,
    attempt_loop retries session_get http_error_msg url (seq a (S n))
    = (S n, inr (HTTPError m (Some r))) /\ status_code r = 404.
Proof.
  intros H404. revert a. induction n as [|n IH]; intros a Hsum.
  - simpl. destruct (H404 a) as [body ->]. simpl.
    replace (Z.of_nat a =? retries - 1) with true by (symmetry; lia).
    eauto.
  - change (seq a (S (S n))) with (a :: seq (S a) (S n)).
    cbn [attempt_loop].
    destruct (IH (S a)) as (m & r & -> & Hr); [lia|].
    destruct (H404 a) as [body ->]. simpl.
    replace (Z.of_nat a =? retries - 1) with false by (symmetry; lia).
    eauto.
Qed.

Lemma download_with_retries_404 :
  answers_404 session_get url -> 1 <= retries ->
  exists m r,
    _download_with_retries retries session_get http_error_msg url
    = (Z.to_nat retries, inr (HTTPError m (Some r))) /\ status_code r = 404.
Proof.
  intros H404 Hn. unfold _download_with_retries.
  destruct (Z.to_nat retries) as [|n] eqn:Hr; [lia|].
  apply attempt_loop_404; [exact H404 | lia].
Qed.
End RetryFacts.

(** C3, as stated, fails: with [retries=3] a URL that is always
    answered with 404 is requested three times, not once. *)
Lemma not_found_is_requested_three_times :
  Fetch.answers_404 Scenario.always_404 Scenario.root /\
  Fetch.dl_requests (Scenario.download_404 Scenario.root) = 3%nat.
Proof. split; [intros; eexists; reflexivity | reflexivity]. Qed.

(** C3, amended: a 404 answer is retried like every other request
    error.  When every request for a URL is answered with 404 and
    [retries >= 1], [_download_with_retries] makes exactly [retries]
    requests and then raises the [HTTPError] of the last answer;
    [download_url] (outside browser mode, no stop requested) then
    returns no content and no links and records the URL in
    [failed_urls]. *)
Theorem not_found_is_retried
        (retries : Z) (session_get : string -> nat -> Fetch.Response + Fetch.Exc)
        (http_error_msg : string -> Fetch.Response -> string)
        (response_bool : Fetch.Response -> bool)
        (stop_check : string -> nat -> bool)
        (_download_with_browser : string -> option string * option Links)
        (content_ok : string -> bool)
        (parse_and_extract : string -> string -> option Links)
        (url : string) :
  1 <= retries ->
  Fetch.answers_404 session_get url ->
  stop_check url 0%nat = false ->
  (exists m r,
      Fetch._download_with_retries retries session_get http_error_msg url
      = (Z.to_nat retries, inr (Fetch.HTTPError m (Some r))) /\
      Fetch.status_code r = 404) /\
  let d := Fetch.download_url retries session_get http_error_msg response_bool
                              stop_check false _download_with_browser
                              content_ok parse_and_extract url in
  Fetch.dl_requests d = Z.to_nat retries /\
  Fetch.dl_html d = None /\ Fetch.dl_links d = None /\
  is_Some (Fetch.dl_failed d).
Proof.
  intros Hn H404 Hstop.
  destruct (download_with_retries_404 retries session_get http_error_msg url
                                      H404 Hn) as (m & r & Hdl & Hr).
  split; [eauto|].
  unfold Fetch.download_url, Fetch.download_regular.
  rewrite Hstop, Hdl. simpl. repeat split. eauto.
Qed.

(** [not_found_is_retried] for [retries=3] on the server that answers
    404 to everything. *)
Lemma not_found_is_retried_witness :
  Fetch.dl_requests (Scenario.download_404 Scenario.root) = Z.to_nat 3 /\
  Fetch.dl_html (Scenario.download_404 Scenario.root) = None /\
  Fetch.dl_links (Scenario.download_404 Scenario.root) = None /\
  is_Some (Fetch.dl_failed (Scenario.download_404 Scenario.root)).
Proof.
  apply (not_found_is_retried 3 Scenario.always_404 Scenario.error_text
           (fun r => negb (Fetch.raises_for_status r))
           (fun _ _ => false) (fun _ => (None, None)) (fun _ => true)
           (fun _ _ => Some (mkLinks [] [] [] [])) Scenario.root).
  - lia.
  - intros attempt. eexists. reflexivity.
  - reflexivity.
Defined.

(** ** Runs of the two crawlers on the concrete sites *)

(** C2: the code exceeds the page cap inside a batch.  With
    [max_pages=2] and [concurrent_requests=5], on a site whose root
    links to five chapters, the first batch downloads the root, the
    loop test [1 < 2] lets a second batch of five start, all five are
    counted, and [crawl] returns with [pages_downloaded = 6]. *)
Theorem page_cap_exceeded_within_batch :
  Crawler.max_pages Scenario.capped = Some 2 /\
  Crawler.concurrent_requests Scenario.capped = 5 /\
  snd Scenario.capped_run = true /\
  Crawler.pages_downloaded (Crawler.self (fst Scenario.capped_run)) = 6 /\
  List.length (Crawler.fetched (fst Scenario.capped_run)) = 6%nat.
Proof. vm_compute. repeat split. Qed.

(** C1: the code fetches a URL twice when it is listed twice in
    [start_urls].  The seeding loop of [DocumentationScraper.crawl]
    appends every valid start URL without consulting [visited],
    [queued] or the queue, so with [concurrent_requests=1] the same URL
    is downloaded in the first batch and again in the second. *)
Theorem duplicate_seed_is_fetched_twice :
  Scraper.returned Scenario.twice_seeded = true /\
  Scraper.fetched (Scraper.loop_of Scenario.twice_seeded)
  = [(Scenario.intro, 0); (Scenario.intro, 0)].
Proof. vm_compute. repeat split. Qed.

(** [DocumentationScraper.crawl] carries [queued] over from the state
    it is called on. *)
Lemma scraper_start_keeps_queued
      (Pattern : Type) (search : Pattern -> string -> bool)
      (base_url : string) (include_assets : bool)
      (inc exc : list Pattern) (s : Scraper.State) (start_urls : list string) :
  Scraper.queued s ⊆
  Scraper.queued (Scraper.self (Scraper.start Pattern search base_url
                                              include_assets inc exc s start_urls)).
Proof. unfold Scraper.start. simpl. set_solver. Qed.

(** [Crawler.crawl] starts from the same state whatever the fields
    held before. *)
Lemma crawler_start_is_fresh (cfg : Crawler.Config) (s s' : Crawler.State) :
  Crawler.start cfg s = Crawler.start cfg s'.
Proof. reflexivity. Qed.

(** C8: the code does not reset [queued] in
    [DocumentationScraper.crawl].  A first crawl of a site whose root
    links to an introduction page fetches both pages; a second
    [crawl()] on the same object starts with the introduction page
    still in [queued], so the link to it is not enqueued and only the
    root is fetched. *)
Theorem second_crawl_is_not_fresh :
  map fst (Scraper.fetched (Scraper.loop_of Scenario.first_crawl))
  = [Scenario.root; Scenario.intro] /\
  bool_decide
    (Scenario.intro ∈
     Scraper.queued
       (Scraper.self
          (Scraper.start string Scenario.literal_search Scenario.root false [] []
                         (Scraper.self (Scraper.loop_of Scenario.first_crawl)) [])))
  = true /\
  Scraper.returned Scenario.second_crawl = true /\
  map fst (Scraper.fetched (Scraper.loop_of Scenario.second_crawl))
  = [Scenario.root].
Proof. vm_compute. repeat split. Qed.

(** C10, as stated, fails: when the stop event is observed inside a
    batch, [DocumentationScraper.crawl] leaves the [for] loop before
    [visited.add(url)]; the URL was dispatched and its download has
    completed, yet it is not in [visited] when [crawl] returns. *)
Lemma cancelled_batch_leaves_url_unvisited :
  Scraper.returned Scenario.cancelled = true /\
  Scraper.fetched (Scraper.loop_of Scenario.cancelled) = [(Scenario.root, 0)] /\
  bool_decide
    (Scenario.root ∈ Scraper.visited (Scraper.self (Scraper.loop_of Scenario.cancelled)))
  = false.
Proof. vm_compute. repeat split. Qed.

(** ** Loop invariants *)

Lemma fold_left_invariant {A B : Type} (P : A -> Prop) (f : A -> B -> A) :
  (forall a x, P a -> P (f a x)) ->
  forall l a, P a -> P (fold_left f l a).
Proof.
  intros Hstep l. induction l as [|x l IH]; simpl; auto.
Qed.

Lemma take_batch_split (n : Z) (queue : list Entry) :
  fst (take_batch n queue) ++ snd (take_batch n queue) = queue.
Proof. unfold take_batch. simpl. apply firstn_skipn. Qed.

Lemma take_batch_length (n : Z) (queue : list Entry) :
  fst (take_batch n queue) <> [] ->
  Z.of_nat (List.length (fst (take_batch n queue))) <= n.
Proof.
  unfold take_batch. simpl.
  set (k := Z.to_nat (Z.min n (Z.of_nat (List.length queue)))).
  intros Hne.
  assert (Hk : (List.length (firstn k queue) <= k)%nat) by apply firstn_le_length.
  destruct (firstn k queue) as [|e l]; [congruence|].
  simpl List.length in *. subst k. lia.
Qed.

Section CrawlerFacts.
Import Crawler CrawlerInv.
Variable cfg : Config.
Variable download : nat -> string -> Fetch.Download.
Variable stop_event : nat -> bool.
Variable as_completed :
  nat -> list (Entry * Fetch.Download) -> list (Entry * Fetch.Download).
Variable callback_raises progress_raises : string -> bool.

Local Abbreviation process := (Crawler.process cfg callback_raises progress_raises).
Local Abbreviation iteration :=
  (Crawler.iteration cfg download stop_event as_completed callback_raises
                     progress_raises).
Local Abbreviation while_loop :=
  (Crawler.while_loop cfg download stop_event as_completed callback_raises
                      progress_raises).
Local Abbreviation crawl :=
  (Crawler.crawl cfg download stop_event as_completed callback_raises
                 progress_raises).

Lemma while_loop_invariant (P : Loop -> Prop) :
  (forall lp, P lp -> P (loop_of (iteration lp))) ->
  forall fuel lp, P lp -> P (fst (while_loop fuel lp)).
Proof.
  intros Hstep fuel. induction fuel as [|fuel IH]; intros lp H; simpl.
  - exact H.
  - specialize (Hstep lp H). destruct (iteration lp) as [lp'|lp']; simpl in *.
    + apply IH. exact Hstep.
    + exact Hstep.
Qed.

(** A page is processed by a chain of field updates followed by the
    enqueueing of its documentation links; [P] holds afterwards if it
    survives both. *)
Lemma process_invariant (P : Loop -> Prop) (lp : Loop)
      (job : Entry * Fetch.Download) :
  (forall s lp', doc_queue lp' = doc_queue lp -> fetched lp' = fetched lp ->
                 visited s = {[fst (fst job)]} ∪ visited (self lp) ->
                 queued s = queued (self lp) ->
                 P (with_self s lp')) ->
  (forall depth links lp', P lp' -> P (enqueue_doc_links cfg depth links lp')) ->
  P (process lp job).
Proof.
  intros Hset Henq. destruct job as [[url depth] d]. unfold Crawler.process.
  assert (Hbase : forall s, visited s = {[url]} ∪ visited (self lp) ->
                            queued s = queued (self lp) ->
                            P (with_self s (with_self
                                 (add_visited url (record_failure url d (self lp))) lp))).
  { intros s Hv Hq. apply (Hset s); auto. }
  assert (Hv0 : visited (add_visited url (record_failure url d (self lp)))
                = {[url]} ∪ visited (self lp)).
  { unfold record_failure. destruct (Fetch.dl_failed d); reflexivity. }
  assert (Hq0 : queued (add_visited url (record_failure url d (self lp)))
                = queued (self lp)).
  { unfold record_failure. destruct (Fetch.dl_failed d); reflexivity. }
  assert (H0 : P (with_self (add_visited url (record_failure url d (self lp))) lp)).
  { apply (Hset _ lp); auto. }
  destruct (Fetch.dl_html d) as [html|]; [|exact H0].
  destruct (Fetch.dl_links d) as [links|]; [|exact H0].
  destruct (UrlLib.nonempty html); [|exact H0].
  destruct (callback_raises url); [exact H0|].
  destruct (progress_raises url).
  - apply Hbase; assumption.
  - apply Henq. apply Hbase; assumption.
Qed.

(** *** Depth *)




(** The shape of a loop iteration that runs the body. *)
Lemma iteration_cases (P : Loop -> Prop) (lp : Loop) :
  P lp ->
  P (mkLoop (self lp) (doc_queue lp) true (batches lp) (fetched lp)) ->
  (forall batch rest,
      batch ++ rest = doc_queue lp -> batch <> [] ->
      under_cap (max_pages cfg) (pages_downloaded (self lp)) = true ->
      Z.of_nat (List.length batch) <= concurrent_requests cfg ->
      P (fold_left process
           (as_completed (batches lp) (submit download (List.length (fetched lp)) batch))
           (mkLoop (self lp) rest (stopping lp) (S (batches lp))
                   (fetched lp ++ batch)))) ->
  P (loop_of (iteration lp)).
Proof.
  intros Hsame Hstop Hbody. unfold Crawler.iteration.
  destruct (negb (Nat.eqb _ _)); [|exact Hsame].
  destruct (under_cap _ _) eqn:Hcap; [|exact Hsame].
  destruct (negb (stopping lp)); [|exact Hsame]. simpl andb. cbv iota.
  destruct (stop_event (batches lp)); [exact Hstop|].
  pose proof (take_batch_split (concurrent_requests cfg) (doc_queue lp)) as Hsplit.
  pose proof (take_batch_length (concurrent_requests cfg) (doc_queue lp)) as Hlen.
  destruct (take_batch (concurrent_requests cfg) (doc_queue lp)) as [batch rest].
  simpl in Hsplit, Hlen.
  destruct batch as [|e batch]; [exact Hsame|].
  apply Hbody; [exact Hsplit | discriminate | reflexivity |].
  apply Hlen. discriminate.
Qed.



(** *** At most one fetch per URL *)

Lemma enqueue_doc_link_once (depth : Z) (lp : Loop) (doc_link : string) :
  once_inv lp -> once_inv (enqueue_doc_link depth lp doc_link).
Proof.
  intros [Hnd Hin]. unfold enqueue_doc_link.
  destruct (bool_decide (doc_link ∈ visited (self lp))); [split; assumption|].
  destruct (bool_decide (doc_link ∈ queued (self lp))) eqn:Hq; [split; assumption|].
  destruct (in_queue doc_link (doc_queue lp)); [split; assumption|].
  apply bool_decide_eq_false in Hq. unfold once_inv, urls in *. simpl.
  rewrite app_assoc, map_app. simpl. split.
  - apply NoDup_app. split; [exact Hnd|]. split.
    + intros x Hx Hx'. apply list_elem_of_In in Hx.
      apply list_elem_of_singleton in Hx'. subst x.
      apply Hq, Hin, Hx.
    + apply NoDup_singleton.
  - intros url Hurl. apply in_app_or in Hurl as [Hurl | [<- | []]].
    + apply elem_of_union_r, Hin, Hurl.
    + apply elem_of_union_l, elem_of_singleton. reflexivity.
Qed.

Lemma enqueue_doc_links_once (depth : Z) (links : list string) (lp : Loop) :
  once_inv lp -> once_inv (enqueue_doc_links cfg depth links lp).
Proof.
  intros H. unfold enqueue_doc_links.
  destruct (depth <? max_depth cfg); [|assumption].
  apply fold_left_invariant; [|assumption].
  intros a x. apply enqueue_doc_link_once.
Qed.

Lemma process_once (lp : Loop) (job : Entry * Fetch.Download) :
  once_inv lp -> once_inv (process lp job).
Proof.
  intros [Hnd Hin]. apply process_invariant.
  - intros s lp' Hq' Hf' _ Hqd. unfold once_inv. simpl.
    rewrite Hq', Hf', Hqd. auto.
  - intros. apply enqueue_doc_links_once. assumption.
Qed.

Lemma iteration_once (lp : Loop) :
  once_inv lp -> once_inv (loop_of (iteration lp)).
Proof.
  intros H. apply iteration_cases; [exact H | exact H |].
  intros batch rest Hsplit _ _ _.
  apply fold_left_invariant; [intros a x; apply process_once|].
  unfold once_inv in *. simpl. rewrite <- app_assoc, Hsplit. exact H.
Qed.

Lemma crawl_once (fuel : nat) (s : State) : once_inv (fst (crawl fuel s)).
Proof.
  unfold Crawler.crawl. apply while_loop_invariant; [apply iteration_once|].
  unfold once_inv, urls. simpl. split.
  - apply NoDup_singleton.
  - intros url [<- | []]. set_solver.
Qed.

(** *** Every processed URL is marked visited *)

Lemma enqueue_doc_links_visited (depth : Z) (links : list string) (lp : Loop) :
  visited (self (enqueue_doc_links cfg depth links lp)) = visited (self lp).
Proof.
  unfold enqueue_doc_links. destruct (depth <? max_depth cfg); [|reflexivity].
  apply (fold_left_invariant
           (fun lp' => visited (self lp') = visited (self lp))); [|reflexivity].
  intros a x Ha. unfold enqueue_doc_link.
  destruct (_ || _ || _); [exact Ha | exact Ha].
Qed.

Lemma enqueue_doc_links_fetched (depth : Z) (links : list string) (lp : Loop) :
  fetched (enqueue_doc_links cfg depth links lp) = fetched lp.
Proof.
  unfold enqueue_doc_links. destruct (depth <? max_depth cfg); [|reflexivity].
  apply (fold_left_invariant (fun lp' => fetched lp' = fetched lp)); [|reflexivity].
  intros a x Ha. unfold enqueue_doc_link.
  destruct (_ || _ || _); [exact Ha | exact Ha].
Qed.

Lemma process_visited (lp : Loop) (url : string) (depth : Z)
      (d : Fetch.Download) :
  {[url]} ∪ visited (self lp) ⊆ visited (self (process lp ((url, depth), d))).
Proof.
  apply (process_invariant
           (fun lp' => {[url]} ∪ visited (self lp) ⊆ visited (self lp'))).
  - intros s lp' _ _ Hv _. simpl in *. rewrite Hv. reflexivity.
  - intros depth' links lp' H. rewrite enqueue_doc_links_visited. exact H.
Qed.

Lemma process_fetched (lp : Loop) (job : Entry * Fetch.Download) :
  fetched (process lp job) = fetched lp.
Proof.
  apply (process_invariant (fun lp' => fetched lp' = fetched lp)).
  - intros s lp' _ Hf _ _. exact Hf.
  - intros depth' links lp' H. rewrite enqueue_doc_links_fetched. exact H.
Qed.

Lemma batch_fetched (jobs : list (Entry * Fetch.Download)) (lp : Loop) :
  fetched (fold_left process jobs lp) = fetched lp.
Proof.
  apply (fold_left_invariant (fun lp' => fetched lp' = fetched lp)); [|reflexivity].
  intros a x Ha. rewrite process_fetched. exact Ha.
Qed.

Lemma batch_visited (jobs : list (Entry * Fetch.Download)) (lp : Loop)
      (url : string) :
  url ∈ visited (self lp) \/ In url (urls (map fst jobs)) ->
  url ∈ visited (self (fold_left process jobs lp)).
Proof.
  revert lp. induction jobs as [|[[u depth] d] jobs IH]; intros lp H; simpl.
  - destruct H as [H | []]. exact H.
  - apply IH. pose proof (process_visited lp u depth d) as Hsub.
    destruct H as [H | [<- | H]].
    + left. set_solver.
    + left. set_solver.
    + right. exact H.
Qed.

Lemma submit_entries (k : nat) (batch : list Entry) :
  map fst (submit download k batch) = batch.
Proof.
  revert k. induction batch as [|e batch IH]; intros k; simpl;
    [reflexivity | rewrite IH; reflexivity].
Qed.

Hypothesis as_completed_all :
  forall i jobs, Permutation (as_completed i jobs) jobs.

Lemma iteration_visited (lp : Loop) :
  visited_inv lp -> visited_inv (loop_of (iteration lp)).
Proof.
  intros H. apply iteration_cases; [exact H | exact H |].
  intros batch rest _ _ _ _ url Hurl.
  rewrite batch_fetched in Hurl. simpl in Hurl.
  unfold urls in Hurl. rewrite map_app in Hurl.
  apply batch_visited. apply in_app_or in Hurl as [Hold | Hnew].
  - left. apply H. exact Hold.
  - right. unfold urls.
    eapply Permutation_in;
      [apply Permutation_map, Permutation_map, Permutation_sym,
             as_completed_all|].
    rewrite submit_entries. exact Hnew.
Qed.

Lemma crawl_visited (fuel : nat) (s : State) : visited_inv (fst (crawl fuel s)).
Proof.
  unfold Crawler.crawl. apply while_loop_invariant; [apply iteration_visited|].
  intros url [].
Qed.

(** *** The page cap *)

Lemma enqueue_doc_links_pages (depth : Z) (links : list string) (lp : Loop) :
  pages_downloaded (self (enqueue_doc_links cfg depth links lp))
  = pages_downloaded (self lp).
Proof.
  unfold enqueue_doc_links. destruct (depth <? max_depth cfg); [|reflexivity].
  apply (fold_left_invariant
           (fun lp' => pages_downloaded (self lp') = pages_downloaded (self lp)));
    [|reflexivity].
  intros a x Ha. unfold enqueue_doc_link.
  destruct (_ || _ || _); exact Ha.
Qed.

Lemma process_pages (lp : Loop) (job : Entry * Fetch.Download) :
  pages_downloaded (self (process lp job)) <= pages_downloaded (self lp) + 1.
Proof.
  destruct job as [[url depth] [html links failed requests]].
  unfold Crawler.process, record_failure. simpl.
  destruct html as [html|]; [|destruct failed; simpl; lia].
  destruct links as [links|]; [|destruct failed; simpl; lia].
  destruct (UrlLib.nonempty html); [|destruct failed; simpl; lia].
  destruct (callback_raises url); [destruct failed; simpl; lia|].
  destruct (progress_raises url); [destruct failed; simpl; lia|].
  rewrite enqueue_doc_links_pages. destruct failed; simpl; lia.
Qed.

Lemma batch_pages (jobs : list (Entry * Fetch.Download)) (lp : Loop) :
  pages_downloaded (self (fold_left process jobs lp))
  <= pages_downloaded (self lp) + Z.of_nat (List.length jobs).
Proof.
  revert lp. induction jobs as [|job jobs IH]; intros lp; simpl List.length;
    [simpl; lia|].
  simpl fold_left. specialize (IH (process lp job)).
  pose proof (process_pages lp job). lia.
Qed.

Lemma submit_length (k : nat) (batch : list Entry) :
  List.length (submit download k batch) = List.length batch.
Proof.
  revert k. induction batch as [|e batch IH]; intros k; simpl;
    [reflexivity | rewrite IH; reflexivity].
Qed.

(** The loop ends at the first test that finds the cap reached. *)
Lemma iteration_stops_at_cap (lp : Loop) (n : Z) :
  max_pages cfg = Some n -> n <= pages_downloaded (self lp) ->
  iteration lp = Exit lp.
Proof.
  intros Hn Hp. unfold Crawler.iteration, under_cap. rewrite Hn.
  replace (pages_downloaded (self lp) <? n) with false by (symmetry; lia).
  rewrite andb_false_r. reflexivity.
Qed.

(** What the cap does guarantee: the count stays below
    [max_pages + concurrent_requests - 1]. *)
Lemma iteration_page_bound (lp : Loop) (n : Z) :
  max_pages cfg = Some n ->
  pages_downloaded (self lp) <= Z.max 0 (n + concurrent_requests cfg - 1) ->
  pages_downloaded (self (loop_of (iteration lp)))
  <= Z.max 0 (n + concurrent_requests cfg - 1).
Proof.
  intros Hn Hp.
  apply (iteration_cases
           (fun lp' => pages_downloaded (self lp')
                       <= Z.max 0 (n + concurrent_requests cfg - 1)));
    [exact Hp | exact Hp |].
  intros batch rest _ _ Hcap Hlen.
  match goal with
  | |- pages_downloaded (self (fold_left _ ?jobs ?lp0)) <= _ =>
      pose proof (batch_pages jobs lp0) as Hle
  end.
  rewrite (Permutation_length (as_completed_all _ _)), submit_length in Hle.
  simpl in Hle.
  unfold under_cap in Hcap. rewrite Hn in Hcap. apply Z.ltb_lt in Hcap. lia.
Qed.

Lemma crawl_page_bound (fuel : nat) (s : State) (n : Z) :
  max_pages cfg = Some n ->
  pages_downloaded (self (fst (crawl fuel s)))
  <= Z.max 0 (n + concurrent_requests cfg - 1).
Proof.
  intros Hn. unfold Crawler.crawl.
  apply (while_loop_invariant
           (fun lp => pages_downloaded (self lp)
                      <= Z.max 0 (n + concurrent_requests cfg - 1))).
  - intros lp. apply iteration_page_bound. exact Hn.
  - simpl. lia.
Qed.

(** *** The enqueue guard *)



Lemma enqueue_doc_link_skips_visited (depth : Z) (lp : Loop) (link : string) :
  link ∈ visited (self lp) -> enqueue_doc_link depth lp link = lp.
Proof.
  intros H. unfold enqueue_doc_link.
  rewrite (bool_decide_eq_true_2 _ H). reflexivity.
Qed.

End CrawlerFacts.

Section ScraperFacts.
Import Scraper ScraperInv.
Variable Pattern : Type.
Variable search : Pattern -> string -> bool.
Variable base_url : string.
Variable include_assets : bool.
Variable max_depth : Z.
Variable max_pages : option Z.
Variable concurrent_requests : Z.
Variable url_include_regex url_exclude_regex : list Pattern.
Variable download : nat -> string -> PageDownload.
Variable stop_event : nat -> bool.
Variable as_completed :
  nat -> list (Entry * PageDownload) -> list (Entry * PageDownload).
Variable save_content : string -> string -> string -> bool.

Local Abbreviation is_valid_doc_url :=
  (Scraper.is_valid_doc_url Pattern search base_url include_assets
                            url_include_regex url_exclude_regex).
Local Abbreviation enqueue_link :=
  (Scraper.enqueue_link Pattern search base_url include_assets
                        url_include_regex url_exclude_regex).
Local Abbreviation enqueue_links :=
  (Scraper.enqueue_links Pattern search base_url include_assets max_depth
                         url_include_regex url_exclude_regex).
Local Abbreviation process :=
  (Scraper.process Pattern search base_url include_assets max_depth
                   url_include_regex url_exclude_regex stop_event save_content).
Local Abbreviation process_all :=
  (Scraper.process_all Pattern search base_url include_assets max_depth
                       url_include_regex url_exclude_regex stop_event
                       save_content).
Local Abbreviation iteration :=
  (Scraper.iteration Pattern search base_url include_assets max_depth max_pages
                     concurrent_requests url_include_regex url_exclude_regex
                     download stop_event as_completed save_content).
Local Abbreviation while_loop :=
  (Scraper.while_loop Pattern search base_url include_assets max_depth max_pages
                      concurrent_requests url_include_regex url_exclude_regex
                      download stop_event as_completed save_content).
Local Abbreviation crawl :=
  (Scraper.crawl Pattern search base_url include_assets max_depth max_pages
                 concurrent_requests url_include_regex url_exclude_regex
                 download stop_event as_completed save_content).


(** Updates of the fields and of [links], and a tick of the clock,
    leave the queue and the record of fetched entries alone. *)
Lemma scraper_frame_depth (lp lp' : Loop) :
  queue lp' = queue lp -> fetched lp' = fetched lp ->
  depth_inv max_depth lp -> depth_inv max_depth lp'.
Proof. unfold depth_inv. intros -> ->. auto. Qed.









(** *** At most one fetch per URL, start URLs apart *)

Lemma scraper_enqueue_link_once (depth : Z) (lp : Loop) (link : string) :
  once_inv lp -> once_inv (enqueue_link depth lp link).
Proof.
  intros [Hnd Hin]. unfold Scraper.enqueue_link.
  destruct (bool_decide (link ∈ visited (self lp))); [split; assumption|].
  destruct (bool_decide (link ∈ queued (self lp))) eqn:Hq; [split; assumption|].
  destruct (is_valid_doc_url link); [|split; assumption].
  destruct (in_queue link (queue lp)); [split; assumption|].
  apply bool_decide_eq_false in Hq. unfold once_inv, urls in *. simpl.
  rewrite app_assoc, map_app. simpl. split.
  - apply NoDup_app. split; [exact Hnd|]. split.
    + intros x Hx Hx'. apply list_elem_of_In in Hx.
      apply list_elem_of_singleton in Hx'. subst x.
      apply Hq, Hin, Hx.
    + apply NoDup_singleton.
  - intros url Hurl. apply in_app_or in Hurl as [Hurl | [<- | []]].
    + apply elem_of_union_l, Hin, Hurl.
    + set_solver.
Qed.

Lemma scraper_frame_once (lp lp' : Loop) :
  queue lp' = queue lp -> fetched lp' = fetched lp ->
  queued (self lp) ⊆ queued (self lp') ->
  once_inv lp -> once_inv lp'.
Proof.
  unfold once_inv. intros -> -> Hsub [Hnd Hin]. split; [exact Hnd|].
  intros url Hurl. apply Hsub, Hin, Hurl.
Qed.

Lemma scraper_halt_once (lp : Loop) : once_inv lp -> once_inv (halt lp).
Proof.
  unfold once_inv, urls. simpl. rewrite app_nil_r, !map_app.
  intros [Hnd Hin]. split.
  - apply NoDup_app in Hnd as [Hnd _]. exact Hnd.
  - intros url Hurl. apply Hin, in_or_app. left. exact Hurl.
Qed.

Lemma scraper_enqueue_links_once (depth : Z) (lp : Loop) :
  once_inv lp -> once_inv (loop_of (enqueue_links depth lp)).
Proof.
  intros H. unfold Scraper.enqueue_links.
  destruct (depth <? max_depth); [|exact H].
  destruct (links_var lp) as [| |links]; try exact H.
  simpl. apply fold_left_invariant; [|exact H].
  intros a x. apply scraper_enqueue_link_once.
Qed.

Lemma scraper_process_once (lp : Loop) (job : Entry * PageDownload) :
  once_inv lp -> once_inv (loop_of (process lp job)).
Proof.
  intros H. destruct job as [[url depth] d]. unfold Scraper.process.
  set (lp0 := with_self (worker_effects d (self lp)) lp).
  assert (H0 : once_inv lp0).
  { apply (scraper_frame_once lp); try reflexivity; [|exact H].
    simpl. set_solver. }
  destruct (stop_event (clock lp0)).
  { apply scraper_halt_once. exact H0. }
  apply scraper_enqueue_links_once.
  destruct (pd_result d) as [title html links| |]; try exact H0.
  destruct (_ && _ && _); exact H0.
Qed.

Lemma scraper_drain_once (jobs : list (Entry * PageDownload)) (lp : Loop) :
  once_inv lp -> once_inv (drain jobs lp).
Proof.
  unfold drain. apply fold_left_invariant. intros a x Ha.
  apply (scraper_frame_once a); try reflexivity; [|exact Ha].
  simpl. set_solver.
Qed.

Lemma scraper_process_all_once (jobs : list (Entry * PageDownload)) (lp : Loop) :
  once_inv lp -> once_inv (loop_of (process_all lp jobs)).
Proof.
  revert lp. induction jobs as [|job jobs IH]; intros lp H; simpl; [exact H|].
  pose proof (scraper_process_once lp job H) as Hjob.
  destruct (process lp job) as [lp'|lp'|lp']; simpl in *.
  - apply IH. exact Hjob.
  - apply scraper_drain_once. exact Hjob.
  - apply scraper_drain_once. exact Hjob.
Qed.

Lemma scraper_iteration_once (lp : Loop) :
  once_inv lp -> once_inv (loop_of (iteration lp)).
Proof.
  intros H. unfold Scraper.iteration.
  destruct (_ && _ && _); [|exact H].
  destruct (stop_event (clock lp)).
  { apply scraper_halt_once. exact H. }
  pose proof (take_batch_split concurrent_requests (queue (tick lp))) as Hsplit.
  destruct (take_batch concurrent_requests (queue (tick lp))) as [batch rest].
  simpl in Hsplit.
  assert (Hstart : forall links clk,
             once_inv (mkLoop (self lp) rest (stopping lp) links clk
                              (fetched lp ++ batch))).
  { intros links clk. unfold once_inv in *. simpl.
    rewrite <- app_assoc, Hsplit. exact H. }
  destruct batch as [|e batch]; [exact H|].
  match goal with
  | |- context [process_all ?l ?j] =>
      pose proof (scraper_process_all_once j l (Hstart _ _)) as Hall;
      destruct (process_all l j) as [lp'|lp'|lp']
  end; simpl in Hall |- *.
  - destruct (stop_event (clock lp')); [apply scraper_halt_once|]; exact Hall.
  - apply scraper_halt_once. exact Hall.
  - exact Hall.
Qed.

Lemma scraper_while_loop_once (fuel : nat) (lp : Loop) :
  once_inv lp -> once_inv (loop_of (while_loop fuel lp)).
Proof.
  revert lp. induction fuel as [|fuel IH]; intros lp H; simpl; [exact H|].
  pose proof (scraper_iteration_once lp H) as Hstep.
  destruct (iteration lp) as [lp'|lp'|lp']; simpl in *;
    [apply IH | |]; exact Hstep.
Qed.

(** When no start URL is listed twice, no URL is handed to
    [download_page] twice. *)
Lemma scraper_crawl_once (fuel : nat) (s : State) (start_urls : list string) :
  NoDup start_urls ->
  NoDup (urls (fetched (loop_of (crawl fuel s start_urls)))).
Proof.
  intros Hseeds.
  assert (H : once_inv (loop_of (crawl fuel s start_urls))).
  { unfold Scraper.crawl. apply scraper_while_loop_once.
    unfold Scraper.start, once_inv, urls. simpl.
    rewrite map_map. simpl. rewrite map_id. split.
    - apply NoDup_ListNoDup, List.NoDup_filter, NoDup_ListNoDup.
      destruct start_urls; [apply NoDup_singleton | exact Hseeds].
    - intros url Hurl. apply elem_of_union_r, elem_of_list_to_set,
                         list_elem_of_In, Hurl. }
  destruct H as [Hnd _]. unfold urls in Hnd. rewrite map_app in Hnd.
  apply NoDup_app in Hnd as [Hnd _]. exact Hnd.
Qed.

(** *** The enqueue guard *)



Lemma scraper_enqueue_link_skips_visited (depth : Z) (lp : Loop) (link : string) :
  link ∈ visited (self lp) -> enqueue_link depth lp link = lp.
Proof.
  intros H. unfold Scraper.enqueue_link.
  rewrite (bool_decide_eq_true_2 _ H). reflexivity.
Qed.

(** *** Every processed URL is marked visited *)

Lemma scraper_enqueue_links_visited (depth : Z) (lp : Loop) :
  visited (self (loop_of (enqueue_links depth lp))) = visited (self lp).
Proof.
  unfold Scraper.enqueue_links. destruct (depth <? max_depth); [|reflexivity].
  destruct (links_var lp) as [| |links]; try reflexivity. simpl.
  apply (fold_left_invariant
           (fun lp' => visited (self lp') = visited (self lp))); [|reflexivity].
  intros a x Ha. unfold Scraper.enqueue_link.
  destruct (_ && _ && _ && _); exact Ha.
Qed.

Lemma scraper_process_visited (lp : Loop) (url : string) (depth : Z)
      (d : PageDownload) :
  stop_event (clock lp) = false ->
  url ∈ visited (self (loop_of (process lp ((url, depth), d)))).
Proof.
  intros Hstop. unfold Scraper.process. simpl. rewrite Hstop.
  rewrite scraper_enqueue_links_visited.
  destruct (pd_result d) as [title html links| |]; simpl;
    [destruct (_ && _ && _)|..]; simpl; set_solver.
Qed.

End ScraperFacts.

(** ** Depth bound *)




(** ** Visited marking *)

(** C10, amended: every URL of a batch whose result the loop reaches is
    added to [visited], whatever its download returned.  In
    [Crawler.crawl] that is every URL handed to a download: after each
    iteration all of them are in [visited], and no URL is handed to a
    download twice.  In [DocumentationScraper.crawl] it is every URL
    whose future is taken up while the stop event is not set.  In both,
    link discovery never enqueues a URL that is in [visited]. *)
Theorem processed_urls_are_visited :
  (forall (cfg : Crawler.Config) download stop_event as_completed
          callback_raises progress_raises,
      (forall i jobs, Permutation (as_completed i jobs) jobs) ->
      (forall lp url depth d,
          url ∈ Crawler.visited
                  (Crawler.self
                     (Crawler.process cfg callback_raises progress_raises lp
                                      ((url, depth), d)))) /\
      (forall fuel s url,
          In url (urls (Crawler.fetched
                          (fst (Crawler.crawl cfg download stop_event
                                              as_completed callback_raises
                                              progress_raises fuel s)))) ->
          url ∈ Crawler.visited
                  (Crawler.self
                     (fst (Crawler.crawl cfg download stop_event as_completed
                                         callback_raises progress_raises
                                         fuel s)))) /\
      (forall fuel s,
          NoDup (urls (Crawler.fetched
                         (fst (Crawler.crawl cfg download stop_event
                                             as_completed callback_raises
                                             progress_raises fuel s))))) /\
      (forall depth lp link,
          link ∈ Crawler.visited (Crawler.self lp) ->
          Crawler.enqueue_doc_link depth lp link = lp)) /\
  (forall (Pattern : Type) (search : Pattern -> string -> bool)
          base_url include_assets max_depth inc exc stop_event save_content,
      (forall lp url depth d,
          stop_event (Scraper.clock lp) = false ->
          url ∈ Scraper.visited
                  (Scraper.self
                     (Scraper.loop_of
                        (Scraper.process Pattern search base_url include_assets
                                         max_depth inc exc stop_event
                                         save_content lp ((url, depth), d))))) /\
      (forall depth lp link,
          link ∈ Scraper.visited (Scraper.self lp) ->
          Scraper.enqueue_link Pattern search base_url include_assets inc exc
                               depth lp link = lp)).
Proof.
  split.
  - intros cfg download stop_event as_completed cb pr Hperm. repeat split.
    + intros lp url depth d.
      pose proof (process_visited cfg cb pr lp url depth d). set_solver.
    + intros fuel s url.
      apply (crawl_visited cfg download stop_event as_completed cb pr Hperm).
    + intros fuel s.
      destruct (crawl_once cfg download stop_event as_completed cb pr fuel s)
        as [Hnd _].
      unfold urls in *. rewrite map_app in Hnd.
      apply NoDup_app in Hnd as [Hnd _]. exact Hnd.
    + intros depth lp link. apply enqueue_doc_link_skips_visited.
  - intros Pattern search base_url include_assets max_depth inc exc stop_event
           save_content.
    split.
    + intros lp url depth d. apply scraper_process_visited.
    + intros depth lp link. apply scraper_enqueue_link_skips_visited.
Qed.

(** [processed_urls_are_visited] on the crawl of the six-page site,
    whose futures complete in the order of submission. *)
Lemma processed_urls_are_visited_witness :
  (forall i (jobs : list (Entry * Fetch.Download)),
      Permutation (Scenario.in_order i jobs) jobs) /\
  Scenario.root ∈
    Crawler.visited
      (Crawler.self
         (fst (Crawler.crawl Scenario.capped Scenario.six_pages Scenario.never
                             Scenario.in_order Scenario.never Scenario.never
                             10 Scenario.fresh_crawler))) /\
  NoDup (urls (Crawler.fetched
                 (fst (Crawler.crawl Scenario.capped Scenario.six_pages
                                     Scenario.never Scenario.in_order
                                     Scenario.never Scenario.never
                                     10 Scenario.fresh_crawler)))).
Proof.
  assert (Hperm : forall i (jobs : list (Entry * Fetch.Download)),
             Permutation (Scenario.in_order i jobs) jobs)
    by (intros; apply Permutation_refl).
  destruct (proj1 processed_urls_are_visited Scenario.capped Scenario.six_pages
                  Scenario.never Scenario.in_order Scenario.never Scenario.never
                  Hperm) as (_ & Hvisited & Hnodup & _).
  split; [exact Hperm|]. split.
  - apply (Hvisited 10%nat Scenario.fresh_crawler).
    vm_compute. tauto.
  - exact (Hnodup 10%nat Scenario.fresh_crawler).
Defined.

(** * Further properties of the code *)

(** ** The retry loop *)

Section RetryBounds.
Import Fetch.
Variable retries : Z.
Variable session_get : string -> nat -> Response + Exc.
Variable http_error_msg : string -> Response -> string.

Local Abbreviation attempt_loop :=
  (Fetch.attempt_loop retries session_get http_error_msg).

Lemma attempt_loop_requests (url : string) (attempts : list nat) :
  (fst (attempt_loop url attempts) <= List.length attempts)%nat.
Proof.
  induction attempts as [|a rest IH]; simpl; [lia|].
  destruct (attempt_loop url rest) as [n r]; simpl in IH.
  destruct (session_get url a) as [resp|e].
  - destruct (status_code resp =? 429); simpl; [lia|].
    destruct (raises_for_status resp); simpl; [|lia].
    destruct (Z.of_nat a =? retries - 1); simpl; lia.
  - destruct (is_request_exception e); simpl; [|lia].
    destruct (Z.of_nat a =? retries - 1); simpl; lia.
Qed.

Lemma attempt_loop_first (url : string) (attempts : list nat) :
  attempts <> [] -> (1 <= fst (attempt_loop url attempts))%nat.
Proof.
  destruct attempts as [|a rest]; [congruence|intros _]; simpl.
  destruct (attempt_loop url rest) as [n r].
  destruct (session_get url a) as [resp|e].
  - destruct (status_code resp =? 429); simpl; [lia|].
    destruct (raises_for_status resp); simpl; [|lia].
    destruct (Z.of_nat a =? retries - 1); simpl; lia.
  - destruct (is_request_exception e); simpl; [|lia].
    destruct (Z.of_nat a =? retries - 1); simpl; lia.
Qed.

Lemma attempt_loop_retried (url : string) (k : nat) (r : Response) :
  forall a n,
    (forall i, (a <= i < a + k)%nat ->
               Attempt.retried (session_get url i) = true) ->
    Z.of_nat (a + k) < retries ->
    session_get url (a + k)%nat = inl r ->
    Attempt.retried (inl r) = false ->
    (k < n)%nat ->
    attempt_loop url (seq a n) = (S k, inl r).
Proof.
  induction k as [|k IH]; intros a n Hre Hlt Hget Hok Hn.
  - destruct n as [|n]; [lia|]. simpl.
    replace (a + 0)%nat with a in Hget by lia. rewrite Hget.
    simpl in Hok. apply orb_false_iff in Hok as [-> ->]. reflexivity.
  - destruct n as [|n]; [lia|]. simpl.
    assert (Hrest : attempt_loop url (seq (S a) n) = (S k, inl r)).
    { apply IH.
      - intros i Hi. apply Hre. lia.
      - replace (S a + k)%nat with (a + S k)%nat by lia. exact Hlt.
      - replace (S a + k)%nat with (a + S k)%nat by lia. exact Hget.
      - exact Hok.
      - lia. }
    rewrite Hrest.
    assert (Hlast : (Z.of_nat a =? retries - 1) = false)
      by (apply Z.eqb_neq; lia).
    specialize (Hre a ltac:(lia)).
    destruct (session_get url a) as [resp|e]; simpl in Hre.
    + destruct (status_code resp =? 429); [reflexivity|].
      simpl in Hre. rewrite Hre, Hlast. reflexivity.
    + rewrite Hre, Hlast. reflexivity.
Qed.

Lemma attempt_loop_exhausted (url : string) : forall n a,
  (forall i, Attempt.retried (session_get url i) = true) ->
  Z.of_nat (a + n) = retries -> (0 < n)%nat ->
  attempt_loop url (seq a n)
  = (n, inr (Attempt.final_error retries http_error_msg url
               (session_get url (a + n - 1)%nat))).
Proof.
  induction n as [|n IH]; intros a H Hlen Hn; [lia|]. simpl.
  pose proof (H a) as Ha.
  destruct n as [|n].
  - replace (a + 1 - 1)%nat with a by lia.
    replace (Z.of_nat a =? retries - 1) with true by (symmetry; lia).
    simpl. destruct (session_get url a) as [r|e]; simpl in Ha |- *.
    + destruct (status_code r =? 429); [reflexivity|].
      simpl in Ha. rewrite Ha. reflexivity.
    + rewrite Ha. reflexivity.
  - replace (Z.of_nat a =? retries - 1) with false by (symmetry; lia).
    rewrite (IH (S a) H ltac:(lia) ltac:(lia)).
    replace (a + S (S n) - 1)%nat with (S a + S n - 1)%nat by lia.
    destruct (session_get url a) as [r|e]; simpl in Ha.
    + destruct (status_code r =? 429); [reflexivity|].
      simpl in Ha. rewrite Ha. reflexivity.
    + rewrite Ha. reflexivity.
Qed.

Lemma download_with_retries_exhausted (url : string) :
  1 <= retries ->
  (forall i, Attempt.retried (session_get url i) = true) ->
  _download_with_retries retries session_get http_error_msg url
  = (Z.to_nat retries,
     inr (Attempt.final_error retries http_error_msg url
            (session_get url (Z.to_nat retries - 1)%nat))).
Proof.
  intros Hr H. unfold _download_with_retries.
  apply (attempt_loop_exhausted url (Z.to_nat retries) 0 H); lia.
Qed.

Lemma download_with_retries_requests (url : string) :
  (fst (_download_with_retries retries session_get http_error_msg url)
   <= Z.to_nat retries)%nat.
Proof.
  unfold _download_with_retries.
  etransitivity; [apply attempt_loop_requests|]. rewrite List.length_seq. lia.
Qed.

End RetryBounds.

(** X1: [_download_with_retries] never calls [session.get] more than
    [retries] times, calls it at least once when [retries >= 1], and
    with [retries <= 0] calls it not at all and raises the
    "Failed to download ... after ... attempts" error of the statement
    after the loop. *)
Theorem retry_loop_request_count
        (retries : Z) (session_get : string -> nat -> Fetch.Response + Fetch.Exc)
        (http_error_msg : string -> Fetch.Response -> string) (url : string) :
  (fst (Fetch._download_with_retries retries session_get http_error_msg url)
   <= Z.to_nat retries)%nat /\
  (1 <= retries ->
   (1 <= fst (Fetch._download_with_retries retries session_get
                                           http_error_msg url))%nat) /\
  (retries <= 0 ->
   Fetch._download_with_retries retries session_get http_error_msg url
   = (0%nat, inr (Fetch.RequestException
                    (Fetch.failed_after_msg retries url)))).
Proof.
  split; [apply download_with_retries_requests|]. split.
  - intros H. unfold Fetch._download_with_retries. apply attempt_loop_first.
    destruct (Z.to_nat retries) eqn:E; [lia|]. discriminate.
  - intros H. unfold Fetch._download_with_retries.
    replace (Z.to_nat retries) with 0%nat by lia. reflexivity.
Qed.

(** X2: when the first [k] attempts fail in a way the loop retries
    (429, an error status, a request exception), [k < retries], and
    attempt [k] is answered with a good response, the method returns
    that response after exactly [k + 1] requests. *)
Theorem retry_loop_returns_first_good_response
        (retries : Z) (session_get : string -> nat -> Fetch.Response + Fetch.Exc)
        (http_error_msg : string -> Fetch.Response -> string) (url : string)
        (k : nat) (response : Fetch.Response) :
  Z.of_nat k < retries ->
  (forall i, (i < k)%nat -> Attempt.retried (session_get url i) = true) ->
  session_get url k = inl response ->
  Attempt.retried (inl response) = false ->
  Fetch._download_with_retries retries session_get http_error_msg url
  = (S k, inl response).
Proof.
  intros Hk Hre Hget Hok. unfold Fetch._download_with_retries.
  apply attempt_loop_retried; simpl; auto.
  - intros i Hi. apply Hre. lia.
  - lia.
Qed.

(** [retry_loop_returns_first_good_response] on a server that times
    out, answers 503 and then serves the page, with [retries=3]. *)
Lemma retry_loop_returns_first_good_response_witness :
  Fetch._download_with_retries 3 Cases.flaky Scenario.error_text Scenario.root
  = (3%nat, inl (Fetch.mkResponse 200 "<p>text</p>")).
Proof.
  apply (retry_loop_returns_first_good_response 3 Cases.flaky
           Scenario.error_text Scenario.root 2
           (Fetch.mkResponse 200 "<p>text</p>")).
  - lia.
  - intros [|[|i]] Hi; [reflexivity | reflexivity | lia].
  - reflexivity.
  - reflexivity.
Defined.

(** X3: when every attempt fails in a way the loop retries and
    [retries >= 1], exactly [retries] requests are made and the
    exception raised is that of the last attempt: the caught exception,
    or, when the last answer was 429, the generic
    "Failed to download ... after ... attempts" error. *)
Theorem retry_loop_raises_last_error
        (retries : Z) (session_get : string -> nat -> Fetch.Response + Fetch.Exc)
        (http_error_msg : string -> Fetch.Response -> string) (url : string) :
  1 <= retries ->
  (forall i, Attempt.retried (session_get url i) = true) ->
  Fetch._download_with_retries retries session_get http_error_msg url
  = (Z.to_nat retries,
     inr (Attempt.final_error retries http_error_msg url
            (session_get url (Z.to_nat retries - 1)%nat))).
Proof. apply download_with_retries_exhausted. Qed.

(** [retry_loop_raises_last_error] on a server that always answers
    429, with [retries=3]. *)
Lemma retry_loop_raises_last_error_witness :
  Fetch._download_with_retries 3 Cases.always_429 Scenario.error_text
                               Scenario.root
  = (3%nat,
     inr (Fetch.RequestException
            "Failed to download https://docs.example.com after 3 attempts")).
Proof.
  rewrite (retry_loop_raises_last_error 3 Cases.always_429 Scenario.error_text
             Scenario.root);
    [vm_compute; reflexivity | lia | intros i; reflexivity].
Defined.

(** X4: what [download_url] hands to the crawl loop: links only
    together with content; a failure is recorded only when neither
    content nor links are returned; outside browser mode returned
    content has passed the content filters; a stop request seen at
    the first check makes no request; and never more than [retries]
    requests are made. *)
Theorem download_url_result_shape
        (retries : Z) (session_get : string -> nat -> Fetch.Response + Fetch.Exc)
        (http_error_msg : string -> Fetch.Response -> string)
        (response_bool : Fetch.Response -> bool)
        (stop_check : string -> nat -> bool) (browser_mode : bool)
        (_download_with_browser : string -> option string * option Links)
        (content_ok : string -> bool)
        (parse_and_extract : string -> string -> option Links)
        (url : string) :
  let d := Fetch.download_url retries session_get http_error_msg response_bool
             stop_check browser_mode _download_with_browser content_ok
             parse_and_extract url in
  (Fetch.dl_html d = None -> Fetch.dl_links d = None) /\
  (Fetch.dl_failed d <> None ->
   Fetch.dl_html d = None /\ Fetch.dl_links d = None) /\
  (forall html, browser_mode = false -> Fetch.dl_html d = Some html ->
                content_ok html = true) /\
  (stop_check url 0%nat = true -> d = Fetch.nothing 0) /\
  (Fetch.dl_requests d <= Z.to_nat retries)%nat.
Proof.
  cbv zeta. unfold Fetch.download_url.
  assert (Hregular :
    let d := Fetch.download_regular retries session_get http_error_msg
               response_bool stop_check content_ok parse_and_extract url in
    (Fetch.dl_html d = None -> Fetch.dl_links d = None) /\
    (Fetch.dl_failed d <> None ->
     Fetch.dl_html d = None /\ Fetch.dl_links d = None) /\
    (forall html, Fetch.dl_html d = Some html -> content_ok html = true) /\
    (Fetch.dl_requests d <= Z.to_nat retries)%nat).
  { cbv zeta. unfold Fetch.download_regular.
    pose proof (download_with_retries_requests retries session_get
                  http_error_msg url) as Hn.
    destruct (Fetch._download_with_retries retries session_get http_error_msg
                                           url) as [n [response|e]];
      simpl in Hn; [|simpl; repeat split; auto; discriminate].
    destruct (stop_check url 1%nat);
      [simpl; repeat split; auto; try discriminate; congruence|].
    destruct (content_ok (Fetch.text response)) eqn:Hok; simpl negb; cbv iota;
      [|simpl; repeat split; auto; try discriminate; congruence].
    destruct (parse_and_extract (Fetch.text response) url) as [links|];
      [destruct (stop_check url 2%nat)|]; simpl;
      repeat split; auto; try discriminate; try congruence;
      intros html [= <-]; exact Hok. }
  cbv zeta in Hregular. destruct Hregular as (H1 & H2 & H3 & H4).
  destruct (stop_check url 0%nat) eqn:Hstop.
  { simpl. split; [reflexivity|].
    split; [intros H; contradiction H; reflexivity|].
    split; [discriminate|]. split; [reflexivity | lia]. }
  destruct browser_mode.
  - destruct (_download_with_browser url) as [[html|] links].
    + simpl. split; [discriminate|].
      split; [intros H; contradiction H; reflexivity|].
      split; [discriminate|]. split; [discriminate | lia].
    + split; [exact H1|]. split; [exact H2|].
      split; [discriminate|]. split; [discriminate | exact H4].
  - split; [exact H1|]. split; [exact H2|].
    split; [intros html _; apply H3|]. split; [discriminate | exact H4].
Qed.

(** ** [Crawler.crawl]: what is fetched, the books, termination *)

Lemma fold_left_invariant_in {A B : Type} (P : A -> Prop) (f : A -> B -> A)
      (l : list B) :
  (forall a x, In x l -> P a -> P (f a x)) ->
  forall a, P a -> P (fold_left f l a).
Proof.
  induction l as [|x l IH]; intros Hf a Ha; simpl; [exact Ha|].
  apply IH.
  - intros a' x' Hx'. apply Hf. right. exact Hx'.
  - apply Hf; [left; reflexivity | exact Ha].
Qed.

Section CrawlerLogFacts.
Import Crawler CrawlerInv CrawlerLog.
Variable cfg : Config.
Variable download : nat -> string -> Fetch.Download.
Variable stop_event : nat -> bool.
Variable as_completed :
  nat -> list (Entry * Fetch.Download) -> list (Entry * Fetch.Download).
Variable callback_raises progress_raises : string -> bool.
Variable site : list string.

Local Abbreviation process := (Crawler.process cfg callback_raises progress_raises).
Local Abbreviation iteration :=
  (Crawler.iteration cfg download stop_event as_completed callback_raises
                     progress_raises).
Local Abbreviation while_loop :=
  (Crawler.while_loop cfg download stop_event as_completed callback_raises
                      progress_raises).
Local Abbreviation crawl :=
  (Crawler.crawl cfg download stop_event as_completed callback_raises
                 progress_raises).

(** *** Only documentation links are fetched *)

Lemma enqueue_doc_link_doc_links (depth : Z) (lp : Loop) (link : string) :
  doc_links (self (enqueue_doc_link depth lp link)) = doc_links (self lp).
Proof. unfold enqueue_doc_link. destruct (_ || _ || _); reflexivity. Qed.

Lemma enqueue_doc_links_docs (depth : Z) (links : list string) (lp : Loop) :
  (forall link, In link links -> link ∈ doc_links (self lp)) ->
  docs_inv cfg lp -> docs_inv cfg (enqueue_doc_links cfg depth links lp).
Proof.
  intros Hl H. unfold enqueue_doc_links.
  destruct (depth <? max_depth cfg); [|exact H].
  apply (fold_left_invariant_in
           (fun lp' => docs_inv cfg lp' /\
                       doc_links (self lp') = doc_links (self lp)));
    [|split; [exact H | reflexivity]].
  intros a x Hx [Ha Hd]. split; [|rewrite enqueue_doc_link_doc_links; exact Hd].
  unfold enqueue_doc_link. destruct (_ || _ || _); [exact Ha|].
  intros url. unfold urls. simpl. rewrite app_assoc, map_app. simpl.
  intros Hurl. apply in_app_or in Hurl as [Hurl | [<- | []]].
  - apply Ha. exact Hurl.
  - right. rewrite Hd. apply Hl. exact Hx.
Qed.

Lemma docs_inv_frame (lp : Loop) (s : State) :
  doc_links (self lp) ⊆ doc_links s ->
  docs_inv cfg lp -> docs_inv cfg (with_self s lp).
Proof.
  intros Hsub H url Hurl. destruct (H url Hurl) as [Hb | Hd]; [left; exact Hb|].
  right. simpl. apply Hsub, Hd.
Qed.

Lemma process_docs (lp : Loop) (job : Entry * Fetch.Download) :
  docs_inv cfg lp -> docs_inv cfg (process lp job).
Proof.
  intros H. destruct job as [[url depth] [html links failed requests]].
  unfold Crawler.process. simpl Fetch.dl_html. simpl Fetch.dl_links.
  set (s0 := add_visited url (record_failure url _ (self lp))).
  assert (Hd0 : doc_links s0 = doc_links (self lp)).
  { unfold s0, record_failure. simpl. destruct failed; reflexivity. }
  assert (H0 : docs_inv cfg (with_self s0 lp)).
  { apply docs_inv_frame; [rewrite Hd0; reflexivity | exact H]. }
  destruct html as [html|]; [|exact H0].
  destruct links as [links|]; [|exact H0].
  destruct (UrlLib.nonempty html); [|exact H0].
  destruct (callback_raises url); [exact H0|].
  destruct (progress_raises url).
  - apply (docs_inv_frame (with_self s0 lp)); [reflexivity | exact H0].
  - apply enqueue_doc_links_docs.
    + intros link Hlink. simpl. apply elem_of_union_r.
      apply elem_of_list_to_set, list_elem_of_In. exact Hlink.
    + apply (docs_inv_frame (with_self (count_page s0) (with_self s0 lp))).
      * simpl. apply union_subseteq_l.
      * apply (docs_inv_frame (with_self s0 lp)); [reflexivity | exact H0].
Qed.

Lemma iteration_docs (lp : Loop) :
  docs_inv cfg lp -> docs_inv cfg (loop_of (iteration lp)).
Proof.
  intros H. apply iteration_cases; [exact H | exact H |].
  intros batch rest Hsplit _ _ _.
  apply fold_left_invariant; [intros a x; apply process_docs|].
  unfold docs_inv in *. simpl. rewrite <- app_assoc, Hsplit. exact H.
Qed.

Lemma crawl_docs (fuel : nat) (s : State) :
  docs_inv cfg (fst (crawl fuel s)).
Proof.
  unfold Crawler.crawl. apply while_loop_invariant; [apply iteration_docs|].
  intros url [<- | []]. left. reflexivity.
Qed.

(** *** The books *)

Lemma enqueue_doc_links_books (depth : Z) (links : list string) (lp : Loop) :
  books_inv lp -> books_inv (enqueue_doc_links cfg depth links lp).
Proof.
  intros H. unfold enqueue_doc_links.
  destruct (depth <? max_depth cfg); [|exact H].
  apply fold_left_invariant; [|exact H].
  intros a x (Hq & Hv & Hf). unfold enqueue_doc_link.
  destruct (_ || _ || _); [repeat split; assumption|].
  unfold books_inv, urls in *. simpl.
  split; [|split; assumption].
  rewrite Hq, app_assoc, !map_app, !list_to_set_app_L. simpl.
  rewrite union_empty_r_L, (union_comm_L {[x]}). reflexivity.
Qed.

Lemma process_books (lp : Loop) (job : Entry * Fetch.Download) :
  In (fst (fst job)) (urls (fetched lp)) ->
  books_inv lp -> books_inv (process lp job).
Proof.
  intros Hin (Hq & Hv & Hf).
  destruct job as [[url depth] [html links failed requests]].
  simpl in Hin. unfold Crawler.process.
  simpl Fetch.dl_html. simpl Fetch.dl_links.
  set (s0 := add_visited url (record_failure url _ (self lp))).
  assert (Hin' : url ∈ (list_to_set (urls (fetched lp)) : gset string)).
  { apply elem_of_list_to_set, list_elem_of_In. exact Hin. }
  assert (H0 : books_inv (with_self s0 lp)).
  { unfold books_inv, s0, record_failure. simpl.
    destruct failed as [msg|]; simpl.
    - split; [exact Hq|]. split.
      + apply union_subseteq. split; [apply singleton_subseteq_l, Hin' | exact Hv].
      + rewrite dom_insert_L. apply union_mono_l. exact Hf.
    - split; [exact Hq|]. split.
      + apply union_subseteq. split; [apply singleton_subseteq_l, Hin' | exact Hv].
      + etransitivity; [exact Hf | apply union_subseteq_r]. }
  destruct html as [html|]; [|exact H0].
  destruct links as [links|]; [|exact H0].
  destruct (UrlLib.nonempty html); [|exact H0].
  destruct (callback_raises url); [exact H0|].
  destruct (progress_raises url); [exact H0|].
  apply enqueue_doc_links_books. exact H0.
Qed.

(** *** Staying within a finite site *)

Lemma enqueue_doc_links_site (depth : Z) (links : list string) (lp : Loop) :
  (forall link, In link links -> In link site) ->
  site_inv site lp -> site_inv site (enqueue_doc_links cfg depth links lp).
Proof.
  intros Hl H. unfold enqueue_doc_links.
  destruct (depth <? max_depth cfg); [|exact H].
  apply fold_left_invariant_in; [|exact H].
  intros a x Hx Ha. unfold enqueue_doc_link.
  destruct (_ || _ || _); [exact Ha|].
  intros url. unfold urls. simpl. rewrite app_assoc, map_app. simpl.
  intros Hurl. apply in_app_or in Hurl as [Hurl | [<- | []]].
  - apply Ha. exact Hurl.
  - apply Hl. exact Hx.
Qed.

Lemma process_site (lp : Loop) (e : Entry) (d : Fetch.Download) :
  (forall links, Fetch.dl_links d = Some links ->
                 forall link, In link (l_doc links) -> In link site) ->
  site_inv site lp -> site_inv site (process lp (e, d)).
Proof.
  intros Hd H. destruct e as [url depth]. unfold Crawler.process.
  destruct (Fetch.dl_html d) as [html|]; [|exact H].
  destruct (Fetch.dl_links d) as [links|]; [|exact H].
  destruct (UrlLib.nonempty html); [|exact H].
  destruct (callback_raises url); [exact H|].
  destruct (progress_raises url); [exact H|].
  apply enqueue_doc_links_site; [apply (Hd links eq_refl) | exact H].
Qed.

Lemma submit_jobs (k : nat) (batch : list Entry) (job : Entry * Fetch.Download) :
  In job (submit download k batch) ->
  exists k', snd job = download k' (fst (fst job)).
Proof.
  revert k. induction batch as [|e batch IH]; intros k; simpl; [intros []|].
  intros [<- | Hjob]; [exists k; reflexivity | apply (IH (S k) Hjob)].
Qed.

Hypothesis as_completed_all :
  forall i jobs, Permutation (as_completed i jobs) jobs.

Lemma iteration_books (lp : Loop) :
  books_inv lp -> books_inv (loop_of (iteration lp)).
Proof.
  intros H. apply iteration_cases; [exact H | exact H |].
  intros batch rest Hsplit _ _ _.
  apply (fold_left_invariant_in
           (fun lp' => books_inv lp' /\ fetched lp' = fetched lp ++ batch)).
  - intros a x Hx [Ha Hfa]. split.
    + apply process_books; [|exact Ha]. rewrite Hfa.
      apply (Permutation_in _ (as_completed_all _ _)) in Hx.
      apply (in_map fst) in Hx. rewrite submit_entries in Hx.
      unfold urls. rewrite map_app. apply in_or_app. right.
      apply in_map. exact Hx.
    + rewrite process_fetched. exact Hfa.
  - split; [|reflexivity].
    destruct H as (Hq & Hv & Hf). unfold books_inv, urls in *. simpl.
    rewrite <- app_assoc, Hsplit. split; [exact Hq|]. split; [|exact Hf].
    rewrite map_app, list_to_set_app_L.
    etransitivity; [exact Hv | apply union_subseteq_l].
Qed.

Lemma crawl_books (fuel : nat) (s : State) : books_inv (fst (crawl fuel s)).
Proof.
  unfold Crawler.crawl. apply while_loop_invariant; [apply iteration_books|].
  unfold books_inv, urls. simpl. split.
  - rewrite union_empty_r_L. reflexivity.
  - split; [reflexivity|]. rewrite dom_empty_L. reflexivity.
Qed.

Hypothesis site_closed : links_within site download.

(** An iteration that goes on has handed at least one more entry to
    [download_url]. *)
Lemma iteration_progress (lp lp' : Loop) :
  once_inv lp -> site_inv site lp ->
  iteration lp = Next lp' ->
  once_inv lp' /\ site_inv site lp' /\
  (List.length (fetched lp) < List.length (fetched lp'))%nat.
Proof.
  intros Honce Hsite Hnext.
  pose proof (iteration_once cfg download stop_event as_completed
                callback_raises progress_raises lp Honce) as Honce'.
  rewrite Hnext in Honce'. simpl in Honce'. split; [exact Honce'|].
  unfold Crawler.iteration in Hnext.
  destruct (_ && _ && _); [|discriminate].
  destruct (stop_event (batches lp)); [discriminate|].
  pose proof (take_batch_split (concurrent_requests cfg) (doc_queue lp)) as Hsplit.
  destruct (take_batch (concurrent_requests cfg) (doc_queue lp)) as [batch rest].
  simpl in Hsplit.
  assert (Hstart : site_inv site (mkLoop (self lp) rest (stopping lp)
                                         (S (batches lp)) (fetched lp ++ batch))).
  { unfold site_inv in *. simpl. rewrite <- app_assoc, Hsplit. exact Hsite. }
  destruct batch as [|e batch]; [discriminate|].
  injection Hnext as <-. split.
  - apply fold_left_invariant_in; [|exact Hstart].
    intros a [e' d] Hx Ha. apply process_site; [|exact Ha].
    apply (Permutation_in _ (as_completed_all _ _)) in Hx.
    apply (submit_jobs (List.length (fetched lp)) (e :: batch)) in Hx
      as [k' Hk]. simpl in Hk. subst d.
    intros links Hlinks. apply (site_closed k' (fst e') links Hlinks).
  - rewrite batch_fetched. simpl. rewrite List.length_app. simpl. lia.
Qed.

Lemma fetched_within_site (lp : Loop) :
  once_inv lp -> site_inv site lp ->
  (List.length (fetched lp) <= List.length site)%nat.
Proof.
  intros [Hnd _] Hsite. unfold urls in Hnd. rewrite map_app in Hnd.
  apply NoDup_app in Hnd as [Hnd _].
  assert (Hlen : List.length (urls (fetched lp)) = List.length (fetched lp))
    by apply List.length_map.
  rewrite <- Hlen.
  apply List.NoDup_incl_length; [apply NoDup_ListNoDup, Hnd|].
  intros url Hurl. apply Hsite. unfold urls. rewrite map_app.
  apply in_or_app. left. exact Hurl.
Qed.

Lemma while_loop_ends (fuel : nat) (lp : Loop) :
  once_inv lp -> site_inv site lp ->
  (List.length site < fuel + List.length (fetched lp))%nat ->
  snd (while_loop fuel lp) = true.
Proof.
  revert lp. induction fuel as [|fuel IH]; intros lp Honce Hsite Hfuel.
  - pose proof (fetched_within_site lp Honce Hsite). lia.
  - simpl. destruct (iteration lp) as [lp'|lp'] eqn:Hstep; [|reflexivity].
    destruct (iteration_progress lp lp' Honce Hsite Hstep) as (Ho & Hs & Hlen).
    apply IH; [exact Ho | exact Hs | lia].
Qed.

End CrawlerLogFacts.

(** X5: [Crawler.crawl] hands to [download_url] only the start URL and
    URLs that an earlier page reported as documentation links (they
    are in [doc_links]); auxiliary, external and asset links are
    fetched only if some page also listed them as documentation. *)
Theorem crawler_fetches_only_documentation_links
        (cfg : Crawler.Config) (download : nat -> string -> Fetch.Download)
        (stop_event : nat -> bool)
        (as_completed : nat -> list (Entry * Fetch.Download) ->
                        list (Entry * Fetch.Download))
        (callback_raises progress_raises : string -> bool)
        (fuel : nat) (s : Crawler.State) :
  Forall (fun e : Entry =>
            fst e = Crawler.base_url cfg \/
            fst e ∈ Crawler.doc_links
                      (Crawler.self
                         (fst (Crawler.crawl cfg download stop_event
                                 as_completed callback_raises progress_raises
                                 fuel s))))
         (Crawler.fetched
            (fst (Crawler.crawl cfg download stop_event as_completed
                                callback_raises progress_raises fuel s))
          ++ Crawler.doc_queue
               (fst (Crawler.crawl cfg download stop_event as_completed
                                   callback_raises progress_raises fuel s))).
Proof.
  apply List.Forall_forall. intros e He.
  apply (crawl_docs cfg download stop_event as_completed callback_raises
                    progress_raises fuel s).
  unfold urls. apply in_map. exact He.
Qed.

(** X6: with [max_pages = n], [pages_downloaded] never exceeds
    [max(0, n + concurrent_requests - 1)] in [Crawler.crawl]: the cap
    is tested between batches only, and a batch counts at most
    [concurrent_requests] pages. *)
Theorem crawler_page_count_bound
        (cfg : Crawler.Config) (download : nat -> string -> Fetch.Download)
        (stop_event : nat -> bool)
        (as_completed : nat -> list (Entry * Fetch.Download) ->
                        list (Entry * Fetch.Download))
        (callback_raises progress_raises : string -> bool)
        (fuel : nat) (s : Crawler.State) (n : Z) :
  (forall i jobs, Permutation (as_completed i jobs) jobs) ->
  Crawler.max_pages cfg = Some n ->
  Crawler.pages_downloaded
    (Crawler.self (fst (Crawler.crawl cfg download stop_event as_completed
                                      callback_raises progress_raises fuel s)))
  <= Z.max 0 (n + Crawler.concurrent_requests cfg - 1).
Proof. intros Hperm Hn. apply crawl_page_bound; assumption. Qed.

(** [crawler_page_count_bound] on the crawl of the six-page site with
    [max_pages=2] and [concurrent_requests=5], which counts six
    pages. *)
Lemma crawler_page_count_bound_witness :
  Crawler.max_pages Scenario.capped = Some 2 /\
  Crawler.pages_downloaded
    (Crawler.self
       (fst (Crawler.crawl Scenario.capped Scenario.six_pages Scenario.never
                           Scenario.in_order Scenario.never Scenario.never 10
                           Scenario.fresh_crawler)))
  <= Z.max 0 (2 + Crawler.concurrent_requests Scenario.capped - 1).
Proof.
  split; [reflexivity|].
  apply (crawler_page_count_bound Scenario.capped Scenario.six_pages
           Scenario.never Scenario.in_order Scenario.never Scenario.never
           10 Scenario.fresh_crawler 2).
  - intros i jobs. apply Permutation_refl.
  - reflexivity.
Defined.

(** X7: the books of [Crawler.crawl] are exact between batches:
    [visited] is the set of URLs handed to [download_url], [queued] is
    [visited] together with the URLs still waiting in the queue, and
    every key of [failed_urls] is a visited URL. *)
Theorem crawler_books_are_exact
        (cfg : Crawler.Config) (download : nat -> string -> Fetch.Download)
        (stop_event : nat -> bool)
        (as_completed : nat -> list (Entry * Fetch.Download) ->
                        list (Entry * Fetch.Download))
        (callback_raises progress_raises : string -> bool)
        (fuel : nat) (s : Crawler.State) :
  (forall i jobs, Permutation (as_completed i jobs) jobs) ->
  let lp := fst (Crawler.crawl cfg download stop_event as_completed
                               callback_raises progress_raises fuel s) in
  Crawler.visited (Crawler.self lp) = list_to_set (urls (Crawler.fetched lp)) /\
  Crawler.queued (Crawler.self lp)
  = Crawler.visited (Crawler.self lp)
    ∪ list_to_set (urls (Crawler.doc_queue lp)) /\
  dom (Crawler.failed_urls (Crawler.self lp))
  ⊆ Crawler.visited (Crawler.self lp).
Proof.
  intros Hperm. cbv zeta.
  pose proof (crawl_books cfg download stop_event as_completed callback_raises
                          progress_raises Hperm fuel s) as (Hq & Hv & Hf).
  pose proof (crawl_visited cfg download stop_event as_completed
                callback_raises progress_raises Hperm fuel s) as Hvis.
  assert (Heq : Crawler.visited
                  (Crawler.self
                     (fst (Crawler.crawl cfg download stop_event as_completed
                             callback_raises progress_raises fuel s)))
                = list_to_set
                    (urls (Crawler.fetched
                             (fst (Crawler.crawl cfg download stop_event
                                     as_completed callback_raises
                                     progress_raises fuel s))))).
  { apply set_eq. intros url. split; [apply Hv|].
    intros Hurl. apply Hvis. apply list_elem_of_In.
    apply elem_of_list_to_set in Hurl. exact Hurl. }
  split; [exact Heq|]. split; [|exact Hf].
  rewrite Hq, Heq. unfold urls. rewrite map_app, list_to_set_app_L. reflexivity.
Qed.

(** [crawler_books_are_exact] on the crawl of the six-page site. *)
Lemma crawler_books_are_exact_witness :
  Crawler.visited
    (Crawler.self
       (fst (Crawler.crawl Scenario.capped Scenario.six_pages Scenario.never
                           Scenario.in_order Scenario.never Scenario.never 10
                           Scenario.fresh_crawler)))
  = list_to_set
      (urls (Crawler.fetched
               (fst (Crawler.crawl Scenario.capped Scenario.six_pages
                                   Scenario.never Scenario.in_order
                                   Scenario.never Scenario.never 10
                                   Scenario.fresh_crawler)))).
Proof.
  apply (crawler_books_are_exact Scenario.capped Scenario.six_pages
           Scenario.never Scenario.in_order Scenario.never Scenario.never 10
           Scenario.fresh_crawler).
  intros i jobs. apply Permutation_refl.
Defined.

(** X8: [Crawler.crawl] terminates on a finite site: when every
    documentation link the downloads report lies in a list [site] that
    holds the start URL, the [while] loop has ended after at most
    [length site + 1] evaluations of its test. *)
Theorem crawl_ends_on_finite_site
        (cfg : Crawler.Config) (download : nat -> string -> Fetch.Download)
        (stop_event : nat -> bool)
        (as_completed : nat -> list (Entry * Fetch.Download) ->
                        list (Entry * Fetch.Download))
        (callback_raises progress_raises : string -> bool)
        (site : list string) (fuel : nat) (s : Crawler.State) :
  (forall i jobs, Permutation (as_completed i jobs) jobs) ->
  CrawlerLog.links_within site download ->
  In (Crawler.base_url cfg) site ->
  (List.length site < fuel)%nat ->
  snd (Crawler.crawl cfg download stop_event as_completed callback_raises
                     progress_raises fuel s) = true.
Proof.
  intros Hperm Hsite Hbase Hfuel. unfold Crawler.crawl.
  apply (while_loop_ends cfg download stop_event as_completed callback_raises
           progress_raises site Hperm Hsite).
  - unfold CrawlerInv.once_inv, urls. simpl. split.
    + apply NoDup_singleton.
    + intros url [<- | []]. apply elem_of_union_l, elem_of_singleton.
      reflexivity.
  - intros url [<- | []]. exact Hbase.
  - simpl. lia.
Qed.

(** [crawl_ends_on_finite_site] on the six-page site, crawled two
    pages at a time without a page cap. *)
Lemma crawl_ends_on_finite_site_witness :
  CrawlerLog.links_within Cases.six_urls Scenario.six_pages /\
  snd (Crawler.crawl Cases.uncapped Scenario.six_pages Scenario.never
                     Scenario.in_order Scenario.never Scenario.never 7
                     Scenario.fresh_crawler) = true.
Proof.
  assert (H : CrawlerLog.links_within Cases.six_urls Scenario.six_pages).
  { intros k url links. unfold Scenario.six_pages.
    destruct (String.eqb url Scenario.root); intros [= <-] link Hlink.
    - right. exact Hlink.
    - destruct Hlink. }
  split; [exact H|].
  apply (crawl_ends_on_finite_site Cases.uncapped Scenario.six_pages
           Scenario.never Scenario.in_order Scenario.never Scenario.never
           Cases.six_urls 7 Scenario.fresh_crawler).
  - intros i jobs. apply Permutation_refl.
  - exact H.
  - left. reflexivity.
  - simpl. lia.
Defined.

(** ** [DocumentationScraper]: [download_page] and [crawl] *)

(** X9: when every attempt for a URL fails in a way the retry loop
    retries, [max_retries >= 1], browser mode is off and no stop is
    requested before the request, the result of [download_page] is
    decided by the last attempt alone: a 404 gives
    [(None, None, None)], another error status re-raises the
    [HTTPError], a 429 gives the empty triple, and an exception of
    [session.get] is handled by the two [except] clauses. *)
Theorem download_page_after_failed_attempts
        (max_retries : Z)
        (session_get : string -> nat -> Fetch.Response + Fetch.Exc)
        (http_error_msg : string -> Fetch.Response -> string)
        (stop_check : string -> nat -> bool)
        (browse : string -> PageFetch.Browsed) (content_ok : string -> bool)
        (parse : string -> string -> option PageFetch.Soup)
        (include_assets : bool)
        (fetch_assets : string -> string -> list string * Z) (url : string) :
  1 <= max_retries ->
  (forall i, Attempt.retried (session_get url i) = true) ->
  stop_check url 0%nat = false -> stop_check url 1%nat = false ->
  PageFetch.download_page max_retries session_get http_error_msg stop_check
                          false browse content_ok parse include_assets
                          fetch_assets url
  = match session_get url (Z.to_nat max_retries - 1)%nat with
    | inl response =>
        if Fetch.status_code response =? 429 then PageFetch.empty_page
        else if Fetch.status_code response =? 404
             then Scraper.mkPageDownload Scraper.NotFound [] 0
             else Scraper.mkPageDownload Scraper.Raised [] 0
    | inr e => PageFetch.on_exception e
    end.
Proof.
  intros Hr H H0 H1. unfold PageFetch.download_page, PageFetch.download_regular.
  rewrite H0, H1, download_with_retries_exhausted; [|assumption..].
  destruct (session_get url _) as [r|e]; simpl; [|reflexivity].
  destruct (Fetch.status_code r =? 429); reflexivity.
Qed.

(** [download_page_after_failed_attempts] on a server that always
    answers 404, with [max_retries=3]. *)
Lemma download_page_after_failed_attempts_witness :
  Cases.page_of Scenario.always_404 0 Scenario.root
  = Scraper.mkPageDownload Scraper.NotFound [] 0.
Proof.
  apply (download_page_after_failed_attempts 3 Scenario.always_404
           Scenario.error_text (fun _ _ => false)
           (fun _ => PageFetch.FellBack)
           (fun _ => true)
           (fun _ _ => Some (PageFetch.mkSoup (Some "Title") []))
           false (fun _ _ => ([], 0)) Scenario.root);
    [lia | intros i; reflexivity | reflexivity | reflexivity].
Defined.

Section ScraperLogFacts.
Import Scraper ScraperInv ScraperLog.
Variable Pattern : Type.
Variable search : Pattern -> string -> bool.
Variable base_url : string.
Variable include_assets : bool.
Variable max_depth : Z.
Variable max_pages : option Z.
Variable concurrent_requests : Z.
Variable url_include_regex url_exclude_regex : list Pattern.
Variable download : nat -> string -> PageDownload.
Variable stop_event : nat -> bool.
Variable as_completed :
  nat -> list (Entry * PageDownload) -> list (Entry * PageDownload).
Variable save_content : string -> string -> string -> bool.
Variable site : list string.

Local Abbreviation is_valid_doc_url :=
  (Scraper.is_valid_doc_url Pattern search base_url include_assets
                            url_include_regex url_exclude_regex).
Local Abbreviation enqueue_link :=
  (Scraper.enqueue_link Pattern search base_url include_assets
                        url_include_regex url_exclude_regex).
Local Abbreviation enqueue_links :=
  (Scraper.enqueue_links Pattern search base_url include_assets max_depth
                         url_include_regex url_exclude_regex).
Local Abbreviation process :=
  (Scraper.process Pattern search base_url include_assets max_depth
                   url_include_regex url_exclude_regex stop_event save_content).
Local Abbreviation process_all :=
  (Scraper.process_all Pattern search base_url include_assets max_depth
                       url_include_regex url_exclude_regex stop_event
                       save_content).
Local Abbreviation iteration :=
  (Scraper.iteration Pattern search base_url include_assets max_depth max_pages
                     concurrent_requests url_include_regex url_exclude_regex
                     download stop_event as_completed save_content).
Local Abbreviation while_loop :=
  (Scraper.while_loop Pattern search base_url include_assets max_depth max_pages
                      concurrent_requests url_include_regex url_exclude_regex
                      download stop_event as_completed save_content).
Local Abbreviation crawl :=
  (Scraper.crawl Pattern search base_url include_assets max_depth max_pages
                 concurrent_requests url_include_regex url_exclude_regex
                 download stop_event as_completed save_content).
Local Abbreviation site_inv := (ScraperLog.site_inv is_valid_doc_url site).

(** A property of the loop state that looks only at the queue, the
    record of fetched entries and [failed_urls] holds throughout the
    loop if it survives the enqueueing of a link, the clearing of the
    queue and the move of a batch from the queue to the record. *)
Section LoopInvariant.
Variable P : Loop -> Prop.
Hypothesis P_frame : forall lp lp',
  queue lp' = queue lp -> fetched lp' = fetched lp ->
  failed_urls (self lp') = failed_urls (self lp) -> P lp -> P lp'.
Hypothesis P_enqueue : forall depth lp link,
  P lp -> P (enqueue_link depth lp link).
Hypothesis P_halt : forall lp, P lp -> P (halt lp).
Hypothesis P_batch : forall lp batch rest,
  batch ++ rest = queue lp -> P lp ->
  P (mkLoop (self lp) rest (stopping lp) (links_var lp) (clock lp)
            (fetched lp ++ batch)).

Lemma scraper_enqueue_links_inv (depth : Z) (lp : Loop) :
  P lp -> P (loop_of (enqueue_links depth lp)).
Proof.
  intros H. unfold Scraper.enqueue_links.
  destruct (depth <? max_depth); [|exact H].
  destruct (links_var lp) as [| |links]; try exact H.
  simpl. apply fold_left_invariant; [|exact H].
  intros a x. apply P_enqueue.
Qed.

Lemma scraper_process_inv (lp : Loop) (job : Entry * PageDownload) :
  P lp -> P (loop_of (process lp job)).
Proof.
  intros H. destruct job as [[url depth] d]. unfold Scraper.process.
  set (lp0 := with_self (worker_effects d (self lp)) lp).
  assert (H0 : P lp0) by (apply (P_frame lp); auto).
  destruct (stop_event (clock lp0)).
  { apply P_halt. apply (P_frame lp0); auto. }
  apply scraper_enqueue_links_inv.
  destruct (pd_result d) as [title html links| |];
    [destruct (_ && _ && _)|..]; apply (P_frame lp0); auto.
Qed.

Lemma scraper_drain_inv (jobs : list (Entry * PageDownload)) (lp : Loop) :
  P lp -> P (drain jobs lp).
Proof.
  unfold drain. apply fold_left_invariant. intros a x Ha.
  apply (P_frame a); auto.
Qed.

Lemma scraper_process_all_inv (jobs : list (Entry * PageDownload)) (lp : Loop) :
  P lp -> P (loop_of (process_all lp jobs)).
Proof.
  revert lp. induction jobs as [|job jobs IH]; intros lp H; simpl; [exact H|].
  pose proof (scraper_process_inv lp job H) as Hjob.
  destruct (process lp job) as [lp'|lp'|lp']; simpl in *.
  - apply IH. exact Hjob.
  - apply scraper_drain_inv. exact Hjob.
  - apply scraper_drain_inv. exact Hjob.
Qed.

Lemma scraper_iteration_inv (lp : Loop) :
  P lp -> P (loop_of (iteration lp)).
Proof.
  intros H. unfold Scraper.iteration.
  destruct (_ && _ && _); [|exact H].
  destruct (stop_event (clock lp)).
  { apply P_halt. apply (P_frame lp); auto. }
  pose proof (take_batch_split concurrent_requests (queue (tick lp))) as Hsplit.
  destruct (take_batch concurrent_requests (queue (tick lp))) as [batch rest].
  simpl in Hsplit.
  assert (Hstart : P (mkLoop (self lp) rest (stopping lp) (links_var lp)
                             (S (clock lp)) (fetched lp ++ batch))).
  { apply (P_batch (tick lp)); [exact Hsplit|]. apply (P_frame lp); auto. }
  destruct batch as [|e batch]; [apply (P_frame lp); auto|].
  match goal with
  | |- context [process_all ?l ?j] =>
      pose proof (scraper_process_all_inv j l Hstart) as Hall;
      destruct (process_all l j) as [lp'|lp'|lp']
  end; simpl in Hall |- *.
  - destruct (stop_event (clock lp')); [apply P_halt|];
      apply (P_frame lp'); auto.
  - apply P_halt. apply (P_frame lp'); auto.
  - exact Hall.
Qed.

Lemma scraper_while_loop_inv (fuel : nat) (lp : Loop) :
  P lp -> P (loop_of (while_loop fuel lp)).
Proof.
  revert lp. induction fuel as [|fuel IH]; intros lp H; simpl; [exact H|].
  pose proof (scraper_iteration_inv lp H) as Hstep.
  destruct (iteration lp) as [lp'|lp'|lp']; simpl in *;
    [apply IH | |]; exact Hstep.
Qed.

End LoopInvariant.

Lemma scraper_crawl_valid (fuel : nat) (s : State) (start_urls : list string) :
  valid_inv is_valid_doc_url (loop_of (crawl fuel s start_urls)).
Proof.
  unfold Scraper.crawl. apply scraper_while_loop_inv.
  - unfold valid_inv. intros lp lp' -> -> _ H. exact H.
  - intros depth lp link H. unfold Scraper.enqueue_link.
    destruct (negb (bool_decide _)); [|exact H].
    destruct (negb (bool_decide _)); [|exact H].
    destruct (is_valid_doc_url link) eqn:Hv; [|exact H].
    destruct (negb (in_queue _ _)); [|exact H].
    unfold valid_inv in *. simpl. rewrite app_assoc.
    apply Forall_app. split; [exact H|].
    constructor; [exact Hv | constructor].
  - unfold valid_inv. intros lp H. simpl. rewrite app_nil_r.
    apply Forall_app in H as [H _]. exact H.
  - unfold valid_inv. intros lp batch rest Hsplit H. simpl.
    rewrite <- app_assoc, Hsplit. exact H.
  - unfold valid_inv, Scraper.start. simpl.
    apply Forall_forall. intros e He. apply list_elem_of_In in He.
    apply in_map_iff in He as (u & <- & Hu).
    apply filter_In in Hu as [_ Hu]. exact Hu.
Qed.

Lemma scraper_crawl_no_failures (fuel : nat) (s : State)
      (start_urls : list string) :
  failed_urls (self (loop_of (crawl fuel s start_urls))) = ∅.
Proof.
  unfold Scraper.crawl.
  apply (scraper_while_loop_inv (fun lp => failed_urls (self lp) = ∅)).
  - intros lp lp' _ _ -> H. exact H.
  - intros depth lp link H. unfold Scraper.enqueue_link.
    destruct (_ && _ && _ && _); exact H.
  - intros lp H. exact H.
  - intros lp batch rest _ H. exact H.
  - reflexivity.
Qed.

(** *** The page cap *)

Lemma scraper_enqueue_links_pages (depth : Z) (lp : Loop) :
  pages_downloaded (self (loop_of (enqueue_links depth lp)))
  = pages_downloaded (self lp).
Proof.
  unfold Scraper.enqueue_links. destruct (depth <? max_depth); [|reflexivity].
  destruct (links_var lp) as [| |links]; try reflexivity. simpl.
  apply (fold_left_invariant
           (fun lp' => pages_downloaded (self lp') = pages_downloaded (self lp)));
    [|reflexivity].
  intros a x Ha. unfold Scraper.enqueue_link.
  destruct (_ && _ && _ && _); exact Ha.
Qed.

Lemma scraper_process_pages (lp : Loop) (job : Entry * PageDownload) :
  pages_downloaded (self (loop_of (process lp job)))
  <= pages_downloaded (self lp) + 1.
Proof.
  destruct job as [[url depth] d]. unfold Scraper.process.
  cbn [with_self clock tick self].
  destruct (stop_event (clock lp)); [simpl; lia|].
  rewrite scraper_enqueue_links_pages.
  destruct (pd_result d) as [title html links| |];
    [destruct (_ && _ && _)|..]; simpl; lia.
Qed.

Lemma scraper_drain_pages (jobs : list (Entry * PageDownload)) (lp : Loop) :
  pages_downloaded (self (drain jobs lp)) = pages_downloaded (self lp).
Proof.
  unfold drain.
  apply (fold_left_invariant
           (fun lp' => pages_downloaded (self lp') = pages_downloaded (self lp)));
    [|reflexivity].
  intros a x Ha. exact Ha.
Qed.

Lemma scraper_process_all_pages (jobs : list (Entry * PageDownload)) (lp : Loop) :
  pages_downloaded (self (loop_of (process_all lp jobs)))
  <= pages_downloaded (self lp) + Z.of_nat (List.length jobs).
Proof.
  revert lp. induction jobs as [|job jobs IH]; intros lp;
    [simpl; lia|].
  simpl process_all. simpl List.length.
  pose proof (scraper_process_pages lp job) as Hjob.
  destruct (process lp job) as [lp'|lp'|lp']; simpl in Hjob |- *.
  - specialize (IH lp'). lia.
  - rewrite scraper_drain_pages. lia.
  - rewrite scraper_drain_pages. lia.
Qed.

Lemma scraper_submit_length (k : nat) (batch : list Entry) :
  List.length (submit download k batch) = List.length batch.
Proof.
  revert k. induction batch as [|e batch IH]; intros k; simpl;
    [reflexivity | rewrite IH; reflexivity].
Qed.

(** *** Staying within a finite site *)

Lemma scraper_enqueue_link_fetched (depth : Z) (lp : Loop) (link : string) :
  fetched (enqueue_link depth lp link) = fetched lp /\
  links_var (enqueue_link depth lp link) = links_var lp.
Proof.
  unfold Scraper.enqueue_link. destruct (_ && _ && _ && _); split; reflexivity.
Qed.

Lemma scraper_enqueue_links_fetched (depth : Z) (lp : Loop) :
  fetched (loop_of (enqueue_links depth lp)) = fetched lp.
Proof.
  unfold Scraper.enqueue_links. destruct (depth <? max_depth); [|reflexivity].
  destruct (links_var lp) as [| |links]; try reflexivity. simpl.
  apply (fold_left_invariant (fun lp' => fetched lp' = fetched lp));
    [|reflexivity].
  intros a x Ha. rewrite (proj1 (scraper_enqueue_link_fetched depth a x)).
  exact Ha.
Qed.

Lemma scraper_process_fetched (lp : Loop) (job : Entry * PageDownload) :
  fetched (loop_of (process lp job)) = fetched lp.
Proof.
  destruct job as [[url depth] d]. unfold Scraper.process.
  cbn [with_self clock tick self].
  destruct (stop_event (clock lp)); [reflexivity|].
  rewrite scraper_enqueue_links_fetched.
  destruct (pd_result d) as [title html links| |];
    [destruct (_ && _ && _)|..]; reflexivity.
Qed.

Lemma scraper_drain_fetched (jobs : list (Entry * PageDownload)) (lp : Loop) :
  fetched (drain jobs lp) = fetched lp.
Proof.
  unfold drain.
  apply (fold_left_invariant (fun lp' => fetched lp' = fetched lp));
    [|reflexivity].
  intros a x Ha. exact Ha.
Qed.

Lemma scraper_process_all_fetched (jobs : list (Entry * PageDownload))
      (lp : Loop) :
  fetched (loop_of (process_all lp jobs)) = fetched lp.
Proof.
  revert lp. induction jobs as [|job jobs IH]; intros lp; [reflexivity|].
  simpl process_all. pose proof (scraper_process_fetched lp job) as Hjob.
  destruct (process lp job) as [lp'|lp'|lp']; simpl in Hjob |- *.
  - rewrite IH. exact Hjob.
  - rewrite scraper_drain_fetched. exact Hjob.
  - rewrite scraper_drain_fetched. exact Hjob.
Qed.

Lemma scraper_frame_site (lp lp' : Loop) :
  queue lp' = queue lp \/ queue lp' = [] ->
  fetched lp' = fetched lp -> links_var lp' = links_var lp ->
  site_inv lp -> site_inv lp'.
Proof.
  intros Hq Hf Hl [Hu Hlinks]. split.
  - intros url. rewrite Hf. destruct Hq as [-> | ->]; [apply Hu|].
    rewrite app_nil_r. intros Hurl. apply Hu. unfold urls in *.
    rewrite map_app. apply in_or_app. left. exact Hurl.
  - rewrite Hl. exact Hlinks.
Qed.

Lemma scraper_enqueue_links_site (depth : Z) (lp : Loop) :
  site_inv lp -> site_inv (loop_of (enqueue_links depth lp)).
Proof.
  intros H. unfold Scraper.enqueue_links.
  destruct (depth <? max_depth); [|exact H].
  destruct (links_var lp) as [| |links] eqn:Hvar; try exact H.
  simpl.
  apply (fold_left_invariant_in
           (fun lp' => site_inv lp' /\ links_var lp' = Bound links));
    [|split; [exact H | exact Hvar]].
  intros a x Hx [Ha Hva].
  split; [|rewrite (proj2 (scraper_enqueue_link_fetched depth a x)); exact Hva].
  unfold Scraper.enqueue_link.
  destruct (negb (bool_decide _)); [|exact Ha].
  destruct (negb (bool_decide _)); [|exact Ha].
  destruct (is_valid_doc_url x) eqn:Hv; [|exact Ha].
  destruct (negb (in_queue _ _)); [|exact Ha].
  destruct Ha as [Hu Hl]. split.
  - intros url. unfold urls. simpl. rewrite app_assoc, map_app. simpl.
    intros Hurl. apply in_app_or in Hurl as [Hurl | [<- | []]].
    + apply Hu. exact Hurl.
    + apply (Hl links Hva x Hx Hv).
  - exact Hl.
Qed.

Lemma scraper_process_site (lp : Loop) (e : Entry) (d : PageDownload) :
  (forall title html_content links,
      pd_result d = Page title html_content links ->
      forall link, In link links -> is_valid_doc_url link = true ->
                   In link site) ->
  site_inv lp -> site_inv (loop_of (process lp (e, d))).
Proof.
  intros Hd H. destruct e as [url depth]. unfold Scraper.process.
  cbn [with_self clock tick self].
  destruct (stop_event (clock lp)).
  { apply (scraper_frame_site lp); auto. }
  apply scraper_enqueue_links_site.
  destruct (pd_result d) as [title html links| |] eqn:Hres.
  - assert (Hb : site_inv (with_links (Bound links)
                   (with_self (add_visited url (self (tick
                      (with_self (worker_effects d (self lp)) lp))))
                      (tick (with_self (worker_effects d (self lp)) lp))))).
    { destruct H as [Hu _]. split; [exact Hu|].
      intros links' [= <-]. apply (Hd title html links eq_refl). }
    destruct (_ && _ && _); [|exact Hb].
    apply (scraper_frame_site _ _ (or_introl eq_refl) eq_refl eq_refl Hb).
  - destruct H as [Hu _]. split; [exact Hu | discriminate].
  - apply (scraper_frame_site lp); auto.
Qed.

Lemma scraper_drain_site (jobs : list (Entry * PageDownload)) (lp : Loop) :
  site_inv lp -> site_inv (drain jobs lp).
Proof.
  unfold drain. apply fold_left_invariant. intros a x Ha.
  apply (scraper_frame_site a); auto.
Qed.

Lemma scraper_process_all_site (jobs : list (Entry * PageDownload)) (lp : Loop) :
  (forall job, In job jobs ->
     forall title html_content links,
       pd_result (snd job) = Page title html_content links ->
       forall link, In link links -> is_valid_doc_url link = true ->
                    In link site) ->
  site_inv lp -> site_inv (loop_of (process_all lp jobs)).
Proof.
  revert lp. induction jobs as [|job jobs IH]; intros lp Hjobs H;
    [exact H|].
  simpl process_all.
  assert (Hjob : site_inv (loop_of (process lp job))).
  { rewrite (surjective_pairing job).
    apply scraper_process_site; [|exact H].
    apply (Hjobs job). left. reflexivity. }
  assert (Hrest : forall job', In job' jobs ->
     forall title html_content links,
       pd_result (snd job') = Page title html_content links ->
       forall link, In link links -> is_valid_doc_url link = true ->
                    In link site).
  { intros job' Hjob'. apply Hjobs. right. exact Hjob'. }
  destruct (process lp job) as [lp'|lp'|lp']; simpl in Hjob |- *.
  - exact (IH lp' Hrest Hjob).
  - apply scraper_drain_site. exact Hjob.
  - apply scraper_drain_site. exact Hjob.
Qed.

Lemma scraper_submit_jobs (k : nat) (batch : list Entry)
      (job : Entry * PageDownload) :
  In job (submit download k batch) ->
  exists k', snd job = download k' (fst (fst job)).
Proof.
  revert k. induction batch as [|e batch IH]; intros k; simpl; [intros []|].
  intros [<- | Hjob]; [exists k; reflexivity | apply (IH (S k) Hjob)].
Qed.

Hypothesis as_completed_all :
  forall i jobs, Permutation (as_completed i jobs) jobs.

Lemma scraper_iteration_pages (lp : Loop) (n : Z) :
  max_pages = Some n ->
  pages_downloaded (self lp) <= Z.max 0 (n + concurrent_requests - 1) ->
  pages_downloaded (self (loop_of (iteration lp)))
  <= Z.max 0 (n + concurrent_requests - 1).
Proof.
  intros Hn Hp. unfold Scraper.iteration.
  destruct (negb (Nat.eqb _ _)); [|exact Hp].
  destruct (under_cap _ _) eqn:Hcap; [|exact Hp].
  destruct (negb (stopping lp)); [|exact Hp]. cbn [andb].
  destruct (stop_event (clock lp)); [exact Hp|].
  pose proof (take_batch_length concurrent_requests (queue (tick lp))) as Hlen.
  destruct (take_batch concurrent_requests (queue (tick lp))) as [batch rest].
  simpl in Hlen.
  destruct batch as [|e batch]; [exact Hp|].
  specialize (Hlen ltac:(discriminate)). cbn [List.length] in Hlen.
  match goal with
  | |- context [process_all ?l ?j] =>
      pose proof (scraper_process_all_pages j l) as Hall;
      destruct (process_all l j) as [lp'|lp'|lp']
  end;
    rewrite (Permutation_length (as_completed_all _ _)),
            scraper_submit_length in Hall;
    unfold under_cap in Hcap; rewrite Hn in Hcap; apply Z.ltb_lt in Hcap;
    simpl in Hall |- *.
  - destruct (stop_event (clock lp')); simpl; lia.
  - lia.
  - lia.
Qed.

Lemma scraper_while_loop_pages (fuel : nat) (lp : Loop) (n : Z) :
  max_pages = Some n ->
  pages_downloaded (self lp) <= Z.max 0 (n + concurrent_requests - 1) ->
  pages_downloaded (self (loop_of (while_loop fuel lp)))
  <= Z.max 0 (n + concurrent_requests - 1).
Proof.
  intros Hn. revert lp. induction fuel as [|fuel IH]; intros lp H; simpl;
    [exact H|].
  pose proof (scraper_iteration_pages lp n Hn H) as Hstep.
  destruct (iteration lp) as [lp'|lp'|lp']; simpl in *;
    [apply IH | |]; exact Hstep.
Qed.

Hypothesis site_closed : links_within is_valid_doc_url site download.

Lemma scraper_iteration_progress (lp lp' : Loop) :
  once_inv lp -> site_inv lp ->
  iteration lp = Next lp' ->
  once_inv lp' /\ site_inv lp' /\
  (List.length (fetched lp) < List.length (fetched lp'))%nat.
Proof.
  intros Honce Hsite Hnext.
  pose proof (scraper_iteration_once Pattern search base_url include_assets
                max_depth max_pages concurrent_requests url_include_regex
                url_exclude_regex download stop_event as_completed
                save_content lp Honce) as Honce'.
  rewrite Hnext in Honce'. simpl in Honce'. split; [exact Honce'|].
  unfold Scraper.iteration in Hnext.
  destruct (_ && _ && _); [|discriminate].
  destruct (stop_event (clock lp)); [discriminate|].
  pose proof (take_batch_split concurrent_requests (queue (tick lp))) as Hsplit.
  destruct (take_batch concurrent_requests (queue (tick lp))) as [batch rest].
  simpl in Hsplit.
  assert (Hstart : site_inv (mkLoop (self (tick lp)) rest (stopping (tick lp))
                               (links_var (tick lp)) (clock (tick lp))
                               (fetched (tick lp) ++ batch))).
  { destruct Hsite as [Hu Hl]. split; [|exact Hl].
    simpl. rewrite <- app_assoc, Hsplit. exact Hu. }
  destruct batch as [|e batch]; [discriminate|].
  match type of Hnext with
  | context [process_all ?l ?j] =>
      pose proof (scraper_process_all_site j l) as Hall;
      pose proof (scraper_process_all_fetched j l) as Hfetched;
      destruct (process_all l j) as [lp1|lp1|lp1]
  end; try discriminate.
  destruct (stop_event (clock lp1)); [discriminate|].
  injection Hnext as <-. simpl in Hall, Hfetched. split.
  - apply (scraper_frame_site lp1); auto.
    apply Hall; [|exact Hstart].
    intros [e' d] Hjob title html links Hres.
    apply (Permutation_in _ (as_completed_all _ _)) in Hjob.
    apply (scraper_submit_jobs (List.length (fetched lp)) (e :: batch)) in Hjob
      as [k' Hk].
    simpl in Hk, Hres. subst d.
    apply (site_closed k' (fst e') title html links Hres).
  - simpl. rewrite Hfetched, List.length_app. simpl. lia.
Qed.

Lemma scraper_fetched_within_site (lp : Loop) :
  once_inv lp -> site_inv lp ->
  (List.length (fetched lp) <= List.length site)%nat.
Proof.
  intros [Hnd _] [Hsite _]. unfold urls in Hnd. rewrite map_app in Hnd.
  apply NoDup_app in Hnd as [Hnd _].
  assert (Hlen : List.length (urls (fetched lp)) = List.length (fetched lp))
    by apply List.length_map.
  rewrite <- Hlen.
  apply List.NoDup_incl_length; [apply NoDup_ListNoDup, Hnd|].
  intros url Hurl. apply Hsite. unfold urls. rewrite map_app.
  apply in_or_app. left. exact Hurl.
Qed.

Lemma scraper_while_loop_ends (fuel : nat) (lp : Loop) :
  once_inv lp -> site_inv lp ->
  (List.length site < fuel + List.length (fetched lp))%nat ->
  match while_loop fuel lp with Next _ => False | _ => True end.
Proof.
  revert lp. induction fuel as [|fuel IH]; intros lp Honce Hsite Hfuel.
  - pose proof (scraper_fetched_within_site lp Honce Hsite). lia.
  - simpl. destruct (iteration lp) as [lp'|lp'|lp'] eqn:Hstep; [|exact I..].
    destruct (scraper_iteration_progress lp lp' Honce Hsite Hstep)
      as (Ho & Hs & Hlen).
    apply IH; [exact Ho | exact Hs | lia].
Qed.

End ScraperLogFacts.

(** X10: when no start URL is listed twice, [DocumentationScraper.crawl]
    hands no URL to [download_page] twice, whatever the site, the stop
    event and the order of completion. *)
Theorem scraper_fetches_no_url_twice
        (Pattern : Type) (search : Pattern -> string -> bool)
        (base_url : string) (include_assets : bool) (max_depth : Z)
        (max_pages : option Z) (concurrent_requests : Z)
        (url_include_regex url_exclude_regex : list Pattern)
        (download : nat -> string -> Scraper.PageDownload)
        (stop_event : nat -> bool)
        (as_completed : nat -> list (Entry * Scraper.PageDownload) ->
                        list (Entry * Scraper.PageDownload))
        (save_content : string -> string -> string -> bool)
        (fuel : nat) (s : Scraper.State) (start_urls : list string) :
  NoDup start_urls ->
  NoDup (urls (Scraper.fetched (Scraper.loop_of
    (Scraper.crawl Pattern search base_url include_assets max_depth max_pages
                   concurrent_requests url_include_regex url_exclude_regex
                   download stop_event as_completed save_content fuel s
                   start_urls)))).
Proof. apply scraper_crawl_once. Qed.

(** [scraper_fetches_no_url_twice] on the two-page site, seeded with
    both of its URLs. *)
Lemma scraper_fetches_no_url_twice_witness :
  NoDup [Scenario.root; Scenario.intro] /\
  NoDup (urls (Scraper.fetched (Scraper.loop_of
    (Scraper.crawl string Scenario.literal_search Scenario.root false 3 None 1
                   [] [] Scenario.two_pages Scenario.never Scenario.in_order
                   Scenario.save_fails 10 Scenario.fresh_scraper
                   [Scenario.root; Scenario.intro])))).
Proof.
  assert (H : NoDup [Scenario.root; Scenario.intro]).
  { apply NoDup_cons. split; [|apply NoDup_singleton].
    intros Hin. apply list_elem_of_singleton in Hin. discriminate Hin. }
  split; [exact H|].
  apply (scraper_fetches_no_url_twice string Scenario.literal_search
           Scenario.root false 3 None 1 [] [] Scenario.two_pages
           Scenario.never Scenario.in_order Scenario.save_fails 10
           Scenario.fresh_scraper [Scenario.root; Scenario.intro] H).
Defined.

(** X11: every URL [DocumentationScraper.crawl] hands to
    [download_page] or holds in its queue has passed
    [is_valid_doc_url], start URLs included. *)
Theorem scraper_fetches_only_valid_doc_urls
        (Pattern : Type) (search : Pattern -> string -> bool)
        (base_url : string) (include_assets : bool) (max_depth : Z)
        (max_pages : option Z) (concurrent_requests : Z)
        (url_include_regex url_exclude_regex : list Pattern)
        (download : nat -> string -> Scraper.PageDownload)
        (stop_event : nat -> bool)
        (as_completed : nat -> list (Entry * Scraper.PageDownload) ->
                        list (Entry * Scraper.PageDownload))
        (save_content : string -> string -> string -> bool)
        (fuel : nat) (s : Scraper.State) (start_urls : list string) :
  let lp := Scraper.loop_of
    (Scraper.crawl Pattern search base_url include_assets max_depth max_pages
                   concurrent_requests url_include_regex url_exclude_regex
                   download stop_event as_completed save_content fuel s
                   start_urls) in
  Forall (fun e : Entry =>
            Scraper.is_valid_doc_url Pattern search base_url include_assets
                                     url_include_regex url_exclude_regex
                                     (fst e) = true)
         (Scraper.fetched lp ++ Scraper.queue lp).
Proof. cbv zeta. apply scraper_crawl_valid. Qed.

(** X12: [DocumentationScraper.crawl] never records a failure:
    [failed_urls] is cleared at the start and nothing writes to it, so
    it is empty when the crawl ends and the report of failed URLs is
    never printed. *)
Theorem scraper_records_no_failure
        (Pattern : Type) (search : Pattern -> string -> bool)
        (base_url : string) (include_assets : bool) (max_depth : Z)
        (max_pages : option Z) (concurrent_requests : Z)
        (url_include_regex url_exclude_regex : list Pattern)
        (download : nat -> string -> Scraper.PageDownload)
        (stop_event : nat -> bool)
        (as_completed : nat -> list (Entry * Scraper.PageDownload) ->
                        list (Entry * Scraper.PageDownload))
        (save_content : string -> string -> string -> bool)
        (fuel : nat) (s : Scraper.State) (start_urls : list string) :
  Scraper.failed_urls (Scraper.self (Scraper.loop_of
    (Scraper.crawl Pattern search base_url include_assets max_depth max_pages
                   concurrent_requests url_include_regex url_exclude_regex
                   download stop_event as_completed save_content fuel s
                   start_urls)))
  = ∅.
Proof. apply scraper_crawl_no_failures. Qed.

(** X13: when the download of the start URL ends in
    [(None, None, None)] (a 404) or in a re-raised [HTTPError], and
    [max_depth >= 1], [DocumentationScraper.crawl] does not return: the
    loop over [links] raises in the first batch, with the start URL
    marked visited and no page counted. *)
Theorem failed_start_page_aborts_crawl
        (Pattern : Type) (search : Pattern -> string -> bool)
        (base_url : string) (include_assets : bool) (max_depth : Z)
        (max_pages : option Z) (concurrent_requests : Z)
        (url_include_regex url_exclude_regex : list Pattern)
        (download : nat -> string -> Scraper.PageDownload)
        (stop_event : nat -> bool)
        (as_completed : nat -> list (Entry * Scraper.PageDownload) ->
                        list (Entry * Scraper.PageDownload))
        (save_content : string -> string -> string -> bool)
        (fuel : nat) (s : Scraper.State) :
  Scraper.is_valid_doc_url Pattern search base_url include_assets
                           url_include_regex url_exclude_regex base_url
  = true ->
  0 < max_depth -> 1 <= concurrent_requests ->
  under_cap max_pages 0 = true ->
  stop_event 0%nat = false -> stop_event 1%nat = false ->
  (forall i jobs, Permutation (as_completed i jobs) jobs) ->
  Scraper.pd_result (download 0%nat base_url) = Scraper.NotFound \/
  Scraper.pd_result (download 0%nat base_url) = Scraper.Raised ->
  exists lp,
    Scraper.crawl Pattern search base_url include_assets max_depth max_pages
                  concurrent_requests url_include_regex url_exclude_regex
                  download stop_event as_completed save_content (S fuel) s []
    = Scraper.Crash lp /\
    Scraper.visited (Scraper.self lp) = {[base_url]} /\
    Scraper.pages_downloaded (Scraper.self lp) = 0.
Proof.
  intros Hvalid Hdepth Hc Hcap Hs0 Hs1 Hperm Hres.
  unfold Scraper.crawl, Scraper.start. simpl List.filter. rewrite Hvalid.
  simpl map.
  unfold Scraper.while_loop, Scraper.iteration.
  simpl Scraper.queue. simpl List.length.
  simpl Scraper.pages_downloaded. rewrite Hcap.
  simpl Scraper.stopping. simpl Scraper.clock.
  rewrite Hs0. cbn [Nat.eqb negb andb].
  unfold take_batch. simpl List.length.
  replace (Z.to_nat (Z.min concurrent_requests (Z.of_nat 1))) with 1%nat by lia.
  cbn [firstn skipn Scraper.fetched Scraper.tick List.length Scraper.submit
       fst app].
  match goal with
  | |- context [as_completed ?i ?jobs] =>
      pose proof (Hperm i jobs) as Hp;
      apply Permutation_sym, Permutation_length_1_inv in Hp; rewrite Hp
  end.
  cbn [Scraper.process_all Scraper.process].
  cbn [Scraper.with_self Scraper.clock Scraper.tick Scraper.self Scraper.queue
       Scraper.stopping Scraper.links_var Scraper.fetched].
  rewrite Hs1. unfold Scraper.enqueue_links.
  replace (0 <? max_depth) with true by (symmetry; lia).
  destruct Hres as [Hres | Hres]; rewrite Hres;
    cbn [Scraper.with_links Scraper.with_self Scraper.tick Scraper.links_var
         Scraper.self Scraper.queue Scraper.stopping Scraper.clock
         Scraper.fetched Scraper.drain fold_left];
    eexists; (split; [reflexivity|]); simpl;
    (split; [apply union_empty_r_L | reflexivity]).
Qed.

(** [failed_start_page_aborts_crawl] on a site whose server answers
    every request with 404. *)
Lemma failed_start_page_aborts_crawl_witness :
  Scraper.pd_result (Cases.page_of Scenario.always_404 0 Scenario.root)
  = Scraper.NotFound /\
  exists lp,
    Scraper.crawl string Scenario.literal_search Scenario.root false 3 None 5
                  [] [] (Cases.page_of Scenario.always_404) Scenario.never
                  Scenario.in_order Scenario.save_fails 1
                  Scenario.fresh_scraper []
    = Scraper.Crash lp /\
    Scraper.visited (Scraper.self lp) = {[Scenario.root]} /\
    Scraper.pages_downloaded (Scraper.self lp) = 0.
Proof.
  split; [vm_compute; reflexivity|].
  apply (failed_start_page_aborts_crawl string Scenario.literal_search
           Scenario.root false 3 None 5 [] []
           (Cases.page_of Scenario.always_404) Scenario.never
           Scenario.in_order Scenario.save_fails 0 Scenario.fresh_scraper).
  - vm_compute. reflexivity.
  - lia.
  - lia.
  - reflexivity.
  - reflexivity.
  - reflexivity.
  - intros i jobs. apply Permutation_refl.
  - left. vm_compute. reflexivity.
Defined.

(** X14: with [max_pages = n], [pages_downloaded] never exceeds
    [max(0, n + concurrent_requests - 1)] in
    [DocumentationScraper.crawl] either. *)
Theorem scraper_page_count_bound
        (Pattern : Type) (search : Pattern -> string -> bool)
        (base_url : string) (include_assets : bool) (max_depth : Z)
        (max_pages : option Z) (concurrent_requests : Z)
        (url_include_regex url_exclude_regex : list Pattern)
        (download : nat -> string -> Scraper.PageDownload)
        (stop_event : nat -> bool)
        (as_completed : nat -> list (Entry * Scraper.PageDownload) ->
                        list (Entry * Scraper.PageDownload))
        (save_content : string -> string -> string -> bool)
        (fuel : nat) (s : Scraper.State) (start_urls : list string) (n : Z) :
  (forall i jobs, Permutation (as_completed i jobs) jobs) ->
  max_pages = Some n ->
  Scraper.pages_downloaded (Scraper.self (Scraper.loop_of
    (Scraper.crawl Pattern search base_url include_assets max_depth max_pages
                   concurrent_requests url_include_regex url_exclude_regex
                   download stop_event as_completed save_content fuel s
                   start_urls)))
  <= Z.max 0 (n + concurrent_requests - 1).
Proof.
  intros Hperm Hn. unfold Scraper.crawl.
  apply scraper_while_loop_pages; [exact Hperm | exact Hn |].
  simpl. lia.
Qed.

(** [scraper_page_count_bound] on the two-page site with
    [max_pages=1], [concurrent_requests=5] and every page saved. *)
Lemma scraper_page_count_bound_witness :
  Scraper.pages_downloaded (Scraper.self (Scraper.loop_of
    (Scraper.crawl string Scenario.literal_search Scenario.root false 3
                   (Some 1) 5 [] [] Scenario.two_pages Scenario.never
                   Scenario.in_order Cases.save_succeeds 10
                   Scenario.fresh_scraper [])))
  <= Z.max 0 (1 + 5 - 1).
Proof.
  apply (scraper_page_count_bound string Scenario.literal_search Scenario.root
           false 3 (Some 1) 5 [] [] Scenario.two_pages Scenario.never
           Scenario.in_order Cases.save_succeeds 10 Scenario.fresh_scraper []
           1).
  - intros i jobs. apply Permutation_refl.
  - reflexivity.
Defined.

(** X15: [DocumentationScraper.crawl] terminates on a finite site:
    when no start URL is listed twice and the start URLs and every
    valid link the downloads report lie in a list [site],
    [length site + 1] evaluations of the loop test are enough for the
    crawl to return or to raise. *)
Theorem scraper_crawl_ends_on_finite_site
        (Pattern : Type) (search : Pattern -> string -> bool)
        (base_url : string) (include_assets : bool) (max_depth : Z)
        (max_pages : option Z) (concurrent_requests : Z)
        (url_include_regex url_exclude_regex : list Pattern)
        (download : nat -> string -> Scraper.PageDownload)
        (stop_event : nat -> bool)
        (as_completed : nat -> list (Entry * Scraper.PageDownload) ->
                        list (Entry * Scraper.PageDownload))
        (save_content : string -> string -> string -> bool)
        (site : list string) (fuel : nat) (s : Scraper.State)
        (start_urls : list string) :
  (forall i jobs, Permutation (as_completed i jobs) jobs) ->
  ScraperLog.links_within
    (Scraper.is_valid_doc_url Pattern search base_url include_assets
                              url_include_regex url_exclude_regex)
    site download ->
  NoDup start_urls ->
  (forall url, In url (base_url :: start_urls) -> In url site) ->
  (List.length site < fuel)%nat ->
  match Scraper.crawl Pattern search base_url include_assets max_depth
                      max_pages concurrent_requests url_include_regex
                      url_exclude_regex download stop_event as_completed
                      save_content fuel s start_urls
  with
  | Scraper.Next _ => False
  | _ => True
  end.
Proof.
  intros Hperm Hsite Hseeds Hstart Hfuel. unfold Scraper.crawl.
  apply (scraper_while_loop_ends Pattern search base_url include_assets
           max_depth max_pages concurrent_requests url_include_regex
           url_exclude_regex download stop_event as_completed save_content
           site Hperm Hsite).
  - unfold Scraper.start, ScraperInv.once_inv, urls. simpl.
    rewrite map_map. simpl. rewrite map_id. split.
    + apply NoDup_ListNoDup, List.NoDup_filter, NoDup_ListNoDup.
      destruct start_urls; [apply NoDup_singleton | exact Hseeds].
    + intros url Hurl. apply elem_of_union_r, elem_of_list_to_set,
                         list_elem_of_In, Hurl.
  - unfold Scraper.start. split; simpl; [|discriminate].
    intros url Hurl. unfold urls in Hurl. rewrite map_map in Hurl.
    simpl in Hurl. rewrite map_id in Hurl.
    apply filter_In in Hurl as [Hurl _]. apply Hstart.
    destruct start_urls as [|u us].
    + destruct Hurl as [<- | []]. left. reflexivity.
    + right. exact Hurl.
  - simpl. lia.
Qed.

(** [scraper_crawl_ends_on_finite_site] on the two-page site. *)
Lemma scraper_crawl_ends_on_finite_site_witness :
  Scraper.returned
    (Scraper.crawl string Scenario.literal_search Scenario.root false 3 None 5
                   [] [] Scenario.two_pages Scenario.never Scenario.in_order
                   Scenario.save_fails 3 Scenario.fresh_scraper []) = true /\
  match Scraper.crawl string Scenario.literal_search Scenario.root false 3
                      None 5 [] [] Scenario.two_pages Scenario.never
                      Scenario.in_order Scenario.save_fails 3
                      Scenario.fresh_scraper []
  with
  | Scraper.Next _ => False
  | _ => True
  end.
Proof.
  split; [vm_compute; reflexivity|].
  apply (scraper_crawl_ends_on_finite_site string Scenario.literal_search
           Scenario.root false 3 None 5 [] [] Scenario.two_pages
           Scenario.never Scenario.in_order Scenario.save_fails
           [Scenario.root; Scenario.intro] 3 Scenario.fresh_scraper []).
  - intros i jobs. apply Permutation_refl.
  - intros k url title html links. unfold Scenario.two_pages. simpl.
    intros [= _ _ <-] link Hlink _.
    destruct (String.eqb url Scenario.root);
      [right; exact Hlink | destruct Hlink].
  - apply NoDup_nil_2.
  - intros url [<- | []]. left. reflexivity.
  - simpl. lia.
Defined.

(** ** The shape of parsed and rebuilt URLs *)

Section UrlFacts.
Import PyStr UrlLib UrlShape.

Ltac by_char c := destruct c as [[] [] [] [] [] [] [] []].

Lemma urlparse_unfold (url : string) :
  urlparse url =
  let ss := split_scheme url in
  let nr := after_scheme (snd ss) in
  let rf := match partition "#" (snd nr) with
            | Some (a, b) => (a, b)
            | None => (snd nr, EmptyString)
            end in
  let rq := match partition "?" (fst rf) with
            | Some (a, b) => (a, b)
            | None => (fst rf, EmptyString)
            end in
  let pp := if mem (fst ss) uses_params && has_char ";" (fst rq)
            then splitparams (fst rq) else (fst rq, EmptyString) in
  mkParseResult (fst ss) (fst nr) (fst pp) (snd pp) (snd rq) (snd rf).
Proof.
  unfold urlparse, after_scheme.
  destruct (split_scheme url) as [sch rest]. cbn [fst snd].
  repeat (match goal with
          | |- context [let '(a, b) := ?x in _] => destruct x as [? ?]
          end; cbn [fst snd]).
  reflexivity.
Qed.

Lemma urlparse_scheme (url : string) :
  scheme (urlparse url) = fst (split_scheme url).
Proof. rewrite urlparse_unfold. reflexivity. Qed.

Lemma urlparse_netloc (url : string) :
  netloc (urlparse url) = fst (after_scheme (snd (split_scheme url))).
Proof. rewrite urlparse_unfold. reflexivity. Qed.

Lemma append_cons (c : ascii) (a b : string) :
  (String c a ++ b)%string = String c (a ++ b).
Proof. reflexivity. Qed.

Lemma append_nil_l (a : string) : (EmptyString ++ a)%string = a.
Proof. reflexivity. Qed.

Lemma append_assoc (a b c : string) :
  ((a ++ b) ++ c)%string = (a ++ b ++ c)%string.
Proof.
  induction a as [|d a IH]; [reflexivity|].
  rewrite !append_cons, IH. reflexivity.
Qed.

Lemma append_nil_r (a : string) : (a ++ EmptyString)%string = a.
Proof.
  induction a as [|d a IH]; [reflexivity|].
  rewrite append_cons, IH. reflexivity.
Qed.

Ltac push_app := repeat (rewrite append_cons || rewrite append_nil_l).

(** *** Characters *)

Lemma lower_char_idem (c : ascii) : lower_char (lower_char c) = lower_char c.
Proof. by_char c; reflexivity. Qed.

Lemma lower_char_alpha (c : ascii) : is_alpha (lower_char c) = is_alpha c.
Proof. by_char c; reflexivity. Qed.

Lemma lower_char_scheme (c : ascii) :
  is_scheme_char (lower_char c) = is_scheme_char c.
Proof. by_char c; reflexivity. Qed.

Lemma scheme_char_plain (c : ascii) :
  is_scheme_char c = true ->
  Ascii.eqb ":" c = false /\ is_delimiter c = false.
Proof. by_char c; cbn; intros H; try discriminate H; split; reflexivity. Qed.

Lemma lower_idem (s : string) : lower (lower s) = lower s.
Proof.
  induction s as [|c s IH]; simpl; [reflexivity|].
  rewrite lower_char_idem, IH. reflexivity.
Qed.

Lemma lower_scheme_chars (s : string) :
  all_chars is_scheme_char (lower s) = all_chars is_scheme_char s.
Proof.
  induction s as [|c s IH]; simpl; [reflexivity|].
  rewrite lower_char_scheme, IH. reflexivity.
Qed.

Lemma scheme_chars_no_colon (s : string) :
  all_chars is_scheme_char s = true -> has_char ":" s = false.
Proof.
  induction s as [|c s IH]; [reflexivity|]. cbn [all_chars has_char].
  intros H. apply andb_true_iff in H as [Hc Hs].
  destruct (scheme_char_plain c Hc) as [-> _]. apply IH, Hs.
Qed.

(** *** [split_scheme] and [splitnetloc] *)

Lemma partition_head (c d : ascii) (s a b : string) :
  partition c (String d s) = Some (a, b) ->
  a = EmptyString \/ exists a', a = String d a'.
Proof.
  simpl. destruct (Ascii.eqb c d).
  - intros [= <- _]. left. reflexivity.
  - destruct (partition c s) as [[a' b']|]; [|discriminate].
    intros [= <- _]. right. exists a'. reflexivity.
Qed.

Lemma split_scheme_wf (url : string) :
  scheme_wf (fst (split_scheme url)) = true.
Proof.
  unfold split_scheme.
  destruct (partition ":" url) as [[[|c0 pre] rest]|]; try reflexivity.
  destruct (is_alpha c0 && all_chars is_scheme_char (String c0 pre)) eqn:H;
    [|reflexivity].
  apply andb_true_iff in H as [Ha Hs]. cbn [fst]. unfold scheme_wf.
  rewrite lower_scheme_chars, Hs, lower_idem, String.eqb_refl.
  simpl. rewrite lower_char_alpha. exact Ha.
Qed.

Lemma split_scheme_build (sch rest : string) :
  scheme_wf sch = true -> nonempty sch = true ->
  split_scheme (sch ++ String ":" rest) = (sch, rest).
Proof.
  unfold scheme_wf. intros H Hne.
  apply andb_true_iff in H as [H Ha]. apply andb_true_iff in H as [Hs Hl].
  apply String.eqb_eq in Hl. unfold split_scheme.
  rewrite (partition_app ":" sch rest (scheme_chars_no_colon sch Hs)).
  destruct sch as [|c0 pre]; [discriminate|].
  rewrite Ha, Hs, Hl. reflexivity.
Qed.

Lemma split_scheme_not_alpha (c : ascii) (s : string) :
  is_alpha c = false -> split_scheme (String c s) = (EmptyString, String c s).
Proof.
  intros Hc. unfold split_scheme.
  destruct (partition ":" (String c s)) as [[a b]|] eqn:Hp; [|reflexivity].
  destruct (partition_head _ _ _ _ _ Hp) as [-> | [a' ->]]; [reflexivity|].
  rewrite Hc. reflexivity.
Qed.

Lemma splitnetloc_wf (s : string) :
  host_wf (fst (splitnetloc s)) = true /\ tail_wf (snd (splitnetloc s)) = true.
Proof.
  induction s as [|c s [IHh IHt]]; simpl; [split; reflexivity|].
  fold (is_delimiter c). destruct (is_delimiter c) eqn:Hc.
  - split; [reflexivity | exact Hc].
  - destruct (splitnetloc s) as [h r]. simpl in *. unfold host_wf. simpl.
    rewrite Hc. split; [exact IHh | exact IHt].
Qed.

Lemma splitnetloc_build (h t : string) :
  host_wf h = true -> tail_wf t = true -> splitnetloc (h ++ t) = (h, t).
Proof.
  intros Hh Ht. induction h as [|c h IH]; simpl.
  - destruct t as [|c t]; [reflexivity|]. simpl in Ht |- *.
    fold (is_delimiter c). rewrite Ht. reflexivity.
  - unfold host_wf in Hh. simpl in Hh. apply andb_true_iff in Hh as [Hc Hh].
    apply negb_true_iff in Hc. fold (is_delimiter c). rewrite Hc.
    rewrite (IH Hh). reflexivity.
Qed.

Lemma after_scheme_wf (rest : string) :
  host_wf (fst (after_scheme rest)) = true.
Proof.
  unfold after_scheme.
  destruct rest as [|c [|d r]]; [reflexivity | by_char c; reflexivity |].
  by_char c; try reflexivity; by_char d; try reflexivity.
  apply (proj1 (splitnetloc_wf r)).
Qed.

Lemma urlparse_scheme_wf (url : string) :
  scheme_wf (scheme (urlparse url)) = true.
Proof. rewrite urlparse_scheme. apply split_scheme_wf. Qed.

Lemma urlparse_netloc_wf (url : string) :
  host_wf (netloc (urlparse url)) = true.
Proof. rewrite urlparse_netloc. apply after_scheme_wf. Qed.

(** *** Parsing what [urlunsplit] wrote *)

Lemma urlparse_host_built (sch nl tail : string) :
  scheme_wf sch = true -> host_wf nl = true -> tail_wf tail = true ->
  scheme (urlparse ((if nonempty sch then sch ++ ":" else EmptyString)
                    ++ "//" ++ nl ++ tail)%string) = sch /\
  netloc (urlparse ((if nonempty sch then sch ++ ":" else EmptyString)
                    ++ "//" ++ nl ++ tail)%string) = nl.
Proof.
  intros Hs Hn Ht. rewrite urlparse_scheme, urlparse_netloc.
  destruct (nonempty sch) eqn:Hne.
  - rewrite append_assoc. push_app.
    rewrite (split_scheme_build sch _ Hs Hne). cbn [fst snd after_scheme].
    rewrite (splitnetloc_build nl tail Hn Ht). split; reflexivity.
  - destruct sch; [|discriminate]. push_app.
    rewrite (split_scheme_not_alpha "/" _ eq_refl). cbn [fst snd after_scheme].
    rewrite (splitnetloc_build nl tail Hn Ht). split; reflexivity.
Qed.

Lemma startswith_slash (s : string) :
  startswith s "/" = true -> tail_wf s = true.
Proof.
  unfold startswith. destruct s as [|c s]; [reflexivity|].
  cbn [String.prefix].
  destruct (ascii_dec "/" c) as [<- | Hc]; [reflexivity | discriminate].
Qed.

Lemma urlunsplit_shape (sch nl url q frag : string) :
  nonempty nl = true ->
  exists tail, tail_wf tail = true /\
    urlunsplit sch nl url q frag
    = ((if nonempty sch then sch ++ ":" else EmptyString) ++ "//" ++ nl ++ tail)%string.
Proof.
  intros Hnl. unfold urlunsplit. rewrite Hnl. cbn [orb].
  set (u := if nonempty url && negb (startswith url "/")
            then ("/" ++ url)%string else url).
  assert (Hu : tail_wf u = true).
  { unfold u. destruct url as [|c url]; [reflexivity|]. cbn [nonempty andb].
    destruct (startswith (String c url) "/") eqn:Hsl; simpl negb; cbv iota.
    - apply startswith_slash. exact Hsl.
    - reflexivity. }
  set (tq := if nonempty q then (u ++ "?" ++ q)%string else u).
  assert (Htq : tail_wf tq = true).
  { unfold tq. destruct (nonempty q); [|exact Hu].
    destruct u; [reflexivity | exact Hu]. }
  exists (if nonempty frag then (tq ++ "#" ++ frag)%string else tq). split.
  - destruct (nonempty frag); [|exact Htq].
    destruct tq; [reflexivity | exact Htq].
  - unfold tq.
    destruct (nonempty sch), (nonempty q), (nonempty frag); simpl;
      rewrite ?append_assoc; simpl; rewrite ?append_assoc; reflexivity.
Qed.

Lemma urlparse_urlunsplit_host (sch nl url q frag : string) :
  scheme_wf sch = true -> host_wf nl = true -> nonempty nl = true ->
  scheme (urlparse (urlunsplit sch nl url q frag)) = sch /\
  netloc (urlparse (urlunsplit sch nl url q frag)) = nl.
Proof.
  intros Hs Hn Hne.
  destruct (urlunsplit_shape sch nl url q frag Hne) as (tail & Ht & ->).
  apply urlparse_host_built; assumption.
Qed.

Lemma urlunsplit_nonempty (sch nl url q frag : string) :
  nonempty nl = true -> nonempty (urlunsplit sch nl url q frag) = true.
Proof.
  intros Hnl. destruct (urlunsplit_shape sch nl url q frag Hnl) as (t & _ & ->).
  destruct (nonempty sch) eqn:Hs.
  - destruct sch; [discriminate | reflexivity].
  - reflexivity.
Qed.

Lemma netloc_nonempty_url (url : string) :
  nonempty (netloc (urlparse url)) = true -> nonempty url = true.
Proof. destruct url; [discriminate | reflexivity]. Qed.

Lemma is_valid_url_parts (a b : string) :
  nonempty a = true -> nonempty b = true ->
  scheme (urlparse a) = scheme (urlparse b) ->
  netloc (urlparse a) = netloc (urlparse b) ->
  Utils.is_valid_url a = Utils.is_valid_url b.
Proof.
  intros Ha Hb Hs Hn. unfold Utils.is_valid_url. rewrite Ha, Hb, Hs, Hn.
  reflexivity.
Qed.

Lemma same_netloc_same_domain (a b : string) :
  netloc (urlparse a) = netloc (urlparse b) -> Utils.is_same_domain a b = true.
Proof.
  intros H. unfold Utils.is_same_domain. rewrite H, String.eqb_refl.
  reflexivity.
Qed.

(** What [urlunparse] writes for a record that keeps the scheme and
    the host of a parsed URL parses back to that scheme and host. *)
Lemma rebuilt_keeps_host (url path' params' query' fragment' : string) :
  nonempty (netloc (urlparse url)) = true ->
  scheme (urlparse (urlunparse
    (mkParseResult (scheme (urlparse url)) (netloc (urlparse url)) path'
                   params' query' fragment')))
  = scheme (urlparse url) /\
  netloc (urlparse (urlunparse
    (mkParseResult (scheme (urlparse url)) (netloc (urlparse url)) path'
                   params' query' fragment')))
  = netloc (urlparse url) /\
  Utils.is_valid_url (urlunparse
    (mkParseResult (scheme (urlparse url)) (netloc (urlparse url)) path'
                   params' query' fragment'))
  = Utils.is_valid_url url /\
  Utils.is_same_domain (urlunparse
    (mkParseResult (scheme (urlparse url)) (netloc (urlparse url)) path'
                   params' query' fragment')) url
  = true.
Proof.
  intros Hnl.
  pose proof (urlparse_scheme_wf url) as Hs.
  pose proof (urlparse_netloc_wf url) as Hh.
  pose proof (netloc_nonempty_url url Hnl) as Hu.
  unfold urlunparse. cbn [scheme netloc path params query fragment].
  match goal with
  | |- context [urlunsplit ?s ?n ?u ?q ?f] =>
      destruct (urlparse_urlunsplit_host s n u q f Hs Hh Hnl) as [Hs' Hn'];
      pose proof (urlunsplit_nonempty s n u q f Hnl) as Hne
  end.
  split; [exact Hs'|]. split; [exact Hn'|]. split.
  - apply is_valid_url_parts; assumption.
  - apply same_netloc_same_domain. exact Hn'.
Qed.

(** *** Where a character can occur *)

Lemma partition_before (c : ascii) (s a b : string) :
  partition c s = Some (a, b) -> has_char c a = false.
Proof.
  revert a b. induction s as [|d s IH]; intros a b; [discriminate|].
  cbn [partition]. destruct (Ascii.eqb c d) eqn:Hd.
  - intros [= <- _]. reflexivity.
  - destruct (partition c s) as [[a' b']|]; [|discriminate].
    intros [= <- _]. cbn [has_char]. rewrite Hd. apply (IH a' b'). reflexivity.
Qed.

Lemma partition_none (c : ascii) (s : string) :
  partition c s = None <-> has_char c s = false.
Proof.
  induction s as [|d s IH]; [split; reflexivity|].
  cbn [partition has_char]. destruct (Ascii.eqb c d); [split; discriminate|].
  cbn [orb]. rewrite <- IH.
  destruct (partition c s) as [[a b]|]; split; congruence.
Qed.

Lemma partition_chars (c d : ascii) (s a b : string) :
  partition d s = Some (a, b) -> has_char c s = false ->
  has_char c a = false /\ has_char c b = false.
Proof.
  revert a b. induction s as [|e s IH]; intros a b; [discriminate|].
  cbn [partition has_char]. intros Hp Hs.
  apply orb_false_iff in Hs as [He Hs].
  destruct (Ascii.eqb d e).
  - injection Hp as <- <-. split; [reflexivity | exact Hs].
  - destruct (partition d s) as [[a' b']|]; [|discriminate].
    injection Hp as <- <-. destruct (IH a' b' eq_refl Hs) as [Ha Hb].
    cbn [has_char]. rewrite He, Ha. split; [reflexivity | exact Hb].
Qed.

Lemma split_chars (c d : ascii) (s : string) :
  has_char c s = false ->
  List.Forall (fun w => has_char c w = false) (split d s).
Proof.
  induction s as [|e s IH]; cbn [split has_char].
  - intros _. constructor; [reflexivity | constructor].
  - intros H. apply orb_false_iff in H as [He Hs]. specialize (IH Hs).
    destruct (Ascii.eqb d e).
    + constructor; [reflexivity | exact IH].
    + destruct (split d s) as [|w ws].
      * constructor; [cbn [has_char]; rewrite He; reflexivity | constructor].
      * inversion IH as [|? ? Hw Hws]; subst.
        constructor; [cbn [has_char]; rewrite He, Hw; reflexivity | exact Hws].
Qed.

Lemma split_separator (c : ascii) (s : string) :
  List.Forall (fun w => has_char c w = false) (split c s).
Proof.
  induction s as [|d s IH]; cbn [split].
  - constructor; [reflexivity | constructor].
  - destruct (Ascii.eqb c d) eqn:Hd.
    + constructor; [reflexivity | exact IH].
    + destruct (split c s) as [|w ws].
      * constructor; [cbn [has_char]; rewrite Hd; reflexivity | constructor].
      * inversion IH as [|? ? Hw Hws]; subst.
        constructor; [cbn [has_char]; rewrite Hd, Hw; reflexivity | exact Hws].
Qed.

Lemma split_not_nil (c : ascii) (s : string) : split c s <> [].
Proof.
  destruct s as [|d s]; cbn [split]; [discriminate|].
  destruct (Ascii.eqb c d); [discriminate|].
  destruct (split c s); discriminate.
Qed.

Lemma join_chars (c : ascii) (sep : string) (l : list string) :
  has_char c sep = false ->
  List.Forall (fun w => has_char c w = false) l ->
  has_char c (join sep l) = false.
Proof.
  intros Hsep. induction l as [|w l IH]; intros Hl; [reflexivity|].
  inversion Hl as [|? ? Hw Hl']; subst.
  destruct l as [|w' l]; [exact Hw|].
  change (has_char c (w ++ sep ++ join sep (w' :: l))%string = false).
  rewrite !has_char_app, Hw, Hsep, (IH Hl'). reflexivity.
Qed.

Lemma last_chars (c : ascii) (l : list string) :
  List.Forall (fun w => has_char c w = false) l ->
  has_char c (List.last l EmptyString) = false.
Proof.
  induction l as [|w l IH]; intros Hl; [reflexivity|].
  inversion Hl as [|? ? Hw Hl']; subst.
  destruct l as [|w' l]; [exact Hw|]. apply IH, Hl'.
Qed.

Lemma firstn_chars (c : ascii) (n : nat) (l : list string) :
  List.Forall (fun w => has_char c w = false) l ->
  List.Forall (fun w => has_char c w = false) (firstn n l).
Proof.
  revert l. induction n as [|n IH]; intros l H; [constructor|].
  destruct H as [|w l Hw Hl]; [constructor|].
  cbn [firstn]. constructor; [exact Hw | apply IH, Hl].
Qed.

Lemma splitparams_chars (c : ascii) (s : string) :
  Ascii.eqb c "/" = false -> has_char c s = false ->
  has_char c (fst (splitparams s)) = false /\
  has_char c (snd (splitparams s)) = false.
Proof.
  intros Hc Hs. unfold splitparams.
  pose proof (split_chars c "/" s Hs) as Hsegs.
  destruct (partition ";" (List.last (split "/" s) EmptyString))
    as [[a b]|] eqn:Hp; cbn [fst snd]; [|split; [exact Hs | reflexivity]].
  destruct (partition_chars c _ _ _ _ Hp (last_chars c _ Hsegs)) as [Ha Hb].
  split; [|exact Hb].
  apply join_chars; [cbn [has_char]; rewrite Hc; reflexivity|].
  apply List.Forall_app. split.
  - apply firstn_chars, Hsegs.
  - constructor; [exact Ha | constructor].
Qed.

Lemma scheme_no_hash (s : string) :
  scheme_wf s = true -> has_char "#" s = false.
Proof.
  unfold scheme_wf. intros H.
  apply andb_true_iff in H as [H _]. apply andb_true_iff in H as [H _].
  induction s as [|c s IH]; [reflexivity|]. cbn [all_chars has_char] in *.
  apply andb_true_iff in H as [Hc Hs]. rewrite (IH Hs), orb_false_r.
  clear -Hc. by_char c; try reflexivity; vm_compute in Hc; discriminate Hc.
Qed.

Lemma host_no_hash (h : string) :
  host_wf h = true -> has_char "#" h = false.
Proof.
  unfold host_wf. induction h as [|c h IH]; [reflexivity|].
  cbn [all_chars has_char]. intros H.
  apply andb_true_iff in H as [Hc Hh]. rewrite (IH Hh), orb_false_r.
  clear -Hc. by_char c; try reflexivity; vm_compute in Hc; discriminate Hc.
Qed.

Lemma urlparse_no_hash (url : string) :
  has_char "#" (scheme (urlparse url)) = false /\
  has_char "#" (netloc (urlparse url)) = false /\
  has_char "#" (path (urlparse url)) = false /\
  has_char "#" (params (urlparse url)) = false /\
  has_char "#" (query (urlparse url)) = false.
Proof.
  split; [apply scheme_no_hash, urlparse_scheme_wf|].
  split; [apply host_no_hash, urlparse_netloc_wf|].
  rewrite urlparse_unfold. cbv zeta. cbn [path params query].
  set (rest := snd (after_scheme (snd (split_scheme url)))).
  set (rf := match partition "#" rest with
             | Some (a, b) => (a, b)
             | None => (rest, EmptyString)
             end).
  assert (Hrf : has_char "#" (fst rf) = false).
  { unfold rf. destruct (partition "#" rest) as [[a b]|] eqn:Hp; cbn [fst].
    - eapply partition_before. exact Hp.
    - apply partition_none. exact Hp. }
  set (rq := match partition "?" (fst rf) with
             | Some (a, b) => (a, b)
             | None => (fst rf, EmptyString)
             end).
  assert (Hrq : has_char "#" (fst rq) = false /\ has_char "#" (snd rq) = false).
  { unfold rq. destruct (partition "?" (fst rf)) as [[a b]|] eqn:Hp; cbn [fst snd].
    - eapply partition_chars; [exact Hp | exact Hrf].
    - split; [exact Hrf | reflexivity]. }
  destruct Hrq as [Hq1 Hq2].
  destruct (mem _ uses_params && has_char ";" (fst rq)).
  - destruct (splitparams_chars "#" (fst rq) eq_refl Hq1) as [H1 H2].
    repeat split; assumption.
  - cbn [fst snd]. repeat split; try assumption.
Qed.

Lemma collapse_slashes_cons (c : ascii) (s : string) :
  collapse_slashes (String c s)
  = if Ascii.eqb c "/" && startswith s "/" then collapse_slashes s
    else String c (collapse_slashes s).
Proof.
  destruct (Ascii.eqb c "/") eqn:Hc.
  - apply Ascii.eqb_eq in Hc. subst c. destruct s as [|d s]; [reflexivity|].
    unfold startswith. cbn [String.prefix andb].
    destruct (ascii_dec "/" d) as [<- | Hd]; [destruct s; reflexivity|].
    by_char d; try reflexivity. contradiction Hd. reflexivity.
  - cbn [andb]. by_char c; try reflexivity. discriminate Hc.
Qed.

Lemma collapse_slashes_chars (c : ascii) (s : string) :
  has_char c s = false -> has_char c (collapse_slashes s) = false.
Proof.
  induction s as [|d s IH]; [reflexivity|].
  rewrite collapse_slashes_cons. cbn [has_char]. intros H.
  apply orb_false_iff in H as [Hd Hs].
  destruct (_ && _); [apply IH, Hs|].
  cbn [has_char]. rewrite Hd, (IH Hs). reflexivity.
Qed.

Lemma has_char_In (c : ascii) (s : string) :
  has_char c s = true <-> In c (list_ascii_of_string s).
Proof.
  induction s as [|d s IH]; cbn [has_char list_ascii_of_string].
  - split; [discriminate | intros []].
  - rewrite orb_true_iff, IH, Ascii.eqb_eq. cbn [In]. intuition congruence.
Qed.

Lemma has_char_rev (c : ascii) (s : string) :
  has_char c (rev s) = has_char c s.
Proof.
  apply eq_true_iff_eq. rewrite !has_char_In. unfold rev.
  rewrite list_ascii_of_string_of_list_ascii. symmetry. apply in_rev.
Qed.

Lemma lstrip_chars (c d : ascii) (s : string) :
  has_char c s = false -> has_char c (lstrip d s) = false.
Proof.
  induction s as [|e s IH]; [reflexivity|]. cbn [lstrip].
  destruct (Ascii.eqb d e); [|auto]. cbn [has_char]. intros H.
  apply orb_false_iff in H as [_ Hs]. apply IH, Hs.
Qed.

Lemma rstrip_chars (c d : ascii) (s : string) :
  has_char c s = false -> has_char c (rstrip d s) = false.
Proof.
  intros H. unfold rstrip. rewrite has_char_rev.
  apply lstrip_chars. rewrite has_char_rev. exact H.
Qed.

Lemma quote_plus_no_hash (s : string) : has_char "#" (quote_plus s) = false.
Proof.
  induction s as [|d s IH]; [reflexivity|].
  by_char d; cbn; exact IH.
Qed.

Lemma urlencode_no_hash (d : qdict) : has_char "#" (urlencode d) = false.
Proof.
  rewrite urlencode_pairs. apply join_chars; [reflexivity|].
  apply List.Forall_forall. intros w Hw.
  apply in_map_iff in Hw as (nv & <- & _). unfold encode_pair.
  rewrite !has_char_app, !quote_plus_no_hash. reflexivity.
Qed.

Lemma urlunsplit_no_hash (sch nl url q : string) :
  has_char "#" sch = false -> has_char "#" nl = false ->
  has_char "#" url = false -> has_char "#" q = false ->
  has_char "#" (urlunsplit sch nl url q EmptyString) = false.
Proof.
  intros Hs Hn Hu Hq. unfold urlunsplit. cbn [nonempty].
  repeat match goal with
         | |- context [if ?b then _ else _] => destruct b
         end;
    rewrite ?has_char_app, ?Hs, ?Hn, ?Hu, ?Hq; reflexivity.
Qed.

Lemma clean_url_no_hash (url : string) :
  has_char "#" (Utils.clean_url url) = false.
Proof.
  destruct (urlparse_no_hash url) as (Hs & Hn & Hp & Hm & _).
  unfold Utils.clean_url, urlunparse, Utils.clean_parts.
  cbn [scheme netloc path params query fragment].
  assert (Hpath : has_char "#"
                    (if negb (collapse_slashes (path (urlparse url)) =? "/")%string &&
                        endswith (collapse_slashes (path (urlparse url))) "/"
                     then rstrip "/" (collapse_slashes (path (urlparse url)))
                     else collapse_slashes (path (urlparse url))) = false).
  { destruct (_ && _); [apply rstrip_chars|]; apply collapse_slashes_chars, Hp. }
  apply urlunsplit_no_hash; try assumption; [|apply urlencode_no_hash].
  destruct (nonempty (params (urlparse url))); [|exact Hpath].
  rewrite !has_char_app, Hpath, Hm. reflexivity.
Qed.


Lemma split_scheme_rest_chars (c : ascii) (url : string) :
  has_char c url = false -> has_char c (snd (split_scheme url)) = false.
Proof.
  intros H. unfold split_scheme.
  destruct (partition ":" url) as [[[|c0 pre] rest]|] eqn:Hp; try exact H.
  destruct (_ && _); [|exact H]. cbn [snd].
  apply (partition_chars c _ _ _ _ Hp H).
Qed.

Lemma splitnetloc_rest_chars (c : ascii) (s : string) :
  has_char c s = false -> has_char c (snd (splitnetloc s)) = false.
Proof.
  induction s as [|d s IH]; [reflexivity|]. cbn [splitnetloc]. intros H.
  destruct (_ || _ || _); [exact H|].
  cbn [has_char] in H. apply orb_false_iff in H as [_ Hs]. specialize (IH Hs).
  destruct (splitnetloc s) as [h r]. exact IH.
Qed.

Lemma after_scheme_rest_chars (c : ascii) (rest : string) :
  has_char c rest = false -> has_char c (snd (after_scheme rest)) = false.
Proof.
  intros H. unfold after_scheme.
  destruct rest as [|a [|b r]]; [reflexivity | by_char a; exact H |].
  assert (Hr : has_char c (snd (splitnetloc r)) = false).
  { apply splitnetloc_rest_chars. cbn [has_char] in H.
    apply orb_false_iff in H as [_ H]. apply orb_false_iff in H as [_ H].
    exact H. }
  by_char a; try exact H; by_char b; try exact H; exact Hr.
Qed.

(** A URL without [#] parses to an empty fragment. *)
Lemma no_hash_no_fragment (url : string) :
  has_char "#" url = false -> fragment (urlparse url) = EmptyString.
Proof.
  intros H. rewrite urlparse_unfold. cbv zeta. cbn [fragment].
  pose proof (after_scheme_rest_chars "#" _
                (split_scheme_rest_chars "#" url H)) as Hrest.
  apply partition_none in Hrest. rewrite Hrest. reflexivity.
Qed.

(** *** Slashes *)

Lemma startswith_char (c d : ascii) (s : string) :
  startswith (String c s) (String d EmptyString) = Ascii.eqb d c.
Proof.
  unfold startswith. cbn [String.prefix].
  destruct (ascii_dec d c) as [-> | Hn].
  - rewrite Ascii.eqb_refl. destruct s; reflexivity.
  - symmetry. apply Ascii.eqb_neq. exact Hn.
Qed.

Lemma collapse_slashes_head (s : string) :
  startswith (collapse_slashes s) "/" = startswith s "/".
Proof.
  induction s as [|c s IH]; [reflexivity|].
  rewrite collapse_slashes_cons.
  destruct (Ascii.eqb c "/") eqn:Hc; cbn [andb];
    [|rewrite !startswith_char; reflexivity].
  apply Ascii.eqb_eq in Hc. subst c.
  destruct (startswith s "/") eqn:Hs; [|rewrite !startswith_char; reflexivity].
  rewrite IH, startswith_char. reflexivity.
Qed.

Lemma collapse_slashes_no_double (s : string) :
  contains (collapse_slashes s) "//" = false.
Proof.
  induction s as [|c s IH]; [reflexivity|].
  rewrite collapse_slashes_cons.
  destruct (Ascii.eqb c "/" && startswith s "/") eqn:Hdouble; [exact IH|].
  cbn [contains]. rewrite IH, orb_false_r.
  unfold startswith at 1. cbn [String.prefix].
  destruct (ascii_dec "/" c) as [<- | Hc]; [|reflexivity].
  rewrite Ascii.eqb_refl in Hdouble. cbn [andb] in Hdouble.
  pose proof (collapse_slashes_head s) as Hhead. unfold startswith in *.
  rewrite Hhead. exact Hdouble.
Qed.

Lemma list_ascii_app (a b : string) :
  list_ascii_of_string (a ++ b) = list_ascii_of_string a ++ list_ascii_of_string b.
Proof.
  induction a as [|c a IH]; [reflexivity|].
  rewrite append_cons. cbn [list_ascii_of_string]. rewrite IH. reflexivity.
Qed.

Lemma string_of_list_app (x y : list ascii) :
  string_of_list_ascii (x ++ y)
  = (string_of_list_ascii x ++ string_of_list_ascii y)%string.
Proof.
  induction x as [|c x IH]; [reflexivity|].
  cbn [app string_of_list_ascii]. rewrite IH. reflexivity.
Qed.

Lemma rev_involutive (s : string) : rev (rev s) = s.
Proof.
  unfold rev. rewrite list_ascii_of_string_of_list_ascii, List.rev_involutive.
  apply string_of_list_ascii_of_string.
Qed.

Lemma rev_append (a b : string) : rev (a ++ b) = (rev b ++ rev a)%string.
Proof.
  unfold rev. rewrite list_ascii_app, List.rev_app_distr.
  apply string_of_list_app.
Qed.

Lemma lstrip_split (c : ascii) (s : string) :
  exists k, s = (k ++ lstrip c s)%string.
Proof.
  induction s as [|d s [k IH]]; [exists EmptyString; reflexivity|].
  cbn [lstrip]. destruct (Ascii.eqb c d).
  - exists (String d k). rewrite append_cons, <- IH. reflexivity.
  - exists EmptyString. reflexivity.
Qed.

Lemma rstrip_split (c : ascii) (s : string) :
  exists t, s = (rstrip c s ++ t)%string.
Proof.
  destruct (lstrip_split c (rev s)) as [k Hk].
  exists (rev k). unfold rstrip. rewrite <- rev_append, <- Hk.
  symmetry. apply rev_involutive.
Qed.

Lemma prefix_app (p a b : string) :
  String.prefix p a = true -> String.prefix p (a ++ b) = true.
Proof.
  revert a. induction p as [|c p IH]; intros a.
  - intros _. destruct (a ++ b)%string; reflexivity.
  - destruct a as [|d a]; [discriminate|].
    rewrite append_cons. cbn [String.prefix].
    destruct (ascii_dec c d); [apply IH | discriminate].
Qed.

Lemma contains_app (a b sub : string) :
  contains (a ++ b) sub = false -> contains a sub = false.
Proof.
  induction a as [|c a IH].
  - destruct sub as [|d sub]; [|reflexivity].
    destruct b; discriminate.
  - rewrite append_cons. cbn [contains]. intros H.
    apply orb_false_iff in H as [Hp Hc].
    rewrite (IH Hc), orb_false_r. unfold startswith in *.
    destruct (String.prefix sub (String c a)) eqn:Hpre; [|reflexivity].
    rewrite <- Hp. symmetry.
    apply (prefix_app sub (String c a) b Hpre).
Qed.

Lemma lstrip_head (c : ascii) (s : string) :
  String.prefix (String c EmptyString) (lstrip c s) = false.
Proof.
  induction s as [|d s IH]; [reflexivity|]. cbn [lstrip].
  destruct (Ascii.eqb c d) eqn:Hd; [exact IH|].
  cbn [String.prefix]. destruct (ascii_dec c d) as [-> | _]; [|reflexivity].
  rewrite Ascii.eqb_refl in Hd. discriminate Hd.
Qed.

Lemma rstrip_tail (c : ascii) (s : string) :
  endswith (rstrip c s) (String c EmptyString) = false.
Proof.
  unfold endswith, rstrip. rewrite rev_involutive.
  change (rev (String c EmptyString)) with (String c EmptyString).
  apply lstrip_head.
Qed.

End UrlFacts.



(** X17: [clean_url], and [_normalize_url] after its [urljoin], keep
    the scheme and the host of a URL that has a host: parsing the
    result gives the same scheme and netloc, so the result is a valid
    URL exactly when the input is, and is on the same domain. *)
Theorem cleaning_keeps_scheme_and_host (url : string) :
  UrlLib.nonempty (UrlLib.netloc (UrlLib.urlparse url)) = true ->
  (UrlLib.scheme (UrlLib.urlparse (Utils.clean_url url))
   = UrlLib.scheme (UrlLib.urlparse url) /\
   UrlLib.netloc (UrlLib.urlparse (Utils.clean_url url))
   = UrlLib.netloc (UrlLib.urlparse url) /\
   Utils.is_valid_url (Utils.clean_url url) = Utils.is_valid_url url /\
   Utils.is_same_domain (Utils.clean_url url) url = true) /\
  (UrlLib.scheme (UrlLib.urlparse (Scraper.normalize_joined url))
   = UrlLib.scheme (UrlLib.urlparse url) /\
   UrlLib.netloc (UrlLib.urlparse (Scraper.normalize_joined url))
   = UrlLib.netloc (UrlLib.urlparse url) /\
   Utils.is_valid_url (Scraper.normalize_joined url) = Utils.is_valid_url url /\
   Utils.is_same_domain (Scraper.normalize_joined url) url = true).
Proof.
  intros Hnl. split.
  - unfold Utils.clean_url, Utils.clean_parts.
    apply rebuilt_keeps_host. exact Hnl.
  - unfold Scraper.normalize_joined, UrlLib.geturl, Scraper.normalize_parts.
    destruct (List.filter _ _);
      cbn [UrlLib.scheme UrlLib.netloc UrlLib.path UrlLib.params UrlLib.query
           UrlLib.fragment];
      apply rebuilt_keeps_host; exact Hnl.
Qed.

(** [cleaning_keeps_scheme_and_host] on a URL with an upper-case scheme,
    a doubled slash, a tracking parameter and a fragment. *)
Lemma cleaning_keeps_scheme_and_host_witness :
  Utils.clean_url "HTTPS://Docs.Example.com//guide/?utm_source=x&lang=en#top"
  = "https://Docs.Example.com/guide?lang=en" /\
  UrlLib.netloc (UrlLib.urlparse (Utils.clean_url
    "HTTPS://Docs.Example.com//guide/?utm_source=x&lang=en#top"))
  = "Docs.Example.com" /\
  UrlLib.netloc (UrlLib.urlparse (Scraper.normalize_joined
    "HTTPS://Docs.Example.com//guide/?utm_source=x&lang=en#top"))
  = "Docs.Example.com".
Proof.
  destruct (cleaning_keeps_scheme_and_host
              "HTTPS://Docs.Example.com//guide/?utm_source=x&lang=en#top"
              eq_refl) as [(_ & Hc & _) (_ & Hn & _)].
  split; [vm_compute; reflexivity|]. split.
  - rewrite Hc. vm_compute. reflexivity.
  - rewrite Hn. vm_compute. reflexivity.
Defined.

(** X18: for a URL with a scheme and a host, [get_domain] returns a
    URL with the same scheme and host, and is idempotent; so
    [urlparse(self.domain).netloc], which [Crawler.categorize_url]
    compares hosts with, is the host of the base URL. *)
Theorem get_domain_is_stable (url : string) :
  UrlLib.nonempty (UrlLib.scheme (UrlLib.urlparse url)) = true ->
  UrlLib.nonempty (UrlLib.netloc (UrlLib.urlparse url)) = true ->
  UrlLib.scheme (UrlLib.urlparse (Utils.get_domain url))
  = UrlLib.scheme (UrlLib.urlparse url) /\
  UrlLib.netloc (UrlLib.urlparse (Utils.get_domain url))
  = UrlLib.netloc (UrlLib.urlparse url) /\
  Utils.get_domain (Utils.get_domain url) = Utils.get_domain url.
Proof.
  intros Hsch Hnl.
  pose proof (urlparse_scheme_wf url) as Hs.
  pose proof (urlparse_netloc_wf url) as Hh.
  assert (H : UrlLib.scheme (UrlLib.urlparse (Utils.get_domain url))
              = UrlLib.scheme (UrlLib.urlparse url) /\
              UrlLib.netloc (UrlLib.urlparse (Utils.get_domain url))
              = UrlLib.netloc (UrlLib.urlparse url)).
  { pose proof (urlparse_host_built _ _ EmptyString Hs Hh eq_refl) as Hb.
    rewrite Hsch, append_nil_r, append_assoc in Hb.
    exact Hb. }
  destruct H as [H1 H2]. split; [exact H1|]. split; [exact H2|].
  unfold Utils.get_domain at 1. rewrite H1, H2. reflexivity.
Qed.

(** [get_domain_is_stable] on a page URL of the example site. *)
Lemma get_domain_is_stable_witness :
  Utils.get_domain "https://docs.example.com/docs/intro?x=1"
  = "https://docs.example.com" /\
  Utils.get_domain (Utils.get_domain "https://docs.example.com/docs/intro?x=1")
  = Utils.get_domain "https://docs.example.com/docs/intro?x=1".
Proof.
  split; [vm_compute; reflexivity|].
  apply (get_domain_is_stable "https://docs.example.com/docs/intro?x=1");
    reflexivity.
Defined.

(** X19: a URL the command-line callback [validate_url] returns was
    accepted by [is_valid_url], is accepted by it again after the
    normalization, and has the scheme and host of the value given. *)
Theorem validate_url_returns_valid_url (value v : string) :
  Cli.validate_url value = Cli.Accepted (Some v) ->
  Utils.is_valid_url value = true /\ Utils.is_valid_url v = true /\
  UrlLib.scheme (UrlLib.urlparse v) = UrlLib.scheme (UrlLib.urlparse value) /\
  UrlLib.netloc (UrlLib.urlparse v) = UrlLib.netloc (UrlLib.urlparse value).
Proof.
  unfold Cli.validate_url.
  destruct (UrlLib.nonempty value) eqn:Hne; [|discriminate]. cbn [negb].
  destruct (Utils.is_valid_url value) eqn:Hvalid; [|discriminate]. cbn [negb].
  intros [= <-].
  assert (Hnl : UrlLib.nonempty (UrlLib.netloc (UrlLib.urlparse value)) = true).
  { unfold Utils.is_valid_url in Hvalid. rewrite Hne in Hvalid. simpl in Hvalid.
    destruct (UrlLib.nonempty (UrlLib.scheme (UrlLib.urlparse value)));
      [|discriminate].
    destruct (UrlLib.nonempty (UrlLib.netloc (UrlLib.urlparse value)));
      [reflexivity | discriminate]. }
  unfold UrlLib.geturl.
  match goal with
  | |- context [UrlLib.urlunparse (UrlLib.mkParseResult _ _ ?p ?m ?q ?f)] =>
      destruct (rebuilt_keeps_host value p m q f Hnl) as (H1 & H2 & H3 & _)
  end.
  split; [reflexivity|]. split; [|split; assumption].
  transitivity (Utils.is_valid_url value); [exact H3 | exact Hvalid].
Qed.

(** [validate_url_returns_valid_url] on a URL with a trailing
    slash. *)
Lemma validate_url_returns_valid_url_witness :
  Cli.validate_url "https://example.com/docs/"
  = Cli.Accepted (Some "https://example.com/docs") /\
  Utils.is_valid_url "https://example.com/docs" = true.
Proof.
  assert (H : Cli.validate_url "https://example.com/docs/"
              = Cli.Accepted (Some "https://example.com/docs"))
    by (vm_compute; reflexivity).
  split; [exact H|].
  apply (validate_url_returns_valid_url "https://example.com/docs/"
           "https://example.com/docs" H).
Defined.

(** X20: the path [clean_url] hands to [urlunparse] is normal: it has
    no doubled slash, and it does not end with a slash unless it is
    the root path. *)
Theorem clean_url_path_is_normal (url : string) :
  PyStr.contains (UrlLib.path (Utils.clean_parts url)) "//" = false /\
  (UrlLib.path (Utils.clean_parts url) = "/" \/
   PyStr.endswith (UrlLib.path (Utils.clean_parts url)) "/" = false).
Proof.
  unfold Utils.clean_parts. cbn [UrlLib.path].
  set (path0 := PyStr.collapse_slashes (UrlLib.path (UrlLib.urlparse url))).
  pose proof (collapse_slashes_no_double (UrlLib.path (UrlLib.urlparse url)))
    as Hnd.
  fold path0 in Hnd.
  destruct (String.eqb path0 "/") eqn:Hroot; cbn [negb andb].
  - apply String.eqb_eq in Hroot. split; [exact Hnd | left; exact Hroot].
  - destruct (PyStr.endswith path0 "/") eqn:Hend.
    + split; [|right; apply rstrip_tail].
      destruct (rstrip_split "/" path0) as [t Ht].
      apply (contains_app _ t). rewrite <- Ht. exact Hnd.
    + split; [exact Hnd | right; exact Hend].
Qed.

(** X21: [is_same_domain] is symmetric and reflexive. *)
Theorem is_same_domain_is_symmetric (url1 url2 : string) :
  Utils.is_same_domain url1 url2 = Utils.is_same_domain url2 url1 /\
  Utils.is_same_domain url1 url1 = true.
Proof.
  unfold Utils.is_same_domain. split.
  - rewrite (String.eqb_sym
               (PyStr.lower (UrlLib.netloc (UrlLib.urlparse url1)))).
    rewrite (String.eqb_sym (Utils.main_domain _)).
    rewrite (andb_comm (2 <=? _)%nat). reflexivity.
  - rewrite String.eqb_refl. reflexivity.
Qed.

(** ** [Crawler.extract_links] *)

Section ExtractorFacts.
Import Extractor.
Variable Pattern : Type.
Variable search : Pattern -> string -> bool.
Variable urljoin : string -> string -> string.
Variable self : Classifier.Site.
Variable url_include_regex url_exclude_regex : list Pattern.

Local Abbreviation file_link :=
  (Extractor.file_link Pattern search self url_include_regex url_exclude_regex).
Local Abbreviation add_link :=
  (Extractor.add_link Pattern search urljoin self url_include_regex
                      url_exclude_regex).
Local Abbreviation add_special_link :=
  (Extractor.add_special_link Pattern search urljoin self url_include_regex
                              url_exclude_regex).
Local Abbreviation extract_links :=
  (Extractor.extract_links Pattern search urljoin self url_include_regex
                           url_exclude_regex).
Local Abbreviation filed :=
  (Extractor.filed Pattern search self url_include_regex url_exclude_regex).
Local Abbreviation sorted_inv :=
  (Extractor.sorted_inv Pattern search self url_include_regex url_exclude_regex).

Lemma Permutation_snoc_middle {A : Type} (x : A) (l1 l2 l3 : list A) :
  Permutation (l1 ++ (l2 ++ [x]) ++ l3) (x :: l1 ++ l2 ++ l3).
Proof.
  rewrite <- app_assoc. simpl. symmetry.
  rewrite !app_assoc. apply Permutation_middle.
Qed.

Lemma append_to_all (category : Category) (url : string) (l : Links) :
  category <> Invalid ->
  Permutation (all_links (append_to category url l)) (url :: all_links l).
Proof.
  intros Hc. unfold all_links.
  destruct category; simpl; try congruence.
  - apply (Permutation_snoc_middle url [] (l_doc l)).
  - apply Permutation_snoc_middle.
  - rewrite !(app_assoc (l_doc l)). apply Permutation_snoc_middle.
  - rewrite !app_assoc. symmetry. apply Permutation_cons_append.
Qed.

Lemma category_cases (category : Category) :
  category = Invalid \/ category <> Invalid.
Proof. destruct category; auto; right; discriminate. Qed.

(** *** No URL is listed twice *)

Lemma append_distinct (category : Category) (url : string) (f : Found) :
  url ∉ seen_urls f ->
  distinct_inv f ->
  distinct_inv (mkFound (append_to category url (links (see url f)))
                        (seen_urls (see url f))).
Proof.
  intros Hnew [Hnd Hin]. simpl.
  destruct (category_cases category) as [-> | Hc].
  { split; simpl; [exact Hnd|]. intros u Hu. apply elem_of_union_r, Hin, Hu. }
  pose proof (append_to_all category url (links f) Hc) as Hperm.
  split; simpl.
  - apply NoDup_ListNoDup.
    eapply Permutation_NoDup; [symmetry; exact Hperm|].
    constructor.
    + intros Hu. apply Hnew, Hin, Hu.
    + apply NoDup_ListNoDup. exact Hnd.
  - intros u Hu. apply (Permutation_in _ Hperm) in Hu as [<- | Hu].
    + apply elem_of_union_l, elem_of_singleton. reflexivity.
    + apply elem_of_union_r, Hin, Hu.
Qed.

Lemma see_distinct (url : string) (f : Found) :
  distinct_inv f -> distinct_inv (see url f).
Proof.
  intros [Hnd Hin]. split; [exact Hnd|].
  intros u Hu. apply elem_of_union_r, Hin, Hu.
Qed.

Lemma file_link_distinct (url : string) (f : Found) :
  url ∉ seen_urls f -> distinct_inv f ->
  distinct_inv (file_link url (see url f)).
Proof.
  intros Hnew H. unfold Extractor.file_link.
  destruct (negb _); [apply see_distinct; exact H|].
  apply append_distinct; assumption.
Qed.

Lemma add_link_distinct (current_url : string) (f : Found)
      (href : option string) :
  distinct_inv f -> distinct_inv (add_link current_url f href).
Proof.
  intros H. unfold Extractor.add_link.
  destruct href as [href|]; [|exact H].
  destruct (negb (UrlLib.nonempty href)); [exact H|].
  destruct (PyStr.startswith_any href Utils.skip_prefixes); [exact H|].
  destruct (bool_decide _) eqn:Hseen; [exact H|].
  apply bool_decide_eq_false in Hseen.
  destruct (foreign self _).
  - apply append_distinct; assumption.
  - apply file_link_distinct; assumption.
Qed.

Lemma add_special_link_distinct (current_url : string) (f : Found)
      (path : option string) :
  distinct_inv f -> distinct_inv (add_special_link current_url f path).
Proof.
  intros H. unfold Extractor.add_special_link.
  destruct path as [path|]; [|exact H].
  destruct (_ && _); [|exact H].
  destruct (bool_decide _) eqn:Hseen; [exact H|].
  apply bool_decide_eq_false in Hseen.
  apply file_link_distinct; assumption.
Qed.

(** The three loops keep a property that each of their bodies
    keeps. *)
Lemma extract_links_invariant (P : Found -> Prop) (soup : Anchors)
      (current_url : string) :
  (forall f href, P f -> P (add_link current_url f href)) ->
  (forall f path, P f -> P (add_special_link current_url f path)) ->
  P (mkFound (mkLinks [] [] [] []) ∅) ->
  exists f, P f /\ extract_links soup current_url = links f.
Proof.
  intros Hlink Hspecial Hinit. eexists. split; [|reflexivity].
  unfold Extractor._extract_special_doc_links.
  repeat (apply fold_left_invariant; [intros a x; auto|]).
  exact Hinit.
Qed.

(** *** Every URL is listed under its category *)

Lemma append_sorted (category : Category) (url : string) (f : Found) :
  filed category url ->
  sorted_inv f ->
  sorted_inv (mkFound (append_to category url (links f)) (seen_urls f)).
Proof.
  intros Hf (Hd & Ha & He & Hs). unfold Extractor.sorted_inv.
  destruct category; simpl; repeat split; try assumption;
    apply Forall_app; (split; [assumption|]);
    (constructor; [exact Hf | constructor]).
Qed.

Lemma file_link_sorted (url : string) (f : Found) :
  sorted_inv f -> sorted_inv (file_link url f).
Proof.
  intros H. unfold Extractor.file_link.
  destruct (_matches_url_filters _ _ _ _ url) eqn:Hm; simpl; [|exact H].
  apply append_sorted; [|exact H]. left. split; [reflexivity | exact Hm].
Qed.

Lemma add_link_sorted (current_url : string) (f : Found)
      (href : option string) :
  sorted_inv f -> sorted_inv (add_link current_url f href).
Proof.
  intros H. unfold Extractor.add_link.
  destruct href as [href|]; [|exact H].
  destruct (negb (UrlLib.nonempty href)); [exact H|].
  destruct (PyStr.startswith_any href Utils.skip_prefixes); [exact H|].
  destruct (bool_decide _); [exact H|].
  destruct (foreign self _) eqn:Hf.
  - apply (append_sorted External _ (see _ f)); [|exact H].
    right. split; [reflexivity | exact Hf].
  - apply file_link_sorted. exact H.
Qed.

Lemma add_special_link_sorted (current_url : string) (f : Found)
      (path : option string) :
  sorted_inv f -> sorted_inv (add_special_link current_url f path).
Proof.
  intros H. unfold Extractor.add_special_link.
  destruct path as [path|]; [|exact H].
  destruct (_ && _); [|exact H].
  destruct (bool_decide _); [exact H|].
  apply file_link_sorted. exact H.
Qed.

(** *** Every URL is a cleaned URL *)

Lemma append_to_forall (P : string -> Prop) (category : Category)
      (url : string) (l : Links) :
  P url -> List.Forall P (all_links l) ->
  List.Forall P (all_links (append_to category url l)).
Proof.
  intros Hu Hl.
  destruct (category_cases category) as [-> | Hc]; [exact Hl|].
  apply List.Forall_forall. intros u Hin.
  apply (Permutation_in _ (append_to_all category url l Hc)) in Hin
    as [<- | Hin]; [exact Hu|].
  apply (proj1 (List.Forall_forall _ _) Hl u Hin).
Qed.

Lemma file_link_clean (x : string) (f : Found) :
  List.Forall (fun u => PyStr.has_char "#" u = false) (all_links (links f)) ->
  List.Forall (fun u => PyStr.has_char "#" u = false)
    (all_links (links (file_link (Utils.clean_url x) f))).
Proof.
  intros H. unfold Extractor.file_link. destruct (negb _); [exact H|].
  cbn [links]. apply append_to_forall; [apply clean_url_no_hash | exact H].
Qed.

Lemma add_link_clean (current_url : string) (f : Found) (href : option string) :
  List.Forall (fun u => PyStr.has_char "#" u = false) (all_links (links f)) ->
  List.Forall (fun u => PyStr.has_char "#" u = false)
    (all_links (links (add_link current_url f href))).
Proof.
  intros H. unfold Extractor.add_link.
  destruct href as [href|]; [|exact H].
  destruct (negb (UrlLib.nonempty href)); [exact H|].
  destruct (PyStr.startswith_any href Utils.skip_prefixes); [exact H|].
  destruct (bool_decide _); [exact H|].
  destruct (foreign self _).
  - cbn [links]. apply append_to_forall; [apply clean_url_no_hash | exact H].
  - apply file_link_clean. exact H.
Qed.

Lemma add_special_link_clean (current_url : string) (f : Found)
      (path : option string) :
  List.Forall (fun u => PyStr.has_char "#" u = false) (all_links (links f)) ->
  List.Forall (fun u => PyStr.has_char "#" u = false)
    (all_links (links (add_special_link current_url f path))).
Proof.
  intros H. unfold Extractor.add_special_link.
  destruct path as [path|]; [|exact H].
  destruct (_ && _); [|exact H].
  destruct (bool_decide _); [exact H|].
  apply file_link_clean. exact H.
Qed.

End ExtractorFacts.

(** X22: [extract_links] reports no URL twice, neither within one of
    its four lists nor across them. *)
Theorem extract_links_reports_each_url_once
        (Pattern : Type) (search : Pattern -> string -> bool)
        (urljoin : string -> string -> string) (self : Classifier.Site)
        (url_include_regex url_exclude_regex : list Pattern)
        (soup : Extractor.Anchors) (current_url : string) :
  NoDup (Extractor.all_links
           (Extractor.extract_links Pattern search urljoin self
              url_include_regex url_exclude_regex soup current_url)).
Proof.
  destruct (extract_links_invariant Pattern search urljoin self
              url_include_regex url_exclude_regex Extractor.distinct_inv
              soup current_url) as (f & [Hnd _] & ->).
  - intros f href. apply add_link_distinct.
  - intros f path. apply add_special_link_distinct.
  - split; simpl; [constructor | intros url []].
  - exact Hnd.
Qed.

(** X23: every URL [extract_links] lists as documentation, auxiliary
    or asset has passed the URL filters and is of that category
    according to [categorize_url]; a URL listed as external is either
    of category external (and has passed the filters) or was sent
    there by the domain test of the first loop, which is made before
    the filters apply. *)
Theorem extract_links_sorts_by_category
        (Pattern : Type) (search : Pattern -> string -> bool)
        (urljoin : string -> string -> string) (self : Classifier.Site)
        (url_include_regex url_exclude_regex : list Pattern)
        (soup : Extractor.Anchors) (current_url : string) :
  let found := Extractor.extract_links Pattern search urljoin self
                 url_include_regex url_exclude_regex soup current_url in
  let passes url :=
    _matches_url_filters Pattern search url_include_regex url_exclude_regex url
    = true in
  Forall (fun url => Classifier.categorize_url self url = Doc /\ passes url)
         (l_doc found) /\
  Forall (fun url => Classifier.categorize_url self url = Aux /\ passes url)
         (l_aux found) /\
  Forall (fun url => Classifier.categorize_url self url = Asset /\ passes url)
         (l_asset found) /\
  Forall (fun url =>
            Extractor.foreign self url = true \/
            (Classifier.categorize_url self url = External /\ passes url))
         (l_external found).
Proof.
  cbv zeta.
  destruct (extract_links_invariant Pattern search urljoin self
              url_include_regex url_exclude_regex
              (Extractor.sorted_inv Pattern search self url_include_regex
                                    url_exclude_regex)
              soup current_url) as (f & (Hd & Ha & He & Hs) & ->).
  - intros f href. apply add_link_sorted.
  - intros f path. apply add_special_link_sorted.
  - repeat split; constructor.
  - repeat split.
    + eapply List.Forall_impl; [|exact Hd].
      intros u [Hu | [Hc _]]; [exact Hu | discriminate Hc].
    + eapply List.Forall_impl; [|exact Ha].
      intros u [Hu | [Hc _]]; [exact Hu | discriminate Hc].
    + eapply List.Forall_impl; [|exact Hs].
      intros u [Hu | [Hc _]]; [exact Hu | discriminate Hc].
    + eapply List.Forall_impl; [|exact He].
      intros u [Hu | [_ Hf]]; [right; exact Hu | left; exact Hf].
Qed.

(** X24: no URL [extract_links] reports carries a fragment: every
    one of them went through [clean_url]. *)
Theorem extract_links_reports_no_fragment
        (Pattern : Type) (search : Pattern -> string -> bool)
        (urljoin : string -> string -> string) (self : Classifier.Site)
        (url_include_regex url_exclude_regex : list Pattern)
        (soup : Extractor.Anchors) (current_url : string) :
  Forall (fun url => PyStr.has_char "#" url = false /\
                     UrlLib.fragment (UrlLib.urlparse url) = EmptyString)
    (Extractor.all_links
       (Extractor.extract_links Pattern search urljoin self url_include_regex
                                url_exclude_regex soup current_url)).
Proof.
  eapply List.Forall_impl;
    [intros url H; split; [exact H | apply no_hash_no_fragment, H]|].
  destruct (extract_links_invariant Pattern search urljoin self
              url_include_regex url_exclude_regex
              (fun f => List.Forall (fun u => PyStr.has_char "#" u = false)
                          (Extractor.all_links (Extractor.links f)))
              soup current_url) as (f & Hf & ->).
  - intros f href. apply add_link_clean.
  - intros f path. apply add_special_link_clean.
  - constructor.
  - exact Hf.
Qed.

(** ** [utils.py]: path segments and structure analysis *)

Section StructureFacts.
Import PyStr UrlLib Paths.

Lemma bump_total {K} `{EqDecision K} (k : K) (d : list (K * Z)) :
  total (bump k d) = total d + 1.
Proof.
  unfold total. induction d as [|[k' n] d IH]; [reflexivity|].
  cbn [bump]. destruct (bool_decide (k' = k)); cbn [map fold_right snd] in *;
    [lia | rewrite IH; lia].
Qed.

Lemma bump_count {K} `{EqDecision K} (k k0 : K) (d : list (K * Z)) :
  count k0 (bump k d) = count k0 d + (if bool_decide (k = k0) then 1 else 0).
Proof.
  induction d as [|[k' n] d IH]; cbn [bump count].
  - destruct (bool_decide (k = k0)); lia.
  - destruct (bool_decide (k' = k)) eqn:Hk; cbn [count].
    + apply bool_decide_eq_true in Hk. subst k'.
      destruct (bool_decide (k = k0)); lia.
    + apply bool_decide_eq_false in Hk.
      destruct (bool_decide (k' = k0)) eqn:Hk0; [|exact IH].
      apply bool_decide_eq_true in Hk0. subst k'.
      rewrite (bool_decide_eq_false_2 (k = k0)); [lia | congruence].
Qed.

Lemma bump_keys {K} `{EqDecision K} (k k0 : K) (d : list (K * Z)) :
  In k0 (map fst (bump k d)) <-> k0 = k \/ In k0 (map fst d).
Proof.
  induction d as [|[k' n] d IH]; cbn [bump map fst In].
  - intuition congruence.
  - destruct (bool_decide (k' = k)) eqn:Hk; cbn [map fst In].
    + apply bool_decide_eq_true in Hk. subst k'. intuition congruence.
    + rewrite IH. intuition congruence.
Qed.

Lemma bump_nodup {K} `{EqDecision K} (k : K) (d : list (K * Z)) :
  List.NoDup (map fst d) -> List.NoDup (map fst (bump k d)).
Proof.
  induction d as [|[k' n] d IH]; cbn [bump map fst]; intros Hnd.
  - constructor; [intros [] | constructor].
  - inversion Hnd as [|? ? Hk' Hd]; subst.
    destruct (bool_decide (k' = k)) eqn:Hk; cbn [map fst];
      [constructor; assumption|].
    apply bool_decide_eq_false in Hk.
    constructor; [|apply IH, Hd].
    rewrite bump_keys. intros [-> | Hin]; [congruence | exact (Hk' Hin)].
Qed.

Lemma record_url_counted (n : Z) a (url : string) :
  counted n a -> counted (n + 1) (record_url a url).
Proof.
  intros (Hd & Hs & Hks & Hkd). unfold record_url.
  destruct (negb (nonempty (strip "/" (path (urlparse url))))).
  - repeat split; cbn [fst snd].
    + rewrite bump_total. lia.
    + rewrite bump_count, (bool_decide_eq_true_2 (Root = Root));
        [lia | reflexivity].
    + exact Hks.
    + apply bump_nodup, Hkd.
  - destruct (split "/" (strip "/" (path (urlparse url))))
      as [|section rest] eqn:Hsplit.
    + pose proof (split_not_nil "/" (strip "/" (path (urlparse url)))) as Hne.
      rewrite Hsplit in Hne. congruence.
    + repeat split; cbn [fst snd].
      * rewrite bump_total. lia.
      * rewrite bump_total, bump_count,
          (bool_decide_eq_false_2 (Level _ = Root)); [lia | discriminate].
      * apply bump_nodup, Hks.
      * apply bump_nodup, Hkd.
Qed.

Lemma fold_record_url_counted (urls : list string) :
  forall n a, counted n a ->
    counted (n + Z.of_nat (List.length urls)) (fold_left record_url urls a).
Proof.
  induction urls as [|url urls IH]; intros n a Ha; simpl fold_left.
  - replace (n + Z.of_nat (List.length (@nil string))) with n
      by (simpl List.length; lia).
    exact Ha.
  - replace (n + Z.of_nat (List.length (url :: urls)))
      with ((n + 1) + Z.of_nat (List.length urls))
      by (simpl List.length; lia).
    apply IH, record_url_counted, Ha.
Qed.

(** The second loop collects the first segment of every URL, so every
    key of [sections] is among them. *)
Lemma fold_record_prefix_mono (urls : list string) (acc : gset string)
      (section : string) :
  section ∈ acc -> section ∈ fold_left record_prefix urls acc.
Proof.
  revert acc. induction urls as [|url urls IH]; intros acc H; [exact H|].
  simpl fold_left. apply IH. unfold record_prefix.
  destruct (split _ _); [exact H | apply elem_of_union_r, H].
Qed.

Lemma sections_in_prefixes (urls : list string) :
  forall a acc,
    (forall section, In section (map fst (fst a)) -> section ∈ acc) ->
    forall section,
      In section (map fst (fst (fold_left record_url urls a))) ->
      section ∈ fold_left record_prefix urls acc.
Proof.
  induction urls as [|url urls IH]; intros a acc Ha section; [apply Ha|].
  simpl fold_left. apply IH. clear section. intros section.
  unfold record_url, record_prefix.
  destruct (negb (nonempty (strip "/" (path (urlparse url))))).
  - cbn [fst]. intros H.
    destruct (split _ _); [apply Ha, H | apply elem_of_union_r, Ha, H].
  - destruct (split "/" (strip "/" (path (urlparse url)))) as [|first rest];
      cbn [fst]; [apply Ha|].
    rewrite bump_keys. intros [-> | H].
    + apply elem_of_union_l, elem_of_singleton. reflexivity.
    + apply elem_of_union_r, Ha, H.
Qed.

End StructureFacts.

(** X25: [analyze_documentation_structure] counts every URL exactly
    once: the counters of [depth] add up to [total_urls], the counters
    of [sections] together with the count of root URLs add up to
    [total_urls], no key occurs twice, and every section is among the
    [common_patterns]. *)
Theorem analysis_counts_every_url (urls : list string) :
  Paths.total (Paths.depth (Paths.analyze_documentation_structure urls))
  = Paths.total_urls (Paths.analyze_documentation_structure urls) /\
  Paths.total (Paths.sections (Paths.analyze_documentation_structure urls))
  + Paths.count Paths.Root
      (Paths.depth (Paths.analyze_documentation_structure urls))
  = Paths.total_urls (Paths.analyze_documentation_structure urls) /\
  List.NoDup
    (map fst (Paths.sections (Paths.analyze_documentation_structure urls))) /\
  List.NoDup
    (map fst (Paths.depth (Paths.analyze_documentation_structure urls))) /\
  Forall (fun section =>
            section ∈ Paths.common_patterns
                        (Paths.analyze_documentation_structure urls))
         (map fst (Paths.sections (Paths.analyze_documentation_structure urls))).
Proof.
  unfold Paths.analyze_documentation_structure.
  cbn [Paths.depth Paths.sections Paths.total_urls Paths.common_patterns].
  pose proof (fold_record_url_counted urls 0 ([], [])) as H.
  rewrite Z.add_0_l in H.
  destruct H as (H1 & H2 & H3 & H4);
    [repeat split; try reflexivity; constructor|].
  split; [exact H1|]. split; [exact H2|]. split; [exact H3|].
  split; [exact H4|].
  apply List.Forall_forall. intros section.
  apply (sections_in_prefixes urls ([], []) ∅). intros s [].
Qed.

(** X26: every segment [extract_path_segments] returns is non-empty
    and holds none of the characters [/], [?] and [#]. *)
Theorem path_segments_are_plain (url base_url : string) :
  Forall
    (fun segment =>
       UrlLib.nonempty segment = true /\
       PyStr.has_char "/" segment = false /\
       PyStr.has_char "?" segment = false /\
       PyStr.has_char "#" segment = false)
    (Paths.extract_path_segments url base_url).
Proof.
  unfold Paths.extract_path_segments.
  set (path0 := if _ && _ then _ else _).
  set (path1 := List.hd EmptyString (PyStr.split "?" path0)).
  set (path2 := List.hd EmptyString (PyStr.split "#" path1)).
  assert (Hq1 : PyStr.has_char "?" path1 = false).
  { unfold path1. pose proof (split_separator "?" path0) as H.
    destruct (PyStr.split "?" path0) as [|w ws]; [reflexivity|].
    inversion H; subst. assumption. }
  assert (Hq2 : PyStr.has_char "?" path2 = false).
  { unfold path2. pose proof (split_chars "?" "#" path1 Hq1) as H.
    destruct (PyStr.split "#" path1) as [|w ws]; [reflexivity|].
    inversion H; subst. assumption. }
  assert (Hh2 : PyStr.has_char "#" path2 = false).
  { unfold path2. pose proof (split_separator "#" path1) as H.
    destruct (PyStr.split "#" path1) as [|w ws]; [reflexivity|].
    inversion H; subst. assumption. }
  assert (Hstrip : forall c, PyStr.has_char c path2 = false ->
                             PyStr.has_char c (PyStr.strip "/" path2) = false).
  { intros c H. unfold PyStr.strip. apply rstrip_chars, lstrip_chars, H. }
  pose proof (split_separator "/" (PyStr.strip "/" path2)) as Hslash.
  pose proof (split_chars "?" "/" _ (Hstrip _ Hq2)) as Hq.
  pose proof (split_chars "#" "/" _ (Hstrip _ Hh2)) as Hh.
  apply List.Forall_forall. intros segment Hseg.
  apply filter_In in Hseg as [Hseg Hne].
  split; [exact Hne|]. split; [|split].
  - apply (proj1 (List.Forall_forall _ _) Hslash segment Hseg).
  - apply (proj1 (List.Forall_forall _ _) Hq segment Hseg).
  - apply (proj1 (List.Forall_forall _ _) Hh segment Hseg).
Qed.

(** ** Crawls that download nothing *)

(** X27: when the stop event is already set at the first test, or
    [max_pages] is zero or negative, neither crawl loop hands a URL to
    a download: the loop ends at once, nothing is fetched and no page
    is counted. *)
Theorem idle_crawl_downloads_nothing
        (cfg : Crawler.Config) (crawler_download : nat -> string -> Fetch.Download)
        (crawler_completed : nat -> list (Entry * Fetch.Download) ->
                             list (Entry * Fetch.Download))
        (callback_raises progress_raises : string -> bool)
        (crawler_state : Crawler.State)
        (Pattern : Type) (search : Pattern -> string -> bool)
        (base_url : string) (include_assets : bool) (max_depth : Z)
        (max_pages : option Z) (concurrent_requests : Z)
        (url_include_regex url_exclude_regex : list Pattern)
        (download : nat -> string -> Scraper.PageDownload)
        (as_completed : nat -> list (Entry * Scraper.PageDownload) ->
                        list (Entry * Scraper.PageDownload))
        (save_content : string -> string -> string -> bool)
        (scraper_state : Scraper.State) (start_urls : list string)
        (stop_event : nat -> bool) (fuel : nat) (n : Z) :
  stop_event 0%nat = true \/
  (Crawler.max_pages cfg = Some n /\ max_pages = Some n /\ n <= 0) ->
  (snd (Crawler.crawl cfg crawler_download stop_event crawler_completed
                      callback_raises progress_raises (S fuel) crawler_state)
   = true /\
   Crawler.fetched
     (fst (Crawler.crawl cfg crawler_download stop_event crawler_completed
                         callback_raises progress_raises (S fuel)
                         crawler_state)) = [] /\
   Crawler.pages_downloaded
     (Crawler.self
        (fst (Crawler.crawl cfg crawler_download stop_event crawler_completed
                            callback_raises progress_raises (S fuel)
                            crawler_state))) = 0) /\
  (Scraper.returned
     (Scraper.crawl Pattern search base_url include_assets max_depth max_pages
                    concurrent_requests url_include_regex url_exclude_regex
                    download stop_event as_completed save_content (S fuel)
                    scraper_state start_urls) = true /\
   Scraper.fetched (Scraper.loop_of
     (Scraper.crawl Pattern search base_url include_assets max_depth max_pages
                    concurrent_requests url_include_regex url_exclude_regex
                    download stop_event as_completed save_content (S fuel)
                    scraper_state start_urls)) = [] /\
   Scraper.pages_downloaded (Scraper.self (Scraper.loop_of
     (Scraper.crawl Pattern search base_url include_assets max_depth max_pages
                    concurrent_requests url_include_regex url_exclude_regex
                    download stop_event as_completed save_content (S fuel)
                    scraper_state start_urls))) = 0).
Proof.
  intros H. split.
  - unfold Crawler.crawl, Crawler.start. cbn [Crawler.while_loop].
    unfold Crawler.iteration.
    cbn [Crawler.doc_queue Crawler.self Crawler.stopping Crawler.batches
         Crawler.fetched Crawler.pages_downloaded Crawler.add_queued
         Crawler.reset List.length Nat.eqb negb andb].
    destruct H as [Hstop | (Hn & _ & Hle)].
    + rewrite Hstop. destruct (under_cap _ _); repeat split; reflexivity.
    + unfold under_cap. rewrite Hn.
      replace (0 <? n) with false by (symmetry; lia).
      repeat split; reflexivity.
  - unfold Scraper.crawl, Scraper.start. cbn [Scraper.while_loop].
    unfold Scraper.iteration.
    cbn [Scraper.queue Scraper.self Scraper.stopping Scraper.clock
         Scraper.fetched Scraper.pages_downloaded Scraper.add_queued
         Scraper.reset].
    destruct (negb (Nat.eqb _ _)); [|repeat split; reflexivity].
    destruct H as [Hstop | (_ & Hn & Hle)].
    + rewrite Hstop. destruct (under_cap _ _); repeat split; reflexivity.
    + unfold under_cap. rewrite Hn.
      replace (0 <? n) with false by (symmetry; lia).
      repeat split; reflexivity.
Qed.

(** [idle_crawl_downloads_nothing] on the six-page and the two-page
    site with a stop event that is set from the start. *)
Lemma idle_crawl_downloads_nothing_witness :
  Crawler.fetched
    (fst (Crawler.crawl Scenario.capped Scenario.six_pages (fun _ => true)
                        Scenario.in_order Scenario.never Scenario.never 1
                        Scenario.fresh_crawler)) = [] /\
  Scraper.fetched (Scraper.loop_of
    (Scraper.crawl string Scenario.literal_search Scenario.root false 3 None 5
                   [] [] Scenario.two_pages (fun _ => true) Scenario.in_order
                   Scenario.save_fails 1 Scenario.fresh_scraper [])) = [].
Proof.
  destruct (idle_crawl_downloads_nothing Scenario.capped Scenario.six_pages
              Scenario.in_order Scenario.never Scenario.never
              Scenario.fresh_crawler string Scenario.literal_search
              Scenario.root false 3 None 5 [] [] Scenario.two_pages
              Scenario.in_order Scenario.save_fails Scenario.fresh_scraper []
              (fun _ => true) 0 0 (or_introl eq_refl))
    as [(_ & Hc & _) (_ & Hs & _)].
  split; [exact Hc | exact Hs].
Defined.
